(** * The travel-itinerary generator (src/src/itinenary_generator.py, src/main.py)

    A shallow embedding of [ItineraryGenerator] and of the submit handler of
    the planner page, followed by the properties of the specification.

    Conventions of the embedding:
    - a Python [int] is a [Z]; a Python [float] is a binary64 number, kept
      as the rational it stands for, and every operation on floats rounds
      to nearest, ties to even ([Float64]); the rating of an accommodation,
      a float rounded to one decimal, is kept as that decimal;
    - a Python [str] is a [string], the bytes of its text in UTF-8;
    - a Python [dict] is an association list kept in insertion order;
    - a [date]/[datetime] is its proleptic Gregorian ordinal ([toordinal()]);
    - the [random] module, [uuid.uuid4] and the clock are read from an explicit
      [world], threaded through a state-and-exception monad;
    - [print] calls are left out. *)

From Stdlib Require Import ZArith NArith QArith Qround Qabs Qpower.
From Stdlib Require Import List String Ascii Lia Lqa Bool.
From Stdlib Require Import DecimalString DecimalZ FinFun.
Import ListNotations.
Local Open Scope string_scope.
Local Open Scope list_scope.
Local Open Scope Z_scope.

(* ================================================================= *)
(** ** Python runtime *)

Module Py.

(** Exception classes that can travel through the generator.  The last two
    derive from [BaseException] only, so [except Exception] lets them pass. *)
Inductive exn : Type :=
| ZeroDivisionError
| OverflowError
| ValueError
| IndexError
| KeyError
| TypeError
| JSONDecodeError
| RecursionError
| RuntimeError (msg : string)
| KeyboardInterrupt
| CancelledError.

Definition is_Exception (e : exn) : bool :=
  match e with
  | KeyboardInterrupt | CancelledError => false
  | _ => true
  end.

Definition is_JSONDecodeError (e : exn) : bool :=
  match e with JSONDecodeError => true | _ => false end.

Inductive result (A : Type) : Type :=
| Ok (a : A)
| Raise (e : exn).
Arguments Ok {A} a.
Arguments Raise {A} e.

(** The ambient state read by the generator: the Mersenne-Twister stream of
    the [random] module (one entry per call), the operating system's entropy
    used by [uuid.uuid4] (one entry per call), and today's date. *)
Record world : Type := {
  mt_stream : nat -> N;
  mt_pos : nat;
  urandom : nat -> N;
  urandom_pos : nat;
  today : Z
}.

(** A computation reads and advances the world, and returns or raises. *)
Definition M (A : Type) : Type := world -> result A * world.

Definition ret {A} (a : A) : M A := fun w => (Ok a, w).

Definition raise {A} (e : exn) : M A := fun w => (Raise e, w).

Definition bind {A B} (m : M A) (k : A -> M B) : M B :=
  fun w =>
    match m w with
    | (Ok a, w') => k a w'
    | (Raise e, w') => (Raise e, w')
    end.

(** [try: m except <class>: h], for the classes selected by [catches] *)
Definition try_catch {A} (catches : exn -> bool) (m : M A) (h : M A) : M A :=
  fun w =>
    match m w with
    | (Ok a, w') => (Ok a, w')
    | (Raise e, w') => if catches e then h w' else (Raise e, w')
    end.

(** The outcome of a call to a collaborator, as a computation. *)
Definition lift {A} (r : result A) : M A := fun w => (r, w).

End Py.
Import Py.

Declare Scope py_scope.
Delimit Scope py_scope with py.
Notation "x <- m ;; k" := (bind m (fun x => k))
  (at level 61, m at next level, right associativity) : py_scope.
Notation "' p <- m ;; k" := (bind m (fun p => k))
  (at level 61, p pattern, m at next level, right associativity) : py_scope.
Local Open Scope py_scope.

(** [for x in l: acc = f(acc, x)] *)
Fixpoint foldM {A S : Type} (f : S -> A -> M S) (l : list A) (s : S) : M S :=
  match l with
  | [] => ret s
  | x :: l' => s' <- f s x ;; foldM f l' s'
  end.

(** A loop that appends one value per round. *)
Fixpoint mapM {A B : Type} (f : A -> M B) (l : list A) : M (list B) :=
  match l with
  | [] => ret []
  | x :: l' => y <- f x ;; ys <- mapM f l' ;; ret (y :: ys)
  end.

(** [range(a, b)] *)
Definition range (a b : Z) : list Z :=
  map (fun i => a + Z.of_nat i) (seq 0 (Z.to_nat (b - a))).

(** *** Binary64 floating point *)

Module Float64.

(** The integer nearest to [x], ties to even. *)
Definition round_half_even (x : Q) : Z :=
  let f := Qfloor x in
  match (x - inject_Z f ?= 1 # 2)%Q with
  | Lt => f
  | Gt => f + 1
  | Eq => if Z.even f then f else f + 1
  end.

(** The exponent of [x > 0]: the [l] with [2^l <= x < 2^(l+1)]. *)
Definition ilog2 (x : Q) : Z :=
  let l := Z.log2 (Qnum x) - Z.log2 (Zpos (Qden x)) in
  if Qle_bool (2 ^ l) x then l else l - 1.

(** Rounding to a 53-bit significand, with gradual underflow below 2^-1022,
    and no upper limit on the exponent. *)
Definition round (x : Q) : Q :=
  if Qeq_bool x 0 then 0%Q
  else
    let a := Qabs x in
    let e := Z.max (ilog2 a - 52) (-1074) in
    let m := round_half_even (a / 2 ^ e) in
    ((if Qle_bool 0 x then inject_Z m else inject_Z (- m)) * 2 ^ e)%Q.

(** The unit roundoff, 2^-53. *)
Definition u : Q := 1 # 9007199254740992.

Inductive t : Type :=
| Finite (q : Q)
| Infinite (negative : bool)
| NaN.

Definition is_negative (q : Q) : bool := negb (Qle_bool 0 q).

(** The float nearest to a rational: past the largest finite number the
    rounding gives an infinity. *)
Definition of_Q (q : Q) : t :=
  let r := round q in
  if Qle_bool (2 ^ 1024) (Qabs r) then Infinite (is_negative q) else Finite r.

Definition opp (x : t) : t :=
  match x with
  | Finite a => Finite (- a)
  | Infinite s => Infinite (negb s)
  | NaN => NaN
  end.

Definition add (x y : t) : t :=
  match x, y with
  | Finite a, Finite b => of_Q (a + b)
  | Infinite s, Finite _ | Finite _, Infinite s => Infinite s
  | Infinite s, Infinite s' => if Bool.eqb s s' then Infinite s else NaN
  | _, _ => NaN
  end.

Definition sub (x y : t) : t := add x (opp y).

Definition mul (x y : t) : t :=
  match x, y with
  | Finite a, Finite b => of_Q (a * b)
  | Infinite s, Finite b | Finite b, Infinite s =>
      if Qeq_bool b 0 then NaN else Infinite (xorb s (is_negative b))
  | Infinite s, Infinite s' => Infinite (xorb s s')
  | _, _ => NaN
  end.

(** [x / y] for a divisor that is not zero *)
Definition div (x y : t) : t :=
  match x, y with
  | Finite a, Finite b => of_Q (a / b)
  | Infinite s, Finite b => Infinite (xorb s (is_negative b))
  | Finite _, Infinite _ => Finite 0
  | _, _ => NaN
  end.

(** [x > y] *)
Definition gt (x y : t) : bool :=
  match x, y with
  | Finite a, Finite b => negb (Qle_bool a b)
  | Infinite s, Finite _ => negb s
  | Finite _, Infinite s => s
  | Infinite s, Infinite s' => negb s && s'
  | _, _ => false
  end.

End Float64.

(** The operations of Python on an int and a float, and the budget fit of
    the fallback synthesizer, which is computed with them. *)
Module Binary64.

(** A float literal. *)
Definition float_lit (q : Q) : Float64.t := Float64.of_Q q.

(** [float(n)], as done on the int operand of [n * x] and [x / n]:
    [OverflowError] for an int too large for a float. *)
Definition float_of_int (n : Z) : M Float64.t :=
  match Float64.of_Q (inject_Z n) with
  | Float64.Finite q => ret (Float64.Finite q)
  | _ => raise OverflowError
  end.

(** [n * x] for an int and a float *)
Definition int_mul_float (n : Z) (x : Float64.t) : M Float64.t :=
  fn <- float_of_int n ;; ret (Float64.mul fn x).

(** [x / n] for a float and an int *)
Definition float_div_int (x : Float64.t) (n : Z) : M Float64.t :=
  fn <- float_of_int n ;;
  match fn with
  | Float64.Finite q =>
      if Qeq_bool q 0 then raise ZeroDivisionError else ret (Float64.div x fn)
  | _ => ret (Float64.div x fn)
  end.

(** [n > x] for an int and a float: the two are compared exactly. *)
Definition int_gt_float (n : Z) (x : Float64.t) : bool :=
  match x with
  | Float64.Finite q => negb (Qle_bool (inject_Z n) q)
  | Float64.Infinite s => s
  | Float64.NaN => false
  end.

(** Truncation toward zero. *)
Definition trunc (q : Q) : Z := Z.quot (Qnum q) (Zpos (Qden q)).

(** [int(x)] on a float *)
Definition py_int (x : Float64.t) : M Z :=
  match x with
  | Float64.Finite q => ret (trunc q)
  | Float64.Infinite _ => raise OverflowError
  | Float64.NaN => raise ValueError
  end.

(** The budget fit: [(flight_price, hotel_price_per_night, total_cost)]
    after the [if total_cost > budget * 0.9] block. *)
Definition fit_budget (budget num_days flight_price hotel_price_per_night : Z)
  : M (Z * Z * Z) :=
  let total_cost := flight_price + hotel_price_per_night * num_days in
  cap <- int_mul_float budget (float_lit (9 # 10)) ;;
  if int_gt_float total_cost cap
  then
    cap <- int_mul_float budget (float_lit (9 # 10)) ;;
    scale <- float_div_int cap total_cost ;;
    scaled <- int_mul_float flight_price scale ;;
    flight_price <- py_int scaled ;;
    scaled <- int_mul_float hotel_price_per_night scale ;;
    hotel_price_per_night <- py_int scaled ;;
    let total_cost := flight_price + hotel_price_per_night * num_days in
    ret (flight_price, hotel_price_per_night, total_cost)
  else ret (flight_price, hotel_price_per_night, total_cost).

End Binary64.

(** *** The [random] module *)

Definition next_random : M N :=
  fun w =>
    (Ok (mt_stream w (mt_pos w)),
     {| mt_stream := mt_stream w; mt_pos := S (mt_pos w);
        urandom := urandom w; urandom_pos := urandom_pos w; today := today w |}).

(** [random.randint(a, b)]: uniform on [a..b], [ValueError] on an empty range. *)
Definition randint (a b : Z) : M Z :=
  if b <? a then raise ValueError
  else r <- next_random ;; ret (a + Z.of_N r mod (b - a + 1)).

(** [random.choice(seq)]: [IndexError] on an empty sequence. *)
Definition choice {A : Type} (l : list A) : M A :=
  match l with
  | [] => raise IndexError
  | x :: _ => r <- next_random ;; ret (nth (N.to_nat r mod List.length l)%nat l x)
  end.

(** [random.random()]: a multiple of 2^-53 in [0, 1). *)
Definition random : M Q :=
  r <- next_random ;; ret (Z.of_N (r mod 2 ^ 53) # 2 ^ 53).

(** [random.uniform(a, b)], that is [a + (b - a) * random()], for floats
    [a] and [b]: the difference, the product and the sum are each rounded.
    ([Float64.round] has no upper limit on the exponent; with the operands
    3.5 and 5.0 of the one call no result comes near it.) *)
Definition uniform (a b : Q) : M Q :=
  u <- random ;;
  ret (Float64.round (a + Float64.round (Float64.round (b - a) * u))).

(** *** Numbers and strings *)

(** [round(x, 1)] on the float [q]: the tenth nearest to [q], a tie going
    to the even tenth.  Python returns the float nearest to that tenth,
    which prints as it; the itinerary keeps the tenth itself. *)
Definition round1 (q : Q) : Q :=
  let t := (q * 10)%Q in
  let f := Qfloor t in
  let r := (t - inject_Z f)%Q in
  let n := match (r ?= 1 # 2)%Q with
           | Lt => f
           | Gt => f + 1
           | Eq => if Z.even f then f else f + 1
           end in
  (inject_Z n / 10)%Q.

(** [str(n)] and the [{n}] of an f-string. *)
Definition str (n : Z) : string := NilEmpty.string_of_int (Z.to_int n).

Definition lower_ascii (c : ascii) : ascii :=
  let n := nat_of_ascii c in
  if (65 <=? n)%nat && (n <=? 90)%nat then ascii_of_nat (n + 32) else c.

(** [s.lower()] *)
Fixpoint lower (s : string) : string :=
  match s with
  | EmptyString => EmptyString
  | String c s' => String (lower_ascii c) (lower s')
  end.

(** [sep.join(l)] *)
Definition join (sep : string) (l : list string) : string := String.concat sep l.

(** [sub in s] on strings *)
Definition contains (sub s : string) : bool :=
  match index 0 sub s with Some _ => true | None => false end.

(** [x in l] on a list of strings *)
Definition in_list (x : string) (l : list string) : bool :=
  existsb (String.eqb x) l.

(** *** Dictionaries *)

Class Key (K : Type) : Type := {
  key_eqb : K -> K -> bool;
  key_eqb_eq : forall a b, key_eqb a b = true <-> a = b
}.

#[export] Instance string_Key : Key string :=
  {| key_eqb := String.eqb; key_eqb_eq := String.eqb_eq |}.

#[export] Instance Z_Key : Key Z :=
  {| key_eqb := Z.eqb; key_eqb_eq := Z.eqb_eq |}.

Definition dict (K V : Type) : Type := list (K * V).

Section Dict.
Context {K V : Type} `{Key K}.

(** [d.get(k)] *)
Fixpoint dict_get (k : K) (d : dict K V) : option V :=
  match d with
  | [] => None
  | (k', v) :: d' => if key_eqb k k' then Some v else dict_get k d'
  end.

(** [k in d] *)
Definition dict_mem (k : K) (d : dict K V) : bool :=
  match dict_get k d with Some _ => true | None => false end.

(** [d[k]] *)
Definition getitem (d : dict K V) (k : K) : M V :=
  match dict_get k d with
  | Some v => ret v
  | None => raise KeyError
  end.

(** [d[k] = v]: a known key keeps its place, a new one goes last. *)
Fixpoint dict_set (k : K) (v : V) (d : dict K V) : dict K V :=
  match d with
  | [] => [(k, v)]
  | (k', v') :: d' =>
      if key_eqb k k' then (k', v) :: d' else (k', v') :: dict_set k v d'
  end.

(** [list(d.keys())] *)
Definition dict_keys (d : dict K V) : list K := map fst d.
End Dict.

(** *** Dates *)

(** A date is written as its ordinal. *)
Abbreviation date := Z (only parsing).

(** [date.max.toordinal()], the ordinal of 9999-12-31 *)
Definition MAXORDINAL : Z := 3652059.

(** [d + timedelta(days=n)]: [OverflowError] outside year 1..9999. *)
Definition add_days (d : date) (n : Z) : M date :=
  if (1 <=? d + n) && (d + n <=? MAXORDINAL) then ret (d + n)
  else raise OverflowError.

(* ================================================================= *)
(** ** The weather and risk oracle *)

Record day_forecast : Type := {
  condition : string;
  high : Z;
  low : Z;
  recommendations : list string
}.

Definition weather_conditions : list string :=
  ["Sunny"; "Partly Cloudy"; "Cloudy"; "Rainy"; "Stormy"].

Definition temperatures : dict string (Z * Z) :=
  [("Sunny", (75, 95));
   ("Partly Cloudy", (70, 85));
   ("Cloudy", (65, 80));
   ("Rainy", (60, 75));
   ("Stormy", (55, 70))].

Definition weather_recommendations : dict string (list string) :=
  [("Sunny",
    ["Perfect day for outdoor activities";
     "Don't forget sunscreen and a hat";
     "Great day for beach or water activities"]);
   ("Partly Cloudy",
    ["Good day for outdoor activities";
     "Might want to bring a light jacket";
     "Comfortable conditions for sightseeing"]);
   ("Cloudy",
    ["Good day for outdoor activities without strong sun";
     "Might want to have indoor alternatives planned";
     "Comfortable temperatures for walking tours"]);
   ("Rainy",
    ["Plan indoor activities or bring rain gear";
     "Consider museums, galleries, or indoor markets";
     "Check if outdoor activities have rain dates"]);
   ("Stormy",
    ["Avoid outdoor activities if possible";
     "Consider rescheduling outdoor plans";
     "Have indoor backup plans ready"])].

Definition _get_weather_recommendations (condition : string) : list string :=
  match dict_get condition weather_recommendations with
  | Some r => r
  | None => ["Check local weather advisories"]
  end.

(** One round of the loop of [_get_weather_forecast]; the loop state is the
    forecast built so far and [current_date]. *)
Definition forecast_day (acc : dict date day_forecast * date) (i : Z)
  : M (dict date day_forecast * date) :=
  let '(forecast, current_date) := acc in
  condition <- choice weather_conditions ;;
  temp_range <- getitem temperatures condition ;;
  high <- randint (fst temp_range) (snd temp_range) ;;
  low <- randint (fst temp_range - 15) (snd temp_range - 10) ;;
  let forecast :=
    dict_set current_date
      {| condition := condition;
         high := high;
         low := low;
         recommendations := _get_weather_recommendations condition |}
      forecast in
  current_date <- add_days current_date 1 ;;
  ret (forecast, current_date).

(** The forecast is keyed by [strftime("%Y-%m-%d")] of the day, which is
    one-to-one on dates: the embedding keys it by the date. *)
Definition _get_weather_forecast (destination : string) (start_date : date)
    (num_days : Z) : M (dict date day_forecast) :=
  acc <- foldM forecast_day (range 0 num_days) ([], start_date) ;;
  ret (fst acc).

Definition disasters : list string :=
  ["No significant natural disasters reported";
   "Minor earthquake activity reported in the region";
   "Tropical storm warning in effect";
   "Wildfire risk elevated due to dry conditions";
   "Flood watch in effect for low-lying areas"].

Definition disaster_prone : list string :=
  ["Japan"; "Indonesia"; "Philippines"; "California"; "Florida"].

Definition _check_natural_disasters (destination : string) (start_date : date)
  : M (list string) :=
  has_disaster <-
    (if existsb (fun prone => contains prone destination) disaster_prone
     then u <- random ;; ret (negb (Qle_bool u (7 # 10)))
     else ret false) ;;
  if has_disaster : bool
  then d <- choice (tl disasters) ;; ret [d]
  else match disasters with
       | d0 :: _ => ret [d0]
       | [] => raise IndexError
       end.

(* ================================================================= *)
(** ** The fallback itinerary synthesizer *)

(** [datetime.now()] *)
Definition now : M date := fun w => (Ok (today w), w).

(** [str(uuid.uuid4())]: 128 random bits with the version and variant bits
    forced, printed as 8-4-4-4-12 lower-case hexadecimal digits. *)
Definition next_urandom : M N :=
  fun w =>
    (Ok (urandom w (urandom_pos w)),
     {| mt_stream := mt_stream w; mt_pos := mt_pos w;
        urandom := urandom w; urandom_pos := S (urandom_pos w);
        today := today w |}).

Definition hex_digit (n : N) : ascii :=
  nth (N.to_nat n) (list_ascii_of_string "0123456789abcdef") "0"%char.

Fixpoint hex_fixed (width : nat) (n : N) : string :=
  match width with
  | O => EmptyString
  | S w =>
      (hex_fixed w (n / 16) ++ String (hex_digit (n mod 16)) EmptyString)%string
  end.

Definition uuid4_str : M string :=
  r <- next_urandom ;;
  let i := (r mod 2 ^ 128)%N in
  let i := N.ldiff i (N.shiftl 0xc000 48) in
  let i := N.lor i (N.shiftl 0x8000 48) in
  let i := N.ldiff i (N.shiftl 0xf000 64) in
  let i := N.lor i (N.shiftl 4 76) in
  let h := hex_fixed 32 i in
  ret (substring 0 8 h ++ "-" ++ substring 8 4 h ++ "-" ++ substring 12 4 h
       ++ "-" ++ substring 16 4 h ++ "-" ++ substring 20 12 h)%string.

Module Activity.
Record t : Type := {
  name : string;
  description : string;
  start_time : string;
  end_time : string;
  location : string;
  cost : Z;
  source : string;
  weather_alternative : string
}.
End Activity.

Module Flight.
Record t : Type := {
  airline : string;
  price : Z;
  duration : string;
  dates : string;
  source : string
}.
End Flight.

Module Accommodation.
Record t : Type := {
  name : string;
  type : string;
  price_per_night : Z;
  total_price : Z;
  rating : Q;
  location : string;
  source : string
}.
End Accommodation.

Module Itinerary.
Record t : Type := {
  id : string;
  title : string;
  focus : string;
  description : string;
  total_cost : Z;
  weather_considerations : string;
  safety_recommendations : string;
  flight_options : list Flight.t;
  accommodation_options : list Accommodation.t;
  daily_itinerary : dict string (list Activity.t);
  unique_selling_point : string
}.

Definition set_daily_itinerary (d : dict string (list Activity.t)) (it : t)
  : t :=
  {| id := id it;
     title := title it;
     focus := focus it;
     description := description it;
     total_cost := total_cost it;
     weather_considerations := weather_considerations it;
     safety_recommendations := safety_recommendations it;
     flight_options := flight_options it;
     accommodation_options := accommodation_options it;
     daily_itinerary := d;
     unique_selling_point := unique_selling_point it |}.

(** [itinerary["daily_itinerary"][k] = v] *)
Definition set_day (k : string) (v : list Activity.t) (it : t) : t :=
  set_daily_itinerary (dict_set k v (daily_itinerary it)) it.
End Itinerary.

Definition focuses : list string :=
  ["Luxury"; "Budget"; "Adventure"; "Cultural"; "Relaxation"; "Food"].

Definition airlines : list string :=
  ["Delta"; "United"; "American"; "Southwest"; "JetBlue"].

Definition hotels : list string :=
  ["Marriott"; "Hilton"; "Hyatt"; "InterContinental"; "Holiday Inn"].

Definition activities : dict string (list string) :=
  [("Adventure", ["Zip Lining"; "Hiking"; "White Water Rafting"; "Rock Climbing"]);
   ("Cultural", ["Museum Tour"; "Historical Site"; "Local Market"; "Traditional Show"]);
   ("Relaxation", ["Spa Day"; "Beach Time"; "Yoga Session"; "Meditation"]);
   ("Food", ["Cooking Class"; "Food Tour"; "Wine Tasting"; "Local Restaurant"])].

Definition indoor_alternatives : dict string string :=
  [("Zip Lining", "Indoor rock climbing");
   ("Hiking", "Museum visit");
   ("White Water Rafting", "Indoor water park");
   ("Rock Climbing", "Indoor rock climbing gym");
   ("Beach Time", "Spa day");
   ("Yoga Session", "Indoor yoga studio");
   ("Meditation", "Wellness center visit")].

(** The weather record a day's activities are planned against:
    [weather_forecast.get(date_str, {"condition": "Sunny", ...})], of which
    only the condition is read. *)
Definition weather_condition (weather_forecast : dict date day_forecast)
    (current_date : date) : string :=
  match dict_get current_date weather_forecast with
  | Some weather => condition weather
  | None => "Sunny"
  end.

(** The body of [for j in range(2)]. *)
Definition fallback_activity (destination focus condition : string) (j : Z)
  : M Activity.t :=
  activity_type <-
    (if dict_mem focus activities then ret focus
     else choice (dict_keys activities)) ;;
  pool <- getitem activities activity_type ;;
  activity_name <- choice pool ;;
  weather_alternative <-
    (if dict_mem activity_name indoor_alternatives
        && in_list condition ["Rainy"; "Stormy"]
     then getitem indoor_alternatives activity_name
     else ret EmptyString) ;;
  cost <- randint 20 100 ;;
  ret {| Activity.name := activity_name;
         Activity.description :=
           ("Enjoy a " ++ lower activity_name ++ " experience in "
            ++ destination)%string;
         Activity.start_time := (str (9 + j * 4) ++ ":00")%string;
         Activity.end_time := (str (12 + j * 4) ++ ":00")%string;
         Activity.location := (destination ++ " City Center")%string;
         Activity.cost := cost;
         Activity.source := "Fallback data";
         Activity.weather_alternative := weather_alternative |}.

(** The body of [for day in range(1, num_days + 1)]; the loop state is the
    itinerary under construction and [current_date]. *)
Definition fallback_day (destination focus : string)
    (weather_forecast : dict date day_forecast)
    (acc : Itinerary.t * date) (day : Z) : M (Itinerary.t * date) :=
  let '(itinerary, current_date) := acc in
  let condition := weather_condition weather_forecast current_date in
  day_activities <-
    mapM (fallback_activity destination focus condition) (range 0 2) ;;
  let itinerary :=
    Itinerary.set_day ("Day " ++ str day)%string day_activities itinerary in
  current_date <- add_days current_date 1 ;;
  ret (itinerary, current_date).

(** The body of [for i in range(num_itineraries)]. *)
Definition fallback_itinerary (destination : string) (num_days : Z)
    (preferences : string) (budget : Z) (start_date : date)
    (weather_forecast : dict date day_forecast)
    (disaster_alerts : list string) (i : Z) : M Itinerary.t :=
  focus <- choice focuses ;;
  flight_price <- randint 200 600 ;;
  hotel_price_per_night <- randint 80 300 ;;
  '(flight_price, hotel_price_per_night, total_cost) <-
    Binary64.fit_budget budget num_days flight_price hotel_price_per_night ;;
  id <- uuid4_str ;;
  airline <- choice airlines ;;
  hours <- randint 2 8 ;;
  minutes <- randint 0 59 ;;
  hotel <- choice hotels ;;
  rating <- uniform (7 # 2) 5 ;;
  let itinerary :=
    {| Itinerary.id := id;
       Itinerary.title := (focus ++ " " ++ destination ++ " Experience")%string;
       Itinerary.focus := focus;
       Itinerary.description :=
         ("A " ++ str num_days ++ "-day " ++ lower focus ++ " trip to "
          ++ destination ++ " focusing on " ++ preferences)%string;
       Itinerary.total_cost := total_cost;
       Itinerary.weather_considerations :=
         "Check local weather forecast and plan accordingly. Have indoor alternatives ready.";
       Itinerary.safety_recommendations := join " " disaster_alerts;
       Itinerary.flight_options :=
         [ {| Flight.airline := airline;
              Flight.price := flight_price;
              Flight.duration :=
                (str hours ++ "h " ++ str minutes ++ "m")%string;
              Flight.dates := "Flexible dates";
              Flight.source := "Fallback data" |} ];
       Itinerary.accommodation_options :=
         [ {| Accommodation.name := (hotel ++ " " ++ destination)%string;
              Accommodation.type := "Hotel";
              Accommodation.price_per_night := hotel_price_per_night;
              Accommodation.total_price := hotel_price_per_night * num_days;
              Accommodation.rating := round1 rating;
              Accommodation.location := "City Center";
              Accommodation.source := "Fallback data" |} ];
       Itinerary.daily_itinerary := [];
       Itinerary.unique_selling_point :=
         ("Perfect for travelers seeking a " ++ lower focus
          ++ " experience")%string |} in
  acc <- foldM (fallback_day destination focus weather_forecast)
           (range 1 (num_days + 1)) (itinerary, start_date) ;;
  ret (fst acc).

Definition _generate_fallback_itineraries (destination : string)
    (num_days : Z) (preferences : string) (budget : Z)
    (num_itineraries : Z) (start_date : option date)
  : M (list Itinerary.t) :=
  start_date <- match start_date with Some d => ret d | None => now end ;;
  weather_forecast <- _get_weather_forecast destination start_date num_days ;;
  disaster_alerts <- _check_natural_disasters destination start_date ;;
  mapM (fallback_itinerary destination num_days preferences budget start_date
          weather_forecast disaster_alerts)
       (range 0 num_itineraries).

(* ================================================================= *)
(** ** A reference reading of [json.loads]

    The generator takes the decoder as a collaborator; this module is the
    decoder used to run it on concrete agent answers.  Integers are
    decoded, floats keep their lexeme, and a string is the decoded text, in
    UTF-8.  A document is read within [depth] levels of arrays and
    objects, the levels that the recursion limit of the interpreter leaves
    to the decoder at the call. *)

Module Json.

#[warnings="-register-all"]
Inductive value : Type :=
| Null
| Bool (b : bool)
| Int (z : Z)
| Float (lexeme : string)
| Str (s : string)
| Array (l : list value)
| Object (members : dict string value).

(** Why a scan stops: the text is no JSON ([JSONDecodeError]); an integer
    has more than 4300 digits ([ValueError], from [int]); the document is
    nested deeper than the levels left ([RecursionError]). *)
Inductive error : Type :=
| Malformed
| IntTooLong
| TooDeep.

Definition exn_of (e : error) : exn :=
  match e with
  | Malformed => JSONDecodeError
  | IntTooLong => ValueError
  | TooDeep => RecursionError
  end.

(** What was read at the head of a text, with the text left. *)
Inductive scanned (A : Type) : Type :=
| Found (a : A) (rest : string)
| Stop (e : error).
Arguments Found {A} a rest.
Arguments Stop {A} e.

Definition quote : ascii := "034"%char.

Definition is_ws (c : ascii) : bool :=
  Ascii.eqb c " " || Ascii.eqb c "009" || Ascii.eqb c "010" || Ascii.eqb c "013".

Definition is_digit (c : ascii) : bool :=
  Ascii.leb "0" c && Ascii.leb c "9".

Definition hex_value (c : ascii) : option Z :=
  let n := Z.of_nat (nat_of_ascii c) in
  if (48 <=? n) && (n <=? 57) then Some (n - 48)
  else if (97 <=? n) && (n <=? 102) then Some (n - 87)
  else if (65 <=? n) && (n <=? 70) then Some (n - 55)
  else None.

(** The four hex digits of a [\u] escape, and the text after them. *)
Definition hex4 (s : string) : option (Z * string) :=
  match s with
  | String h1 (String h2 (String h3 (String h4 r))) =>
      match hex_value h1, hex_value h2, hex_value h3, hex_value h4 with
      | Some a, Some b, Some c, Some d =>
          Some (((a * 16 + b) * 16 + c) * 16 + d, r)
      | _, _, _, _ => None
      end
  | _ => None
  end.

Definition chr (n : Z) : ascii := ascii_of_nat (Z.to_nat n).

(** A code point in UTF-8.  A [str] can hold a surrogate on its own; it
    then takes the three bytes of its range. *)
Definition utf8 (cp : Z) : string :=
  if cp <? 128 then String (chr cp) EmptyString
  else if cp <? 2048 then
    String (chr (192 + cp / 64)) (String (chr (128 + cp mod 64)) EmptyString)
  else if cp <? 65536 then
    String (chr (224 + cp / 4096))
      (String (chr (128 + (cp / 64) mod 64))
         (String (chr (128 + cp mod 64)) EmptyString))
  else
    String (chr (240 + cp / 262144))
      (String (chr (128 + (cp / 4096) mod 64))
         (String (chr (128 + (cp / 64) mod 64))
            (String (chr (128 + cp mod 64)) EmptyString))).

Fixpoint skip_ws (s : string) : string :=
  match s with
  | String c s' => if is_ws c then skip_ws s' else s
  | EmptyString => s
  end.

(** The longest prefix of digits, and the rest. *)
Fixpoint take_digits (s : string) : string * string :=
  match s with
  | String c s' =>
      if is_digit c
      then let '(ds, r) := take_digits s' in (String c ds, r)
      else (EmptyString, s)
  | EmptyString => (EmptyString, s)
  end.

Definition digits_value (ds : string) : Z :=
  fold_left (fun acc c => acc * 10 + (Z.of_nat (nat_of_ascii c) - 48))
            (list_ascii_of_string ds) 0.

(** The character that the escape [\c] stands for. *)
Definition escaped (c : ascii) : option ascii :=
  if Ascii.eqb c quote then Some quote
  else if Ascii.eqb c "\" then Some "\"%char
  else if Ascii.eqb c "/" then Some "/"%char
  else if Ascii.eqb c "b" then Some "008"%char
  else if Ascii.eqb c "f" then Some "012"%char
  else if Ascii.eqb c "n" then Some "010"%char
  else if Ascii.eqb c "r" then Some "013"%char
  else if Ascii.eqb c "t" then Some "009"%char
  else None.

(** The code point of a [\u] escape whose four digits gave [u]: a high
    surrogate joins the low surrogate of a [\u] escape that follows it. *)
Definition escaped_unit (u : Z) (r : string) : Z * string :=
  if (55296 <=? u) && (u <? 56320) then
    match r with
    | String "\" (String "u" r1) =>
        match hex4 r1 with
        | Some (u2, r2) =>
            if (56320 <=? u2) && (u2 <? 57344)
            then (65536 + (u - 55296) * 1024 + (u2 - 56320), r2)
            else (u, r)
        | None => (u, r)
        end
    | _ => (u, r)
    end
  else (u, r).

(** The body of a string, after its opening quote: the decoded text up to
    the closing quote, and what follows it. *)
Fixpoint scan_string (fuel : nat) (s : string) : scanned string :=
  match fuel, s with
  | S fuel, String c s' =>
      if Ascii.eqb c quote then Found EmptyString s'
      else if Ascii.eqb c "\" then
        match s' with
        | String e s'' =>
            match escaped e with
            | Some x =>
                match scan_string fuel s'' with
                | Found body r => Found (String x body) r
                | Stop err => Stop err
                end
            | None =>
                if Ascii.eqb e "u" then
                  match hex4 s'' with
                  | Some (u, r0) =>
                      let '(cp, r1) := escaped_unit u r0 in
                      match scan_string fuel r1 with
                      | Found body r => Found (utf8 cp ++ body)%string r
                      | Stop err => Stop err
                      end
                  | None => Stop Malformed
                  end
                else Stop Malformed
            end
        | EmptyString => Stop Malformed
        end
      else if (nat_of_ascii c <? 32)%nat then Stop Malformed
      else match scan_string fuel s' with
           | Found body r => Found (String c body) r
           | Stop err => Stop err
           end
  | _, _ => Stop Malformed
  end.

(** A number: an optional minus, then 0 or a digit string without a leading
    zero, then an optional fraction and an optional exponent, each taken only
    when it carries at least one digit.  An integer goes through [int],
    which refuses more than 4300 digits. *)
Definition scan_number (s : string) : option (scanned value) :=
  let '(sign, s1) :=
    match s with
    | String "-" r => ("-", r)
    | _ => (EmptyString, s)
    end in
  let int_part :=
    match s1 with
    | String c r =>
        if Ascii.eqb c "0" then Some ("0", r)
        else if is_digit c
        then let '(ds, r') := take_digits r in Some (String c ds, r')
        else None
    | EmptyString => None
    end in
  match int_part with
  | None => None
  | Some (ip, s2) =>
      let '(frac, s3) :=
        match s2 with
        | String "." r =>
            match take_digits r with
            | (EmptyString, _) => (EmptyString, s2)
            | (ds, r') => (String "." ds, r')
            end
        | _ => (EmptyString, s2)
        end in
      let '(exp, s4) :=
        match s3 with
        | String e r =>
            if Ascii.eqb e "e" || Ascii.eqb e "E" then
              let '(sg, r1) :=
                match r with
                | String "-" r' => ("-", r')
                | String "+" r' => ("+", r')
                | _ => (EmptyString, r)
                end in
              match take_digits r1 with
              | (EmptyString, _) => (EmptyString, s3)
              | (ds, r') => ((String e sg ++ ds)%string, r')
              end
            else (EmptyString, s3)
        | EmptyString => (EmptyString, s3)
        end in
      match frac, exp with
      | EmptyString, EmptyString =>
          if (4300 <? String.length ip)%nat then Some (Stop IntTooLong)
          else
            let n := digits_value ip in
            Some (Found (Int (if String.eqb sign "-" then - n else n)) s4)
      | _, _ => Some (Found (Float (sign ++ ip ++ frac ++ exp)%string) s4)
      end
  end.

Definition scan_literal (s : string) : scanned value :=
  let lit_at (lit : string) (v : value) :=
    if prefix lit s
    then Some (Found v (substring (String.length lit)
                          (String.length s - String.length lit) s))
    else None in
  match lit_at "null" Null with Some r => r | None =>
  match lit_at "true" (Bool true) with Some r => r | None =>
  match lit_at "false" (Bool false) with Some r => r | None =>
  match scan_number s with Some r => r | None =>
  match lit_at "NaN" (Float "NaN") with Some r => r | None =>
  match lit_at "Infinity" (Float "Infinity") with Some r => r | None =>
  match lit_at "-Infinity" (Float "-Infinity") with Some r => r | None =>
  Stop Malformed
  end end end end end end end.

(** One value at the head of [s]; the elements of an array after its first
    bracket; the members of an object from a key's opening quote on.  An
    array or an object takes one of the [depth] levels left. *)
Fixpoint scan_once (fuel depth : nat) (s : string) : scanned value :=
  match fuel with
  | O => Stop Malformed
  | S fuel =>
      match s with
      | String "[" r =>
          match depth with
          | O => Stop TooDeep
          | S depth =>
              match skip_ws r with
              | String "]" r' => Found (Array []) r'
              | r' =>
                  match scan_elems fuel depth r' with
                  | Found l r'' => Found (Array l) r''
                  | Stop err => Stop err
                  end
              end
          end
      | String "{" r =>
          match depth with
          | O => Stop TooDeep
          | S depth =>
              match skip_ws r with
              | String "}" r' => Found (Object []) r'
              | r' =>
                  match scan_members fuel depth r' [] with
                  | Found m r'' => Found (Object m) r''
                  | Stop err => Stop err
                  end
              end
          end
      | String c r =>
          if Ascii.eqb c quote
          then match scan_string (String.length r) r with
               | Found body r' => Found (Str body) r'
               | Stop err => Stop err
               end
          else scan_literal s
      | EmptyString => Stop Malformed
      end
  end

with scan_elems (fuel depth : nat) (s : string) : scanned (list value) :=
  match fuel with
  | O => Stop Malformed
  | S fuel =>
      match scan_once fuel depth s with
      | Found v r =>
          match skip_ws r with
          | String "]" r' => Found [v] r'
          | String "," r' =>
              match scan_elems fuel depth (skip_ws r') with
              | Found l r'' => Found (v :: l) r''
              | Stop err => Stop err
              end
          | _ => Stop Malformed
          end
      | Stop err => Stop err
      end
  end

with scan_members (fuel depth : nat) (s : string) (acc : dict string value)
  : scanned (dict string value) :=
  match fuel with
  | O => Stop Malformed
  | S fuel =>
      match s with
      | String c r =>
          if Ascii.eqb c quote then
            match scan_string (String.length r) r with
            | Found key r1 =>
                match skip_ws r1 with
                | String ":" r2 =>
                    match scan_once fuel depth (skip_ws r2) with
                    | Found v r3 =>
                        let acc := dict_set key v acc in
                        match skip_ws r3 with
                        | String "}" r4 => Found acc r4
                        | String "," r4 =>
                            scan_members fuel depth (skip_ws r4) acc
                        | _ => Stop Malformed
                        end
                    | Stop err => Stop err
                    end
                | _ => Stop Malformed
                end
            | Stop err => Stop err
            end
          else Stop Malformed
      | EmptyString => Stop Malformed
      end
  end.

(** [json.loads(s)], with [depth] levels left: one value between optional
    blanks. *)
Definition loads (depth : nat) (s : string) : result value :=
  match scan_once (2 * String.length s + 2) depth (skip_ws s) with
  | Found v r =>
      match skip_ws r with
      | EmptyString => Ok v
      | _ => Raise JSONDecodeError
      end
  | Stop err => Raise (exn_of err)
  end.

End Json.

(* ================================================================= *)
(** ** The generation entry point *)

(** [re.search(r'\[.*\]', content, re.DOTALL)]: with a greedy dot that also
    matches newlines, the match runs from the first opening bracket to the
    last closing bracket after it. *)
Fixpoint from_first (c : ascii) (s : string) : option string :=
  match s with
  | EmptyString => None
  | String x s' => if Ascii.eqb x c then Some s else from_first c s'
  end.

Fixpoint upto_last (c : ascii) (s : string) : option string :=
  match s with
  | EmptyString => None
  | String x s' =>
      match upto_last c s' with
      | Some p => Some (String x p)
      | None => if Ascii.eqb x c then Some (String x EmptyString) else None
      end
  end.

Definition search_json_array (content : string) : option string :=
  match from_first "[" content with
  | Some (String x rest) =>
      match upto_last "]" rest with
      | Some p => Some (String x p)
      | None => None
      end
  | _ => None
  end.

(** What the call hands back: the decoded agent answer as it is, or the
    itineraries of the fallback synthesizer. *)
Inductive generated : Type :=
| FromAgent (v : Json.value)
| FromFallback (l : list Itinerary.t).

(** What the prompt is built from. *)
Record prompt : Type := {
  prompt_num_itineraries : Z;
  prompt_destination : string;
  prompt_num_days : Z;
  prompt_start_date : date;
  prompt_budget : Z;
  prompt_preferences : string;
  prompt_weather_forecast : dict date day_forecast;
  prompt_disaster_alerts : list string
}.

(** What the page shows after a submit. *)
Inductive notice : Type :=
| st_error (msg : string)
| st_error_generating (e : exn)
| st_success (msg : string).

(** The number of characters of a text in UTF-8: the bytes that start
    one. *)
Fixpoint code_points (s : string) : nat :=
  match s with
  | EmptyString => 0
  | String c s' =>
      let n := nat_of_ascii c in
      if (128 <=? n)%nat && (n <? 192)%nat then code_points s'
      else S (code_points s')
  end.

(** [len(itineraries)] *)
Definition py_len (g : generated) : result Z :=
  match g with
  | FromFallback l => Ok (Z.of_nat (List.length l))
  | FromAgent (Json.Array l) => Ok (Z.of_nat (List.length l))
  | FromAgent (Json.Object m) => Ok (Z.of_nat (List.length m))
  | FromAgent (Json.Str s) => Ok (Z.of_nat (code_points s))
  | FromAgent _ => Raise TypeError
  end.

(** [return self._generate_fallback_itineraries(...)] *)
Definition return_fallback (destination : string) (num_days : Z)
    (preferences : string) (budget : Z) (num_itineraries : Z)
    (start_date : date) : M generated :=
  l <- _generate_fallback_itineraries destination num_days preferences budget
         num_itineraries (Some start_date) ;;
  ret (FromFallback l).

Section Generator.

(** The collaborators: [json.loads]; [MultiMCPTools(...).connect()] for a
    maps key; building the agent for a model key and running it once on
    the prompt, which yields [response.content] ([None] when the answer
    carries no text). *)
Variable json_loads : string -> result Json.value.
Variable mcp_connect : string -> result unit.
Variable agent_arun : string -> prompt -> result (option string).

Definition connect_mcp_servers (google_maps_key : string) : M bool :=
  try_catch is_Exception
    (_ <- lift (mcp_connect google_maps_key) ;; ret true)
    (ret false).

(** The inner [try] block: extraction and decoding of the answer. *)
Definition parse_response (content : option string) : M generated :=
  content <- match content with
             | Some c => ret c
             | None => raise TypeError
             end ;;
  match search_json_array content with
  | Some span => itineraries <- lift (json_loads span) ;;
                 ret (FromAgent itineraries)
  | None => v <- lift (json_loads content) ;; ret (FromAgent v)
  end.

(** [start_date or datetime.now()] cannot raise, so it is taken before the
    [try]; every handler then sees the resolved date, as in the source. *)
Definition generate_itineraries (destination : string) (num_days : Z)
    (preferences : string) (budget : Z) (gemini_key google_maps_key : string)
    (num_itineraries : Z) (start_date : option date) : M generated :=
  start_date <- match start_date with Some d => ret d | None => now end ;;
  let fallback : M generated :=
    return_fallback destination num_days preferences budget num_itineraries
      start_date in
  try_catch is_Exception
    (weather_forecast <-
       _get_weather_forecast destination start_date num_days ;;
     disaster_alerts <- _check_natural_disasters destination start_date ;;
     connected <- connect_mcp_servers google_maps_key ;;
     if negb connected then fallback
     else
       response <-
         lift (agent_arun gemini_key
                 {| prompt_num_itineraries := num_itineraries;
                    prompt_destination := destination;
                    prompt_num_days := num_days;
                    prompt_start_date := start_date;
                    prompt_budget := budget;
                    prompt_preferences := preferences;
                    prompt_weather_forecast := weather_forecast;
                    prompt_disaster_alerts := disaster_alerts |}) ;;
       try_catch is_JSONDecodeError (parse_response response) fallback)
    fallback.

(* --------------------------------------------------------------- *)
(** ** The submit handler of the planner page (src/main.py) *)

(** The branch under [if submitted:].  A result is the notice shown and
    the new value of [st.session_state.itineraries] when it is assigned;
    an exception outside [Exception] leaves the handler. *)
Definition on_submit (destination : string) (start_date : date)
    (num_days budget : Z) (travel_style : list string)
    (preferences gemini_key google_maps_key : string)
  : M (notice * option generated) :=
  fun w =>
    if String.eqb destination EmptyString
    then (Ok (st_error "Please enter a destination", None), w)
    else
      match generate_itineraries destination num_days
              (preferences ++ " " ++ join ", " travel_style)%string
              budget gemini_key google_maps_key 3 (Some start_date) w with
      | (Ok itineraries, w') =>
          match py_len itineraries with
          | Ok n =>
              (Ok (st_success
                     ("Generated " ++ str n ++ " itinerary options!")%string,
                   Some itineraries), w')
          | Raise e => (Ok (st_error_generating e, Some itineraries), w')
          end
      | (Raise e, w') =>
          if is_Exception e
          then (Ok (st_error_generating e, None), w')
          else (Raise e, w')
      end.

End Generator.

(* ================================================================= *)
(** * Properties *)

(** ** Reasoning about runs *)

(** [sure m P]: from every world, [m] returns, and its value satisfies [P]. *)
Definition sure {A} (m : M A) (P : A -> Prop) : Prop :=
  forall w, exists a w', m w = (Ok a, w') /\ P a.

Lemma bind_inv {A B} (m : M A) (k : A -> M B) w b w' :
  bind m k w = (Ok b, w') ->
  exists a w1, m w = (Ok a, w1) /\ k a w1 = (Ok b, w').
Proof.
  unfold bind. destruct (m w) as [[a | e] w1]; intros E.
  - exists a, w1. split; [reflexivity | exact E].
  - discriminate E.
Qed.

Lemma ret_inv {A} (a b : A) w w' : ret a w = (Ok b, w') -> b = a /\ w' = w.
Proof. unfold ret. intros E. inversion E. split; reflexivity. Qed.

Lemma raise_inv {A} e (b : A) w w' : raise e w = (Ok b, w') -> False.
Proof. unfold raise. discriminate. Qed.

Ltac inv_bind H :=
  let a := fresh "v" in
  let w := fresh "w" in
  let E := fresh "E" in
  apply bind_inv in H; destruct H as (a & w & E & H).

Ltac inv_ret H :=
  let E1 := fresh "E" in
  let E2 := fresh "E" in
  apply ret_inv in H; destruct H as (E1 & E2);
  match type of E1 with ?x = _ => first [subst x | rewrite E1 in * | idtac] end;
  match type of E2 with ?x = _ => first [subst x | rewrite E2 in * | idtac] end.

Lemma sure_ret {A} (a : A) (P : A -> Prop) : P a -> sure (ret a) P.
Proof. intros Pa w. exists a, w. split; [reflexivity | exact Pa]. Qed.

Lemma sure_bind {A B} (m : M A) (k : A -> M B) (P : A -> Prop) (Q : B -> Prop) :
  sure m P -> (forall a, P a -> sure (k a) Q) -> sure (bind m k) Q.
Proof.
  intros Hm Hk w. destruct (Hm w) as (a & w1 & E & Pa).
  destruct (Hk a Pa w1) as (b & w2 & E2 & Qb).
  exists b, w2. unfold bind. rewrite E. split; assumption.
Qed.

Lemma sure_weaken {A} (m : M A) (P Q : A -> Prop) :
  sure m P -> (forall a, P a -> Q a) -> sure m Q.
Proof.
  intros Hm HPQ w. destruct (Hm w) as (a & w1 & E & Pa).
  exists a, w1. split; [exact E | apply HPQ, Pa].
Qed.

(** A loop that builds a list: each value comes from a run of the body. *)
Lemma mapM_inv {A B} (f : A -> M B) l : forall w ys w',
  mapM f l w = (Ok ys, w') ->
  Forall2 (fun x y => exists w1 w2, f x w1 = (Ok y, w2)) l ys.
Proof.
  induction l as [| x l IH]; simpl; intros w ys w' E.
  - inv_ret E. constructor.
  - inv_bind E. inv_bind E. inv_ret E. constructor.
    + eauto.
    + eapply IH; eassumption.
Qed.

Lemma sure_mapM {A B} (f : A -> M B) (P : B -> Prop) l :
  (forall x, In x l -> sure (f x) P) ->
  sure (mapM f l) (fun ys => List.length ys = List.length l /\ Forall P ys).
Proof.
  induction l as [| x l IH]; simpl; intros Hf.
  - apply sure_ret. split; [reflexivity | constructor].
  - eapply sure_bind; [apply Hf; left; reflexivity |].
    intros y Py. eapply sure_bind; [apply IH; intros; apply Hf; right; assumption |].
    intros ys [Hlen Hall]. apply sure_ret. split.
    + simpl. rewrite Hlen. reflexivity.
    + constructor; assumption.
Qed.

(** A loop with an accumulator, under an invariant indexed by the rounds
    already done. *)
Lemma foldM_inv {A S} (f : S -> A -> M S) (I : list A -> S -> Prop) l :
  (forall pre x post s w s' w',
      l = pre ++ x :: post -> I pre s -> f s x w = (Ok s', w') ->
      I (pre ++ [x]) s') ->
  forall s0 w s' w',
    I [] s0 -> foldM f l s0 w = (Ok s', w') -> I l s'.
Proof.
  intros Hstep.
  enough (G : forall todo done s w s' w',
             l = done ++ todo -> I done s ->
             foldM f todo s w = (Ok s', w') -> I l s').
  { intros s0 w s' w' H0 E. eapply (G l []); eauto. }
  induction todo as [| x todo IH]; simpl; intros done s w s' w' El Hd E.
  - inv_ret E. rewrite El, app_nil_r. exact Hd.
  - inv_bind E. apply (IH (done ++ [x]) v w0 s' w').
    + rewrite El, <- app_assoc. reflexivity.
    + eapply Hstep; eauto.
    + exact E.
Qed.

Lemma sure_foldM {A S} (f : S -> A -> M S) (I : list A -> S -> Prop) l :
  (forall pre x post s,
      l = pre ++ x :: post -> I pre s -> sure (f s x) (I (pre ++ [x]))) ->
  forall s0, I [] s0 -> sure (foldM f l s0) (I l).
Proof.
  intros Hstep.
  enough (G : forall todo done s,
             l = done ++ todo -> I done s -> sure (foldM f todo s) (I l)).
  { intros s0 H0. apply (G l []); auto. }
  induction todo as [| x todo IH]; simpl; intros done s El Hd.
  - apply sure_ret. rewrite El, app_nil_r. exact Hd.
  - eapply sure_bind; [eapply Hstep; eauto |].
    intros s1 H1. apply (IH (done ++ [x])); [| exact H1].
    rewrite El, <- app_assoc. reflexivity.
Qed.

(** ** The [random] module *)

Lemma randint_inv a b w z w' :
  randint a b w = (Ok z, w') -> a <= z <= b.
Proof.
  unfold randint. destruct (Z.ltb_spec b a) as [Hlt | Hle]; intros E.
  - apply raise_inv in E. contradiction.
  - inv_bind E. inv_ret E.
    pose proof (Z.mod_pos_bound (Z.of_N v) (b - a + 1)). lia.
Qed.

Lemma sure_randint a b :
  a <= b -> sure (randint a b) (fun z => a <= z <= b).
Proof.
  intros Hab w. unfold randint.
  destruct (Z.ltb_spec b a) as [Hlt | Hle]; [lia |].
  eexists _, _. split; [reflexivity |].
  pose proof (Z.mod_pos_bound (Z.of_N (mt_stream w (mt_pos w))) (b - a + 1)). lia.
Qed.

Lemma choice_inv {A} (l : list A) w x w' :
  choice l w = (Ok x, w') -> In x l.
Proof.
  unfold choice. destruct l as [| y l]; intros E.
  - apply raise_inv in E. contradiction.
  - inv_bind E. inv_ret E. apply nth_In.
    apply Nat.mod_upper_bound. simpl. discriminate.
Qed.

Lemma sure_choice {A} (l : list A) :
  l <> [] -> sure (choice l) (fun x => In x l).
Proof.
  intros Hl w. destruct l as [| y l]; [contradiction |].
  eexists _, _. split; [reflexivity |].
  apply nth_In. apply Nat.mod_upper_bound. simpl. discriminate.
Qed.

(** ** Dictionaries *)

Section DictFacts.
Context {K V : Type} `{Key K}.

Lemma key_eqb_refl (k : K) : key_eqb k k = true.
Proof. apply key_eqb_eq. reflexivity. Qed.

Lemma key_eqb_neq (a b : K) : a <> b -> key_eqb a b = false.
Proof.
  intros Hab. destruct (key_eqb a b) eqn:E; [| reflexivity].
  apply key_eqb_eq in E. contradiction.
Qed.


(** A new key goes to the end. *)
Lemma dict_set_fresh (k : K) (v : V) (d : dict K V) :
  ~ In k (dict_keys d) -> dict_set k v d = d ++ [(k, v)].
Proof.
  induction d as [| [k' v'] d IH]; simpl; intros Hn; [reflexivity |].
  rewrite key_eqb_neq by (intros ->; apply Hn; left; reflexivity).
  rewrite IH; [reflexivity |]. intros Hin. apply Hn. right. exact Hin.
Qed.


End DictFacts.

(** ** Ranges and decimal numerals *)

Lemma range_length a b : List.length (range a b) = Z.to_nat (b - a).
Proof. unfold range. rewrite length_map, length_seq. reflexivity. Qed.

Lemma range_In a b x : In x (range a b) <-> a <= x < b.
Proof.
  unfold range. rewrite in_map_iff. split.
  - intros (i & <- & Hi). apply in_seq in Hi. lia.
  - intros Hx. exists (Z.to_nat (x - a)). split; [lia |].
    apply in_seq. lia.
Qed.

Lemma map_seq_split {A} (f : nat -> A) pre x post : forall s n,
  map f (seq s n) = pre ++ x :: post ->
  x = f (s + List.length pre)%nat /\
  pre = map f (seq s (List.length pre)) /\
  (List.length pre < n)%nat.
Proof.
  induction pre as [| p pre IH]; intros s n E.
  - destruct n as [| n]; simpl in E; [discriminate |].
    inversion E. rewrite Nat.add_0_r. repeat split. simpl. lia.
  - destruct n as [| n]; simpl in E; [discriminate |].
    inversion E as [[Ep E']]. destruct (IH _ _ E') as (Hx & Hpre & Hlen).
    simpl. rewrite <- Hpre. repeat split.
    + rewrite Hx. f_equal. lia.
    + lia.
Qed.

(** The round that follows a prefix of a range is known from the length of
    the prefix, and so are the rounds before it. *)
Lemma range_split a b pre x post :
  range a b = pre ++ x :: post ->
  x = a + Z.of_nat (List.length pre) /\
  pre = range a x /\
  x < b.
Proof.
  unfold range. intros E. apply map_seq_split in E.
  destruct E as (Hx & Hpre & Hlen). simpl in Hx.
  split; [exact Hx |]. split; [| lia].
  rewrite Hx. replace (Z.to_nat (a + Z.of_nat (List.length pre) - a))
    with (List.length pre) by lia.
  exact Hpre.
Qed.

Lemma range_snoc a x : a <= x -> range a x ++ [x] = range a (x + 1).
Proof.
  intros Hax. unfold range.
  replace (Z.to_nat (x + 1 - a)) with (Z.to_nat (x - a) + 1)%nat by lia.
  rewrite seq_app, map_app. simpl. do 3 f_equal. lia.
Qed.

Section DictLookup.
Context {K V : Type} `{Key K}.

Lemma dict_get_In (k : K) (d : dict K V) :
  In k (dict_keys d) -> exists v, dict_get k d = Some v /\ In v (map snd d).
Proof.
  induction d as [| [k' v'] d IH]; simpl; intros Hin; [contradiction |].
  destruct (key_eqb k k') eqn:E.
  - exists v'. split; [reflexivity | left; reflexivity].
  - destruct Hin as [-> | Hin]; [rewrite key_eqb_refl in E; discriminate |].
    destruct (IH Hin) as (v & Hv & Hinv). exists v. split; [exact Hv |].
    right. exact Hinv.
Qed.

Lemma dict_get_Some_In (k : K) (v : V) (d : dict K V) :
  dict_get k d = Some v -> In v (map snd d).
Proof.
  induction d as [| [k' v'] d IH]; simpl; intros E; [discriminate |].
  destruct (key_eqb k k').
  - inversion E. left. reflexivity.
  - right. apply IH, E.
Qed.
End DictLookup.

(** ** The weather oracle *)

(** What every forecast entry satisfies: a known condition, its canned
    advice, and each temperature inside its own interval of the band. *)
Definition forecast_entry_ok (df : day_forecast) : Prop :=
  In (condition df) weather_conditions /\
  recommendations df = _get_weather_recommendations (condition df) /\
  exists lo hi,
    dict_get (condition df) temperatures = Some (lo, hi) /\
    lo <= high df <= hi /\
    lo - 15 <= low df <= hi - 10.

Lemma getitem_inv {K V} `{Key K} (d : dict K V) k w v w' :
  getitem d k w = (Ok v, w') -> dict_get k d = Some v /\ w' = w.
Proof.
  unfold getitem. destruct (dict_get k d) as [v0 |]; intros E.
  - inv_ret E. split; reflexivity.
  - apply raise_inv in E. contradiction.
Qed.

Lemma add_days_inv d n w d' w' :
  add_days d n w = (Ok d', w') -> d' = d + n /\ 1 <= d + n <= MAXORDINAL.
Proof.
  unfold add_days.
  destruct (Z.leb_spec 1 (d + n)); destruct (Z.leb_spec (d + n) MAXORDINAL);
    simpl; intros E; try (apply raise_inv in E; contradiction).
  inv_ret E. lia.
Qed.

Lemma sure_add_days d n :
  1 <= d + n <= MAXORDINAL -> sure (add_days d n) (fun d' => d' = d + n).
Proof.
  intros Hd w. unfold add_days.
  destruct (Z.leb_spec 1 (d + n)); destruct (Z.leb_spec (d + n) MAXORDINAL);
    simpl; try lia.
  eexists _, _. split; reflexivity.
Qed.

(** The loop invariant of [_get_weather_forecast]: after the rounds [pre],
    the forecast holds one checked entry per day from [start_date] on, in
    order, and [current_date] is the next day. *)
Definition forecast_inv (start_date : date) (pre : list Z)
    (acc : dict date day_forecast * date) : Prop :=
  snd acc = start_date + Z.of_nat (List.length pre) /\
  dict_keys (fst acc) = range start_date (snd acc) /\
  Forall forecast_entry_ok (map snd (fst acc)).

Lemma forecast_day_inv start_date pre acc i w acc' w' :
  forecast_inv start_date pre acc ->
  forecast_day acc i w = (Ok acc', w') ->
  forecast_inv start_date (pre ++ [i]) acc'.
Proof.
  destruct acc as [fc cur]. intros (Hcur & Hkeys & Hok) E.
  simpl in Hcur, Hkeys, Hok. unfold forecast_day in E.
  inv_bind E. apply choice_inv in E0.
  inv_bind E. apply getitem_inv in E1. destruct E1 as [Hband ->].
  inv_bind E. apply randint_inv in E1.
  inv_bind E. apply randint_inv in E2.
  inv_bind E. apply add_days_inv in E3. destruct E3 as [-> _].
  inv_ret E.
  assert (Hfresh : ~ In cur (dict_keys fc)).
  { rewrite Hkeys. rewrite range_In. lia. }
  unfold forecast_inv. simpl. rewrite dict_set_fresh by exact Hfresh.
  rewrite length_app. simpl. split; [lia |]. split.
  - unfold dict_keys in *. rewrite map_app, Hkeys. simpl.
    apply range_snoc. lia.
  - rewrite map_app. apply Forall_app. split; [exact Hok |].
    constructor; [| constructor].
    unfold forecast_entry_ok. simpl. split; [exact E0 |].
    split; [reflexivity |]. destruct v0 as [lo hi].
    exists lo, hi. simpl in *. repeat split; try exact Hband; lia.
Qed.

Lemma forecast_shape destination start_date num_days w fc w' :
  _get_weather_forecast destination start_date num_days w = (Ok fc, w') ->
  dict_keys fc = range start_date (start_date + Z.max 0 num_days) /\
  Forall forecast_entry_ok (map snd fc).
Proof.
  unfold _get_weather_forecast. intros E. inv_bind E. inv_ret E.
  apply (foldM_inv forecast_day (forecast_inv start_date)) in E0.
  - destruct E0 as (Hcur & Hkeys & Hok). split; [| exact Hok].
    rewrite Hkeys, Hcur, range_length. f_equal. lia.
  - intros pre x post s w1 s' w1' _ HI Hrun.
    eapply forecast_day_inv; eassumption.
  - unfold forecast_inv. simpl. rewrite Z.add_0_r.
    split; [reflexivity |]. split; [| constructor].
    unfold range. rewrite Z.sub_diag. reflexivity.
Qed.

(** Every day of the trip has its entry. *)
Lemma forecast_lookup destination start_date num_days w fc w' d :
  _get_weather_forecast destination start_date num_days w = (Ok fc, w') ->
  start_date <= d < start_date + num_days ->
  exists df, dict_get d fc = Some df /\ forecast_entry_ok df.
Proof.
  intros E Hd. apply forecast_shape in E. destruct E as [Hkeys Hok].
  destruct (dict_get_In d fc) as (df & Hget & Hin).
  - rewrite Hkeys. apply range_In. lia.
  - exists df. split; [exact Hget |].
    rewrite Forall_forall in Hok. apply Hok, Hin.
Qed.

(** A stream that starts with the given draws. *)
Definition world_of (draws : list N) (today : Z) : world :=
  {| mt_stream := fun n => nth n draws 0%N;
     mt_pos := 0;
     urandom := fun _ => 0%N;
     urandom_pos := 0;
     today := today |}.

(** C10.  The oracle draws the two temperatures of a day independently:
    the high inside the band of the condition, the low between 15 below the
    band's lower end and 10 below its upper end.  So low <= high is not
    guaranteed: for every condition of the table (each band spans more than
    10 degrees) some draws give high = band low and low = band high - 10,
    a day whose low is strictly above its high. *)
Theorem oracle_low_can_exceed_high :
  forall (destination : string) (start_date : date),
    1 <= start_date < MAXORDINAL ->
    (forall num_days w fc w' d df,
        _get_weather_forecast destination start_date num_days w = (Ok fc, w') ->
        dict_get d fc = Some df ->
        exists lo hi,
          dict_get (condition df) temperatures = Some (lo, hi) /\
          lo <= high df <= hi /\ lo - 15 <= low df <= hi - 10) /\
    (forall c lo hi,
        dict_get c temperatures = Some (lo, hi) ->
        10 < hi - lo /\
        exists w w' df,
          _get_weather_forecast destination start_date 1 w
            = (Ok [(start_date, df)], w') /\
          condition df = c /\ high df = lo /\ low df = hi - 10 /\
          high df < low df).
Proof.
  intros destination start_date Hdate. split.
  - intros num_days w fc w' d df E Hget.
    apply forecast_shape in E. destruct E as [_ Hok].
    rewrite Forall_forall in Hok.
    destruct (Hok df (dict_get_Some_In _ _ _ Hget)) as (_ & _ & Hband).
    exact Hband.
  - assert (Hadd : forall w, add_days start_date 1 w = (Ok (start_date + 1), w)).
    { intros w. unfold add_days.
      destruct (Z.leb_spec 1 (start_date + 1));
        destruct (Z.leb_spec (start_date + 1) MAXORDINAL); simpl;
        try reflexivity; lia. }
    intros c lo hi Hband.
    assert (Hcases :
      (c = "Sunny" /\ lo = 75 /\ hi = 95) \/
      (c = "Partly Cloudy" /\ lo = 70 /\ hi = 85) \/
      (c = "Cloudy" /\ lo = 65 /\ hi = 80) \/
      (c = "Rainy" /\ lo = 60 /\ hi = 75) \/
      (c = "Stormy" /\ lo = 55 /\ hi = 70)).
    { unfold temperatures in Hband. simpl in Hband.
      repeat match type of Hband with
             | (if String.eqb ?a ?b then _ else _) = _ =>
                 destruct (String.eqb_spec a b) as [-> | _];
                 [inversion Hband; subst; tauto |]
             end.
      discriminate. }
    split; [lia |].
    destruct Hcases as [H | [H | [H | [H | H]]]]; destruct H as (-> & -> & ->).
    + exists (world_of [0; 0; 25]%N 0). eexists. eexists. split.
      * cbv -[add_days]. rewrite Hadd. reflexivity.
      * simpl. repeat split; lia.
    + exists (world_of [1; 0; 20]%N 0). eexists. eexists. split.
      * cbv -[add_days]. rewrite Hadd. reflexivity.
      * simpl. repeat split; lia.
    + exists (world_of [2; 0; 20]%N 0). eexists. eexists. split.
      * cbv -[add_days]. rewrite Hadd. reflexivity.
      * simpl. repeat split; lia.
    + exists (world_of [3; 0; 20]%N 0). eexists. eexists. split.
      * cbv -[add_days]. rewrite Hadd. reflexivity.
      * simpl. repeat split; lia.
    + exists (world_of [4; 0; 20]%N 0). eexists. eexists. split.
      * cbv -[add_days]. rewrite Hadd. reflexivity.
      * simpl. repeat split; lia.
Qed.

Lemma oracle_low_can_exceed_high_witness :
  1 <= 739000 < MAXORDINAL /\
  exists w w' df,
    _get_weather_forecast "Paris" 739000 1 w = (Ok [(739000, df)], w') /\
    condition df = "Sunny" /\ high df = 75 /\ low df = 95 - 10 /\
    high df < low df.
Proof.
  assert (Hd : 1 <= 739000 < MAXORDINAL) by (unfold MAXORDINAL; lia).
  split; [exact Hd |].
  apply (proj2 (oracle_low_can_exceed_high "Paris" 739000 Hd) "Sunny" 75 95).
  reflexivity.
Defined.

(** ** The fallback synthesizer: one activity, one day *)

Lemma str_inj a b : str a = str b -> a = b.
Proof.
  unfold str. intros E.
  apply (f_equal NilEmpty.int_of_string) in E.
  rewrite !NilEmpty.isi in E. inversion E as [E'].
  apply (f_equal Z.of_int) in E'. rewrite !DecimalZ.of_to in E'. exact E'.
Qed.

Definition day_label (day : Z) : string := ("Day " ++ str day)%string.

Lemma day_label_inj a b : day_label a = day_label b -> a = b.
Proof. unfold day_label. simpl. intros E. inversion E. apply str_inj. assumption. Qed.

(** What holds of the activity built for slot [j] against a day's weather
    condition. *)
Definition activity_ok (condition : string) (j : Z) (a : Activity.t) : Prop :=
  Activity.start_time a = (str (9 + j * 4) ++ ":00")%string /\
  Activity.end_time a = (str (12 + j * 4) ++ ":00")%string /\
  20 <= Activity.cost a <= 100 /\
  (exists pool, In pool (map snd activities) /\ In (Activity.name a) pool) /\
  (if dict_mem (Activity.name a) indoor_alternatives
      && in_list condition ["Rainy"; "Stormy"]
   then dict_get (Activity.name a) indoor_alternatives
        = Some (Activity.weather_alternative a)
   else Activity.weather_alternative a = EmptyString).

Lemma fallback_activity_inv destination focus condition j w a w' :
  fallback_activity destination focus condition j w = (Ok a, w') ->
  activity_ok condition j a.
Proof.
  unfold fallback_activity. intros E.
  inv_bind E. inv_bind E. apply getitem_inv in E1. destruct E1 as [Hpool ->].
  inv_bind E. apply choice_inv in E1.
  inv_bind E. inv_bind E. apply randint_inv in E3. inv_ret E.
  unfold activity_ok.
  cbn [Activity.name Activity.start_time Activity.end_time Activity.cost
       Activity.weather_alternative].
  repeat split; try lia.
  - exists v0. split; [| exact E1]. eapply dict_get_Some_In, Hpool.
  - destruct (dict_mem v1 indoor_alternatives && in_list condition ["Rainy"; "Stormy"]).
    + apply getitem_inv in E2. apply E2.
    + inv_ret E2. reflexivity.
Qed.

(** A day's plan: the two slots, in order. *)
Definition day_ok (condition : string) (acts : list Activity.t) : Prop :=
  exists a0 a1,
    acts = [a0; a1] /\ activity_ok condition 0 a0 /\ activity_ok condition 1 a1.

Lemma day_activities_inv destination focus condition w acts w' :
  mapM (fallback_activity destination focus condition) (range 0 2) w
    = (Ok acts, w') ->
  day_ok condition acts.
Proof.
  change (range 0 2) with [0; 1]. intros E. apply mapM_inv in E.
  inversion E as [| x0 a0 l0 l0' (w1 & w2 & H0) E']; subst.
  inversion E' as [| x1 a1 l1 l1' (w3 & w4 & H1) E'']; subst.
  inversion E''; subst.
  exists a0, a1. split; [reflexivity |].
  split; eapply fallback_activity_inv; eassumption.
Qed.

(** The loop invariant of the day loop: after the rounds [pre] the plan has
    one entry per round, in order, each planned against the forecast of its
    own date; the rest of the itinerary is as first built. *)
Definition days_ok (start_date : date) (weather_forecast : dict date day_forecast)
    (days : list Z) (plan : dict string (list Activity.t)) : Prop :=
  Forall2 (fun day entry =>
             fst entry = day_label day /\
             day_ok (weather_condition weather_forecast (start_date + day - 1))
                    (snd entry))
          days plan.

Definition day_loop_inv (it0 : Itinerary.t) (start_date : date)
    (weather_forecast : dict date day_forecast) (pre : list Z)
    (acc : Itinerary.t * date) : Prop :=
  snd acc = start_date + Z.of_nat (List.length pre) /\
  fst acc = Itinerary.set_daily_itinerary (Itinerary.daily_itinerary (fst acc)) it0 /\
  days_ok start_date weather_forecast pre (Itinerary.daily_itinerary (fst acc)).

Lemma days_ok_keys start_date fc days plan :
  days_ok start_date fc days plan -> dict_keys plan = map day_label days.
Proof.
  unfold days_ok, dict_keys. induction 1 as [| d e ds es [Hk _] _ IH]; simpl.
  - reflexivity.
  - rewrite Hk, IH. reflexivity.
Qed.

Lemma fallback_day_inv destination focus fc it0 start_date num_days
      pre day post acc w acc' w' :
  range 1 (num_days + 1) = pre ++ day :: post ->
  day_loop_inv it0 start_date fc pre acc ->
  fallback_day destination focus fc acc day w = (Ok acc', w') ->
  day_loop_inv it0 start_date fc (pre ++ [day]) acc'.
Proof.
  destruct acc as [it cur]. intros Hsplit (Hcur & Hit & Hdays) E.
  simpl in Hcur, Hit, Hdays.
  apply range_split in Hsplit. destruct Hsplit as (Hday & Hpre & _).
  unfold fallback_day in E. inv_bind E. apply day_activities_inv in E0.
  inv_bind E. apply add_days_inv in E1. destruct E1 as [-> _]. inv_ret E.
  assert (Hfresh : ~ In (day_label day) (dict_keys (Itinerary.daily_itinerary it))).
  { rewrite (days_ok_keys _ _ _ _ Hdays). rewrite in_map_iff.
    intros (k & Hk & Hin). apply day_label_inj in Hk. subst k.
    rewrite Hpre in Hin. apply range_In in Hin. lia. }
  unfold day_loop_inv. simpl. rewrite length_app. simpl.
  split; [lia |]. split.
  - rewrite Hit at 1. reflexivity.
  - fold (day_label day). rewrite dict_set_fresh by exact Hfresh.
    apply Forall2_app; [exact Hdays |].
    constructor; [| constructor]. simpl. split; [reflexivity |].
    replace (start_date + day - 1) with cur by lia. exact E0.
Qed.

(** ** Binary64 rounding *)

Lemma round_half_even_spec x :
  (x - (1 # 2) <= inject_Z (Float64.round_half_even x) <= x + (1 # 2))%Q.
Proof.
  unfold Float64.round_half_even.
  pose proof (Qfloor_le x) as Hlo. pose proof (Qlt_floor x) as Hhi.
  rewrite inject_Z_plus in Hhi. change (inject_Z 1) with 1%Q in Hhi.
  destruct (x - inject_Z (Qfloor x) ?= 1 # 2)%Q eqn:C.
  - apply Qeq_alt in C. destruct (Z.even (Qfloor x));
      [| rewrite inject_Z_plus; change (inject_Z 1) with 1%Q]; split; lra.
  - apply Qlt_alt in C. split; lra.
  - apply Qgt_alt in C. rewrite inject_Z_plus. change (inject_Z 1) with 1%Q.
    split; lra.
Qed.

Lemma two_power_pos z : (0 < 2 ^ z)%Q.
Proof. apply Qpower_0_lt. reflexivity. Qed.

Lemma two_power_Z z : 0 <= z -> (inject_Z (2 ^ z) == 2 ^ z)%Q.
Proof. intros Hz. rewrite Zpower_Qpower by exact Hz. reflexivity. Qed.

Lemma ilog2_spec x :
  (0 < x)%Q ->
  (2 ^ Float64.ilog2 x <= x)%Q /\ (x < 2 ^ (Float64.ilog2 x + 1))%Q.
Proof.
  intros Hx. unfold Float64.ilog2.
  destruct x as [n d]. cbn [Qnum Qden].
  assert (Hn : 0 < n) by (unfold Qlt in Hx; simpl in Hx; lia).
  set (a := Z.log2 n). set (b := Z.log2 (Zpos d)).
  destruct (Z.log2_spec n Hn) as [Ha1 Ha2]. fold a in Ha1, Ha2.
  destruct (Z.log2_spec (Zpos d) eq_refl) as [Hb1 Hb2]. fold b in Hb1, Hb2.
  assert (Ha0 : 0 <= a) by apply Z.log2_nonneg.
  assert (Hb0 : 0 <= b) by apply Z.log2_nonneg.
  assert (Hx' : (n # d == inject_Z n / inject_Z (Zpos d))%Q).
  { rewrite (Qmake_Qdiv n d). reflexivity. }
  assert (Hd : (0 < inject_Z (Zpos d))%Q) by reflexivity.
  assert (Hup : (n # d < 2 ^ (a - b + 1))%Q).
  { rewrite Hx'. apply Qlt_shift_div_r; [exact Hd |].
    replace (a - b + 1) with ((a + 1) + - b) by lia.
    rewrite Qpower_plus by discriminate. rewrite Qpower_opp.
    rewrite <- (two_power_Z (a + 1)) by lia. rewrite <- (two_power_Z b) by lia.
    apply Qlt_le_trans with (inject_Z (2 ^ (a + 1))).
    - rewrite <- Zlt_Qlt. exact Ha2.
    - assert (H2b : (0 < inject_Z (2 ^ b))%Q).
      { rewrite two_power_Z by lia. apply two_power_pos. }
      assert (Hle : (inject_Z (2 ^ b) <= inject_Z (Zpos d))%Q)
        by (rewrite <- Zle_Qle; exact Hb1).
      assert (H2a : (0 <= inject_Z (2 ^ (a + 1)))%Q).
      { rewrite two_power_Z by lia. apply Qlt_le_weak, two_power_pos. }
      setoid_replace (inject_Z (2 ^ (a + 1)))
        with (inject_Z (2 ^ (a + 1)) * / inject_Z (2 ^ b) * inject_Z (2 ^ b))%Q
        at 1 by (field; lra).
      apply Qmult_le_l with (z := (inject_Z (2 ^ (a + 1)) * / inject_Z (2 ^ b))%Q) in Hle.
      + exact Hle.
      + apply Qmult_lt_0_compat; [| apply Qinv_lt_0_compat; exact H2b].
        rewrite two_power_Z by lia. apply two_power_pos. }
  assert (Hlow : (2 ^ (a - b - 1) <= n # d)%Q).
  { rewrite Hx'. apply Qle_shift_div_l; [exact Hd |].
    replace (a - b - 1) with (a + - (b + 1)) by lia.
    rewrite Qpower_plus by discriminate. rewrite Qpower_opp.
    rewrite <- (two_power_Z a) by lia. rewrite <- (two_power_Z (b + 1)) by lia.
    apply Qle_trans with (inject_Z (2 ^ a)).
    - assert (H2b : (0 < inject_Z (2 ^ (b + 1)))%Q).
      { rewrite two_power_Z by lia. apply two_power_pos. }
      assert (Hle : (inject_Z (Zpos d) <= inject_Z (2 ^ (b + 1)))%Q)
        by (rewrite <- Zle_Qle; lia).
      assert (H2a : (0 < inject_Z (2 ^ a))%Q).
      { rewrite two_power_Z by lia. apply two_power_pos. }
      setoid_replace (inject_Z (2 ^ a))
        with (inject_Z (2 ^ a) * / inject_Z (2 ^ (b + 1)) * inject_Z (2 ^ (b + 1)))%Q
        at 2 by (field; lra).
      apply Qmult_le_l with (z := (inject_Z (2 ^ a) * / inject_Z (2 ^ (b + 1)))%Q); [| exact Hle].
      apply Qmult_lt_0_compat; [exact H2a | apply Qinv_lt_0_compat; exact H2b].
    - rewrite <- Zle_Qle. exact Ha1. }
  destruct (Qle_bool (2 ^ (a - b)) (n # d)) eqn:C.
  - apply Qle_bool_iff in C. split; assumption.
  - assert (C' : (n # d < 2 ^ (a - b))%Q).
    { apply Qnot_le_lt. intros H. apply Qle_bool_iff in H. congruence. }
    split; [exact Hlow |].
    replace (a - b - 1 + 1) with (a - b) by lia. exact C'.
Qed.
Lemma two_power_mono a b : a <= b -> (2 ^ a <= 2 ^ b)%Q.
Proof.
  intros Hab. replace b with (a + (b - a)) by lia.
  rewrite Qpower_plus by discriminate.
  assert (H1 : (1 <= 2 ^ (b - a))%Q) by (apply Qpower_1_le; [discriminate | lia]).
  pose proof (two_power_pos a) as Hp. nra.
Qed.

Lemma round_error x :
  (0 < x)%Q -> (2 ^ (-1022) <= x)%Q ->
  (x * (1 - Float64.u) <= Float64.round x <= x * (1 + Float64.u))%Q.
Proof.
  intros Hx Hnormal.
  destruct (ilog2_spec x Hx) as [Hl1 Hl2].
  set (l := Float64.ilog2 x) in *.
  assert (Hl : -1022 <= l).
  { destruct (Z_lt_le_dec l (-1022)) as [Hlt | Hge]; [| exact Hge].
    exfalso. pose proof (two_power_mono (l + 1) (-1022) ltac:(lia)) as Hm.
    apply (Qlt_irrefl x). eapply Qlt_le_trans; [exact Hl2 |].
    eapply Qle_trans; [exact Hm | exact Hnormal]. }
  unfold Float64.round.
  assert (Hne : Qeq_bool x 0 = false).
  { destruct (Qeq_bool x 0) eqn:E; [| reflexivity].
    apply Qeq_bool_eq in E. rewrite E in Hx. discriminate Hx. }
  rewrite Hne.
  assert (Habs : Qabs x = x).
  { destruct x as [[| p | p] d]; try reflexivity; discriminate Hx. }
  rewrite Habs. fold l.
  assert (Hpos : Qle_bool 0 x = true) by (apply Qle_bool_iff, Qlt_le_weak, Hx).
  rewrite Hpos.
  replace (Z.max (l - 52) (-1074)) with (l - 52) by lia.
  set (P := (2 ^ (l - 52))%Q).
  assert (HP : (0 < P)%Q) by apply two_power_pos.
  assert (HlP : (2 ^ l == P * inject_Z (2 ^ 52))%Q).
  { unfold P. rewrite two_power_Z by lia.
    rewrite <- Qpower_plus by discriminate. f_equiv. lia. }
  destruct (round_half_even_spec (x / P)) as [Hm1 Hm2].
  set (m := inject_Z (Float64.round_half_even (x / P))) in *.
  assert (Hy : (x / P * P == x)%Q) by (field; lra).
  apply (Qmult_le_compat_r _ _ P) in Hm1; [| lra].
  apply (Qmult_le_compat_r _ _ P) in Hm2; [| lra].
  unfold Float64.u.
  assert (H52 : (inject_Z (2 ^ 52) == 4503599627370496)%Q) by reflexivity.
  rewrite H52 in HlP. rewrite HlP in Hl1.
  assert (E1 : ((x / P - (1 # 2)) * P == x - P * (1 # 2))%Q)
    by (rewrite <- Hy at 2; ring).
  assert (E2 : ((x / P + (1 # 2)) * P == x + P * (1 # 2))%Q)
    by (rewrite <- Hy at 2; ring).
  rewrite E1 in Hm1. rewrite E2 in Hm2.
  set (mP := (m * P)%Q) in *.
  clearbody mP P. clear - Hx Hl1 HP Hm1 Hm2.
  split; lra.
Qed.

Local Abbreviation u64 := (1 # 9007199254740992)%Q.
Local Abbreviation tiny := (1 # 18446744073709551616)%Q.

Lemma round_bounds x :
  (tiny <= x)%Q ->
  (x * (1 - u64) <= Float64.round x <= x * (1 + u64))%Q.
Proof.
  intros Hx. apply (round_error x).
  - eapply Qlt_le_trans; [| exact Hx]. reflexivity.
  - eapply Qle_trans; [| exact Hx]. intros H. vm_compute in H. discriminate H.
Qed.

Lemma round_zero x : (x == 0)%Q -> Float64.round x = 0%Q.
Proof.
  intros Hx. unfold Float64.round. rewrite (Qeq_eq_bool _ _ Hx). reflexivity.
Qed.

Lemma mul_le a b c d :
  (0 <= a)%Q -> (0 <= c)%Q -> (a <= b)%Q -> (c <= d)%Q -> (a * c <= b * d)%Q.
Proof. intros. nra. Qed.

(** The literal 0.9 as a float. *)
Lemma c09_bounds :
  (9 # 10 <= Float64.round (9 # 10) <= (9 # 10) * (1 + u64))%Q.
Proof. split; intros H; vm_compute in H; discriminate H. Qed.

Lemma float_lit_09 :
  Binary64.float_lit (9 # 10) = Float64.Finite (Float64.round (9 # 10)).
Proof. vm_compute. reflexivity. Qed.

Lemma of_Q_Finite q r : Float64.of_Q q = Float64.Finite r -> r = Float64.round q.
Proof.
  unfold Float64.of_Q.
  destruct (Qle_bool (2 ^ 1024) (Qabs (Float64.round q))); intros E;
    inversion E. reflexivity.
Qed.

(** A rounded value below 2^1024 is a finite float. *)
Lemma of_Q_small q :
  (0 <= Float64.round q)%Q -> (Float64.round q <= 2 ^ 1023)%Q ->
  Float64.of_Q q = Float64.Finite (Float64.round q).
Proof.
  intros H0 H1. unfold Float64.of_Q.
  destruct (Qle_bool (2 ^ 1024) (Qabs (Float64.round q))) eqn:C;
    [| reflexivity].
  exfalso. apply Qle_bool_iff in C. rewrite (Qabs_pos _ H0) in C.
  assert (H : (2 ^ 1024 <= 2 ^ 1023)%Q) by (eapply Qle_trans; eassumption).
  vm_compute in H. apply H. reflexivity.
Qed.

(** ** The budget fit *)

(** The floats of the budget fit, when no conversion overflows:
    [budget * 0.9], the scale, and a scaled price. *)
Definition cap_of (budget : Z) : Q :=
  Float64.round (Float64.round (inject_Z budget) * Float64.round (9 # 10)).

Definition scale_of (budget total : Z) : Q :=
  Float64.round (cap_of budget / Float64.round (inject_Z total)).

Definition scaled_of (budget total price : Z) : Q :=
  Float64.round (Float64.round (inject_Z price) * scale_of budget total).

(** How the prices [f'], [h'] and the total [t] kept by the fit follow from
    the drawn prices [f] and [h], for a budget that is not negative. *)
Definition budget_fit64 (budget num_days f h f' h' t : Z) : Prop :=
  let total := f + h * num_days in
  t = f' + h' * num_days /\
  (((inject_Z total <= cap_of budget)%Q /\ f' = f /\ h' = h) \/
   ((cap_of budget < inject_Z total)%Q /\
    f' = Binary64.trunc (scaled_of budget total f) /\
    h' = Binary64.trunc (scaled_of budget total h))).

Lemma float_of_int_inv n w x w' :
  Binary64.float_of_int n w = (Ok x, w') ->
  x = Float64.Finite (Float64.round (inject_Z n)) /\
  Float64.of_Q (inject_Z n) = Float64.Finite (Float64.round (inject_Z n)) /\
  w' = w.
Proof.
  unfold Binary64.float_of_int.
  destruct (Float64.of_Q (inject_Z n)) as [q | s |] eqn:E; intros H;
    try (apply raise_inv in H; contradiction).
  inv_ret H. rewrite (of_Q_Finite _ _ E). auto.
Qed.

Lemma int_mul_float_inv n x w y w' :
  Binary64.int_mul_float n x w = (Ok y, w') ->
  y = Float64.mul (Float64.Finite (Float64.round (inject_Z n))) x /\
  Float64.of_Q (inject_Z n) = Float64.Finite (Float64.round (inject_Z n)) /\
  w' = w.
Proof.
  unfold Binary64.int_mul_float. intros H. inv_bind H.
  apply float_of_int_inv in E. destruct E as (-> & Hfin & ->).
  inv_ret H. auto.
Qed.

Lemma float_div_int_inv x n w y w' :
  Binary64.float_div_int x n w = (Ok y, w') ->
  y = Float64.div x (Float64.Finite (Float64.round (inject_Z n))) /\ w' = w.
Proof.
  unfold Binary64.float_div_int. intros H. inv_bind H.
  apply float_of_int_inv in E. destruct E as (-> & _ & ->).
  destruct (Qeq_bool (Float64.round (inject_Z n)) 0).
  - apply raise_inv in H. contradiction.
  - inv_ret H. auto.
Qed.

Lemma py_int64_inv x w z w' :
  Binary64.py_int x w = (Ok z, w') ->
  exists q, x = Float64.Finite q /\ z = Binary64.trunc q /\ w' = w.
Proof.
  unfold Binary64.py_int. destruct x as [q | s |]; intros H;
    try (apply raise_inv in H; contradiction).
  inv_ret H. exists q. auto.
Qed.

Lemma of_Q_finite_below q r :
  Float64.of_Q q = Float64.Finite r -> (Qabs r < 2 ^ 1024)%Q.
Proof.
  unfold Float64.of_Q.
  destruct (Qle_bool (2 ^ 1024) (Qabs (Float64.round q))) eqn:C; intros E;
    inversion E. subst r.
  apply Qnot_le_lt. intros H. apply Qle_bool_iff in H. congruence.
Qed.

Lemma of_Q_below q :
  (0 <= Float64.round q)%Q -> (Float64.round q < 2 ^ 1024)%Q ->
  Float64.of_Q q = Float64.Finite (Float64.round q).
Proof.
  intros H0 H1. unfold Float64.of_Q.
  destruct (Qle_bool (2 ^ 1024) (Qabs (Float64.round q))) eqn:C;
    [| reflexivity].
  exfalso. apply Qle_bool_iff in C. rewrite (Qabs_pos _ H0) in C.
  apply (Qlt_irrefl (2 ^ 1024)). eapply Qle_lt_trans; eassumption.
Qed.

Lemma inject_Z_ge1 z : 1 <= z -> (1 <= inject_Z z)%Q.
Proof. intros Hz. unfold Qle. simpl. lia. Qed.

Lemma inject_Z_le_const z c : z <= c -> (inject_Z z <= inject_Z c)%Q.
Proof. intros Hz. rewrite <- Zle_Qle. exact Hz. Qed.

(** [budget * 0.9] as a float, for a budget of at least 1. *)
Lemma cap_bounds_Q bq :
  (1 <= bq)%Q ->
  let cap := Float64.round (Float64.round bq * Float64.round (9 # 10)) in
  (bq * (8 # 10) <= cap)%Q /\ (cap <= bq * (9 # 10) * (1 + 4 * u64))%Q /\
  (cap <= Float64.round bq)%Q.
Proof.
  intros HbQ. cbv zeta.
  destruct c09_bounds as [Hc1 Hc2].
  assert (Hs1 : (tiny <= bq)%Q) by lra.
  destruct (round_bounds _ Hs1) as [HB1 HB2].
  assert (HBc1 : (bq * (1 - u64) * (9 # 10)
                  <= Float64.round bq * Float64.round (9 # 10))%Q)
    by (apply mul_le; lra).
  assert (HBc2 : (Float64.round bq * Float64.round (9 # 10)
                  <= bq * (1 + u64) * ((9 # 10) * (1 + u64)))%Q)
    by (apply mul_le; lra).
  assert (HBc3 : (Float64.round bq * Float64.round (9 # 10)
                  <= Float64.round bq * (99 # 100))%Q)
    by (apply mul_le; lra).
  assert (Hs2 : (tiny <= Float64.round bq * Float64.round (9 # 10))%Q) by lra.
  destruct (round_bounds _ Hs2) as [Hcap1 Hcap2].
  set (B1 := Float64.round bq) in *.
  set (Bc := (B1 * Float64.round (9 # 10))%Q) in *.
  set (cap := Float64.round Bc) in *.
  clearbody cap Bc B1. clear Hc1 Hc2 Hs1 Hs2.
  repeat split; nra.
Qed.

Lemma scaled_price_bound_Q (bq Tq pq : Q) :
  (1 <= bq)%Q -> (1 <= Tq)%Q -> (Tq <= 1095618300)%Q ->
  (1 <= pq)%Q -> (pq <= 600)%Q ->
  let cap := Float64.round (Float64.round bq * Float64.round (9 # 10)) in
  let scale := Float64.round (cap / Float64.round Tq) in
  let P := Float64.round (Float64.round pq * scale) in
  (cap < Tq)%Q ->
  (0 <= P)%Q /\ (P <= 2048)%Q /\ (0 < Float64.round Tq)%Q /\
  (0 <= scale)%Q /\ (scale <= 2)%Q /\
  (P * (10 * Tq) < 9 * pq * bq + 1)%Q /\ (P < pq + 1)%Q.
Proof.
  intros HbQ HTQ1 HTQ2 HpQ1 HpQ2. cbv zeta.
  destruct (cap_bounds_Q bq HbQ) as (Hcaplo & Hcapup & _). cbv zeta in *.
  remember (Float64.round (Float64.round bq * Float64.round (9 # 10)))
    as cap eqn:Ecap.
  remember (Float64.round (cap / Float64.round Tq)) as scale eqn:Escale.
  remember (Float64.round (Float64.round pq * scale)) as P eqn:EP.
  intros Hlt.
  assert (Hbup : (bq <= 1369522875)%Q) by lra.
  assert (Hs3 : (tiny <= Tq)%Q) by lra.
  destruct (round_bounds _ Hs3) as [HT1 HT2].
  assert (HT1pos : (0 < Float64.round Tq)%Q) by lra.
  assert (Hqlo : (1 # 4294967296 <= cap / Float64.round Tq)%Q).
  { apply Qle_shift_div_l; [exact HT1pos |]. lra. }
  assert (Hs4 : (tiny <= cap / Float64.round Tq)%Q) by lra.
  destruct (round_bounds _ Hs4) as [Hs1 Hs2].
  rewrite <- Escale in Hs1, Hs2.
  assert (Hs2' : (scale * Float64.round Tq <= cap * (1 + u64))%Q).
  { apply (Qmult_le_compat_r _ _ (Float64.round Tq)) in Hs2; [| lra].
    assert (Hq2 : (cap / Float64.round Tq * (1 + u64) * Float64.round Tq
                   == cap * (1 + u64))%Q) by (field; lra).
    rewrite Hq2 in Hs2. exact Hs2. }
  assert (Hslo : (1 # 8589934592 <= scale)%Q) by lra.
  assert (Hsup : (scale <= 2)%Q).
  { assert (H : (scale * Float64.round Tq <= 2 * Float64.round Tq)%Q) by lra.
    apply Qmult_lt_0_le_reg_r in H; assumption. }
  assert (Hs5 : (tiny <= pq)%Q) by lra.
  destruct (round_bounds _ Hs5) as [HP1 HP2].
  assert (Hprodlo : (tiny <= Float64.round pq * scale)%Q).
  { apply Qle_trans with ((1 # 2) * (1 # 8589934592))%Q.
    - intros H. vm_compute in H. discriminate H.
    - apply mul_le; lra. }
  assert (Hprodup : (Float64.round pq * scale <= 601 * 2)%Q)
    by (apply mul_le; lra).
  destruct (round_bounds _ Hprodlo) as [HPP1 HPP2].
  rewrite <- EP in HPP1, HPP2.
  assert (HPpos : (0 <= P)%Q) by lra.
  assert (Hnear : (P < pq + 1)%Q).
  { assert (Hs6 : (scale * (Tq * (1 - u64)) <= scale * Float64.round Tq)%Q)
      by (apply mul_le; lra).
    assert (Hs7 : (scale * (1 - u64) * Tq <= (1 + u64) * Tq)%Q).
    { setoid_replace (scale * (1 - u64) * Tq)%Q
        with (scale * (Tq * (1 - u64)))%Q by ring.
      eapply Qle_trans; [exact Hs6 |]. eapply Qle_trans; [exact Hs2' |].
      setoid_replace ((1 + u64) * Tq)%Q with (Tq * (1 + u64))%Q by ring.
      apply Qmult_le_compat_r; lra. }
    apply Qmult_lt_0_le_reg_r in Hs7; [| lra].
    assert (Hs8 : (scale <= 1 + 3 * u64)%Q) by lra.
    assert (Hs9 : (Float64.round pq * scale
                   <= pq * (1 + u64) * (1 + 3 * u64))%Q)
      by (apply mul_le; lra).
    lra. }
  split; [exact HPpos |]. split; [lra |]. split; [exact HT1pos |].
  split; [lra |]. split; [exact Hsup |]. split; [| exact Hnear].
  assert (HPT1 : (P * Float64.round Tq
                  <= pq * (1 + u64) * (1 + u64) * (cap * (1 + u64)))%Q).
  { apply Qle_trans
      with (Float64.round pq * (1 + u64) * (scale * Float64.round Tq))%Q.
    - apply (Qmult_le_compat_r _ _ (Float64.round Tq)) in HPP2; [| lra]. lra.
    - apply mul_le; [| | apply mul_le; lra | exact Hs2'].
      + apply Qmult_le_0_compat; lra.
      + apply Qmult_le_0_compat; lra. }
  assert (HPT : (P * Tq * (1 - u64) <= P * Float64.round Tq)%Q).
  { setoid_replace (P * Tq * (1 - u64))%Q with (P * (Tq * (1 - u64)))%Q by ring.
    apply mul_le; lra. }
  assert (Hw : (pq * bq <= 600 * 1369522875)%Q) by (apply mul_le; lra).
  assert (Hcap3 : (pq * (1 + u64) * (1 + u64) * (cap * (1 + u64))
                   <= pq * (1 + u64) * (1 + u64)
                      * (bq * (9 # 10) * (1 + 4 * u64) * (1 + u64)))%Q).
  { apply mul_le.
    - apply Qmult_le_0_compat; [apply Qmult_le_0_compat |]; lra.
    - apply Qmult_le_0_compat; lra.
    - apply Qle_refl.
    - apply mul_le; lra. }
  assert (Hfin : (P * Tq * (1 - u64)
                  <= pq * bq * ((9 # 10)
                     * ((1 + u64) * (1 + u64) * (1 + u64) * (1 + 4 * u64))))%Q).
  { eapply Qle_trans; [exact HPT |]. eapply Qle_trans; [exact HPT1 |].
    eapply Qle_trans; [exact Hcap3 |]. apply Qle_lteq. right. ring. }
  set (PT := (P * Tq)%Q) in *. set (w := (pq * bq)%Q) in *.
  setoid_replace (P * (10 * Tq))%Q with (10 * PT)%Q by (unfold PT; ring).
  setoid_replace (9 * pq * bq + 1)%Q with (9 * w + 1)%Q by (unfold w; ring).
  assert (Hw0 : (0 <= w)%Q) by (unfold w; apply Qmult_le_0_compat; lra).
  clearbody PT w. clear - Hfin Hw Hw0.
  lra.
Qed.

Lemma round_int_nonneg n : 0 <= n -> (0 <= Float64.round (inject_Z n))%Q.
Proof.
  intros Hn. destruct (Z.eq_dec n 0) as [-> | Hne].
  - rewrite round_zero; [apply Qle_refl | reflexivity].
  - assert (H1 : (1 <= inject_Z n)%Q) by (apply inject_Z_ge1; lia).
    assert (Hs : (tiny <= inject_Z n)%Q) by lra.
    destruct (round_bounds _ Hs) as [Hlo _]. nra.
Qed.

(** Rounding is monotone against the numbers that floats hold exactly. *)

Lemma round_half_even_ge k y :
  (inject_Z k <= y)%Q -> k <= Float64.round_half_even y.
Proof.
  intros Hk.
  assert (Hf : k <= Qfloor y).
  { rewrite <- (Qfloor_Z k). apply Qfloor_resp_le, Hk. }
  unfold Float64.round_half_even.
  destruct (y - inject_Z (Qfloor y) ?= 1 # 2)%Q; [| lia | lia].
  destruct (Z.even (Qfloor y)); lia.
Qed.

(** Rounding keeps a positive number at or above the power of two under
    it. *)
Lemma round_ge_power x :
  (0 < x)%Q -> -1022 <= Float64.ilog2 x ->
  Float64.round x
  = (inject_Z (Float64.round_half_even (x / 2 ^ (Float64.ilog2 x - 52)))
     * 2 ^ (Float64.ilog2 x - 52))%Q /\
  (inject_Z (2 ^ 52) <= x / 2 ^ (Float64.ilog2 x - 52))%Q.
Proof.
  intros Hx Hl.
  destruct (ilog2_spec x Hx) as [Hl1 _].
  unfold Float64.round.
  assert (Hne : Qeq_bool x 0 = false).
  { destruct (Qeq_bool x 0) eqn:E; [| reflexivity].
    apply Qeq_bool_eq in E. rewrite E in Hx. discriminate Hx. }
  rewrite Hne.
  assert (Habs : Qabs x = x).
  { destruct x as [[| p | p] d]; try reflexivity; discriminate Hx. }
  rewrite Habs.
  assert (Hpos : Qle_bool 0 x = true) by (apply Qle_bool_iff, Qlt_le_weak, Hx).
  rewrite Hpos.
  replace (Z.max (Float64.ilog2 x - 52) (-1074)) with (Float64.ilog2 x - 52)
    by lia.
  split; [reflexivity |].
  set (l := Float64.ilog2 x) in *.
  assert (HP : (0 < 2 ^ (l - 52))%Q) by apply two_power_pos.
  apply Qle_shift_div_l; [exact HP |].
  rewrite two_power_Z by lia. rewrite <- Qpower_plus by discriminate.
  replace (52 + (l - 52)) with l by lia. exact Hl1.
Qed.

Lemma ilog2_ge x k : (2 ^ k <= x)%Q -> k <= Float64.ilog2 x.
Proof.
  intros Hk.
  assert (Hx : (0 < x)%Q)
    by (eapply Qlt_le_trans; [apply two_power_pos | exact Hk]).
  destruct (ilog2_spec x Hx) as [_ Hl2].
  destruct (Z_lt_le_dec (Float64.ilog2 x) k) as [Hlt | Hge]; [| exact Hge].
  exfalso. pose proof (two_power_mono (Float64.ilog2 x + 1) k ltac:(lia)).
  apply (Qlt_irrefl x). eapply Qlt_le_trans; [exact Hl2 |].
  eapply Qle_trans; eassumption.
Qed.

(** Rounding is monotone against a power of two... *)
Lemma round_ge_pow2 k x :
  -1022 <= k -> (2 ^ k <= x)%Q -> (2 ^ k <= Float64.round x)%Q.
Proof.
  intros Hk Hx.
  assert (Hx0 : (0 < x)%Q)
    by (eapply Qlt_le_trans; [apply two_power_pos | exact Hx]).
  pose proof (ilog2_ge x k Hx) as Hl.
  destruct (round_ge_power x Hx0 ltac:(lia)) as [-> Hm].
  set (l := Float64.ilog2 x) in *.
  apply round_half_even_ge in Hm.
  assert (HP : (0 < 2 ^ (l - 52))%Q) by apply two_power_pos.
  apply Qle_trans with (inject_Z (2 ^ 52) * 2 ^ (l - 52))%Q.
  - rewrite two_power_Z by lia. rewrite <- Qpower_plus by discriminate.
    apply two_power_mono. lia.
  - apply Qmult_le_compat_r; [| apply Qlt_le_weak, HP].
    rewrite <- Zle_Qle. exact Hm.
Qed.

(** ... and against an integer that a float holds exactly. *)
Lemma round_ge_int m x :
  0 <= m <= 2 ^ 53 -> (inject_Z m <= x)%Q ->
  (inject_Z m <= Float64.round x)%Q.
Proof.
  intros Hm Hx.
  destruct (Z.eq_dec m 0) as [-> | Hne].
  { change (inject_Z 0) with 0%Q in *.
    destruct (Qeq_bool x 0) eqn:E.
    - apply Qeq_bool_eq in E. rewrite (round_zero x E). apply Qle_refl.
    - assert (Hx0 : (0 < x)%Q).
      { apply Qle_lteq in Hx. destruct Hx as [Hx | Hx]; [exact Hx |].
        apply Qeq_sym, Qeq_eq_bool in Hx. congruence. }
      destruct (Z_lt_le_dec (Float64.ilog2 x) (-1022)) as [Hsub | Hnorm].
      + unfold Float64.round. rewrite E.
        assert (Hpos : Qle_bool 0 x = true) by (apply Qle_bool_iff, Hx).
        rewrite Hpos.
        apply Qmult_le_0_compat; [| apply Qlt_le_weak, two_power_pos].
        change 0%Q with (inject_Z 0). rewrite <- Zle_Qle.
        apply round_half_even_ge.
        apply Qle_shift_div_l; [apply two_power_pos |].
        rewrite Qmult_0_l. apply Qabs_nonneg.
      + destruct (round_ge_power x Hx0 Hnorm) as [-> Hq].
        apply Qmult_le_0_compat; [| apply Qlt_le_weak, two_power_pos].
        change 0%Q with (inject_Z 0). rewrite <- Zle_Qle.
        apply round_half_even_ge.
        eapply Qle_trans; [| exact Hq]. discriminate. }
  assert (H1 : (1 <= inject_Z m)%Q) by (apply inject_Z_ge1; lia).
  assert (Hx0 : (0 < x)%Q) by lra.
  assert (Hl : 0 <= Float64.ilog2 x).
  { apply ilog2_ge. change (2 ^ 0)%Q with 1%Q. lra. }
  destruct (round_ge_power x Hx0 ltac:(lia)) as [-> Hq].
  destruct (ilog2_spec x Hx0) as [Hl1 _].
  set (l := Float64.ilog2 x) in *.
  assert (HP : (0 < 2 ^ (l - 52))%Q) by apply two_power_pos.
  destruct (Z_le_gt_dec l 52) as [Hsmall | Hlarge].
  - (* the grid is finer than the integers *)
    assert (HK : (inject_Z (m * 2 ^ (52 - l)) <= x / 2 ^ (l - 52))%Q).
    { apply Qle_shift_div_l; [exact HP |].
      rewrite inject_Z_mult, two_power_Z by lia.
      rewrite <- Qmult_assoc, <- Qpower_plus by discriminate.
      replace (52 - l + (l - 52)) with 0 by lia.
      change (2 ^ 0)%Q with 1%Q. rewrite Qmult_1_r. exact Hx. }
    apply round_half_even_ge in HK.
    apply Qle_trans
      with (inject_Z (m * 2 ^ (52 - l)) * 2 ^ (l - 52))%Q.
    + rewrite inject_Z_mult, two_power_Z by lia.
      rewrite <- Qmult_assoc, <- Qpower_plus by discriminate.
      replace (52 - l + (l - 52)) with 0 by lia.
      change (2 ^ 0)%Q with 1%Q. rewrite Qmult_1_r. apply Qle_refl.
    + apply Qmult_le_compat_r; [| apply Qlt_le_weak, HP].
      rewrite <- Zle_Qle. exact HK.
  - apply round_half_even_ge in Hq.
    apply Qle_trans with (inject_Z (2 ^ 52) * 2 ^ (l - 52))%Q.
    + rewrite two_power_Z by lia. rewrite <- Qpower_plus by discriminate.
      apply Qle_trans with (2 ^ 53)%Q.
      * rewrite <- (two_power_Z 53) by lia. rewrite <- Zle_Qle. lia.
      * apply two_power_mono. lia.
    + apply Qmult_le_compat_r; [| apply Qlt_le_weak, HP].
      rewrite <- Zle_Qle. exact Hq.
Qed.

Lemma round_nonneg x : (0 <= x)%Q -> (0 <= Float64.round x)%Q.
Proof.
  intros Hx. apply (round_ge_int 0 x); [| exact Hx].
  split; [lia | apply Z.pow_nonneg; lia].
Qed.

Lemma round_opp x : (Float64.round (- x) == - Float64.round x)%Q.
Proof.
  destruct x as [[| p | p] d]; [reflexivity | |]; unfold Float64.round.
  - change (- (Z.pos p # d))%Q with (Z.neg p # d).
    change (Qeq_bool (Z.neg p # d) 0) with false.
    change (Qeq_bool (Z.pos p # d) 0) with false.
    change (Qabs (Z.neg p # d)) with (Z.pos p # d).
    change (Qabs (Z.pos p # d)) with (Z.pos p # d).
    change (Qle_bool 0 (Z.neg p # d)) with false.
    change (Qle_bool 0 (Z.pos p # d)) with true.
    cbv iota. rewrite inject_Z_opp. ring.
  - change (- (Z.neg p # d))%Q with (Z.pos p # d).
    change (Qeq_bool (Z.neg p # d) 0) with false.
    change (Qeq_bool (Z.pos p # d) 0) with false.
    change (Qabs (Z.neg p # d)) with (Z.pos p # d).
    change (Qabs (Z.pos p # d)) with (Z.pos p # d).
    change (Qle_bool 0 (Z.neg p # d)) with false.
    change (Qle_bool 0 (Z.pos p # d)) with true.
    cbv iota. rewrite inject_Z_opp. ring.
Qed.

Lemma round_int_nonzero n :
  n <> 0 -> ~ (Float64.round (inject_Z n) == 0)%Q.
Proof.
  intros Hn Hz.
  assert (Hpos : forall k, 1 <= k -> (0 < Float64.round (inject_Z k))%Q).
  { intros k Hk.
    assert (H1 : (1 <= inject_Z k)%Q) by (apply inject_Z_ge1; exact Hk).
    pose proof (round_ge_int 1 (inject_Z k) ltac:(split; [lia | easy]) H1).
    change (inject_Z 1) with 1%Q in H. lra. }
  destruct (Z_lt_le_dec 0 n) as [Hp | Hp].
  - specialize (Hpos n ltac:(lia)). lra.
  - specialize (Hpos (- n) ltac:(lia)).
    rewrite inject_Z_opp, round_opp in Hpos. lra.
Qed.

Lemma cap_of_0 : cap_of 0 = 0%Q.
Proof. vm_compute. reflexivity. Qed.

Lemma cap_nonneg budget : 0 <= budget -> (0 <= cap_of budget)%Q.
Proof.
  intros Hb. destruct (Z.eq_dec budget 0) as [-> | Hne].
  - rewrite cap_of_0. apply Qle_refl.
  - assert (HbQ : (1 <= inject_Z budget)%Q) by (apply inject_Z_ge1; lia).
    destruct (cap_bounds_Q _ HbQ) as (Hlo & _ & _). cbv zeta in Hlo.
    fold (cap_of budget) in Hlo. lra.
Qed.

(** [budget * 0.9] is a finite float whenever [float(budget)] is. *)
Lemma cap_finite budget :
  0 <= budget ->
  Float64.of_Q (inject_Z budget)
  = Float64.Finite (Float64.round (inject_Z budget)) ->
  Float64.mul (Float64.Finite (Float64.round (inject_Z budget)))
    (Binary64.float_lit (9 # 10))
  = Float64.Finite (cap_of budget).
Proof.
  intros Hb Hfin. destruct (Z.eq_dec budget 0) as [-> | Hne].
  { vm_compute. reflexivity. }
  rewrite float_lit_09. cbn [Float64.mul].
  assert (HbQ : (1 <= inject_Z budget)%Q) by (apply inject_Z_ge1; lia).
  destruct (cap_bounds_Q _ HbQ) as (Hlo & _ & Hup). cbv zeta in Hlo, Hup.
  apply of_Q_finite_below in Hfin.
  rewrite Qabs_pos in Hfin by (apply round_int_nonneg; lia).
  apply of_Q_below.
  - eapply Qle_trans; [| exact Hlo]. nra.
  - eapply Qle_lt_trans; [exact Hup | exact Hfin].
Qed.

Lemma fit_budget64_inv budget num_days f h w f' h' t w' :
  0 <= budget ->
  Binary64.fit_budget budget num_days f h w = (Ok (f', h', t), w') ->
  budget_fit64 budget num_days f h f' h' t.
Proof.
  intros Hb E. unfold Binary64.fit_budget in E.
  apply bind_inv in E. destruct E as (cap & w1 & Hcap & E).
  apply int_mul_float_inv in Hcap. destruct Hcap as (-> & Hfin & ->).
  rewrite (cap_finite budget Hb Hfin) in E.
  cbn [Binary64.int_gt_float] in E. unfold budget_fit64. cbv zeta.
  destruct (Qle_bool (inject_Z (f + h * num_days)) (cap_of budget)) eqn:Hle;
    cbn [negb] in E.
  - apply ret_inv in E. destruct E as [E _]. inversion E; subst.
    split; [reflexivity |]. left. apply Qle_bool_iff in Hle. auto.
  - apply bind_inv in E. destruct E as (cap2 & w2 & Hcap2 & E).
    apply int_mul_float_inv in Hcap2. destruct Hcap2 as (-> & _ & ->).
    rewrite (cap_finite budget Hb Hfin) in E.
    apply bind_inv in E. destruct E as (scale & w3 & Hscale & E).
    apply float_div_int_inv in Hscale. destruct Hscale as (-> & ->).
    apply bind_inv in E. destruct E as (sf & w4 & Hsf & E).
    apply int_mul_float_inv in Hsf. destruct Hsf as (-> & _ & ->).
    apply bind_inv in E. destruct E as (f1 & w5 & Hf1 & E).
    apply py_int64_inv in Hf1. destruct Hf1 as (qf & Hqf & -> & ->).
    apply bind_inv in E. destruct E as (sh & w6 & Hsh & E).
    apply int_mul_float_inv in Hsh. destruct Hsh as (-> & _ & ->).
    apply bind_inv in E. destruct E as (h1 & w7 & Hh1 & E).
    apply py_int64_inv in Hh1. destruct Hh1 as (qh & Hqh & -> & ->).
    apply ret_inv in E. destruct E as [E _]. inversion E; subst.
    split; [reflexivity |]. right. split.
    + apply Qnot_le_lt. intros Hc. apply Qle_bool_iff in Hc. congruence.
    + cbn [Float64.div] in Hqf, Hqh.
      destruct (Float64.of_Q
                  (cap_of budget / Float64.round (inject_Z (f + h * num_days))))
        as [s | s |] eqn:Hs.
      * apply of_Q_Finite in Hs. cbn [Float64.mul] in Hqf, Hqh.
        apply of_Q_Finite in Hqf. apply of_Q_Finite in Hqh.
        unfold scaled_of, scale_of. rewrite <- Hs. subst qf qh.
        split; reflexivity.
      * cbn [Float64.mul] in Hqf.
        destruct (Qeq_bool (Float64.round (inject_Z f)) 0); discriminate Hqf.
      * cbn [Float64.mul] in Hqf. discriminate Hqf.
Qed.

Lemma trunc_floor q :
  (0 <= q)%Q -> 0 <= Binary64.trunc q /\ (inject_Z (Binary64.trunc q) <= q)%Q.
Proof.
  intros Hq.
  assert (Hf : Binary64.trunc q = Qfloor q).
  { destruct q as [n d]. unfold Binary64.trunc, Qfloor. simpl.
    apply Z.quot_div_nonneg; [| lia].
    unfold Qle in Hq. simpl in Hq. lia. }
  rewrite Hf. split; [| apply Qfloor_le].
  apply (Qfloor_resp_le 0 q) in Hq. simpl in Hq. exact Hq.
Qed.

(** A scaled and truncated price, against its exact share of 90% of the
    budget. *)
Lemma scaled_price_bound budget total price :
  1 <= budget -> 1 <= total <= 1095618300 -> 1 <= price <= 600 ->
  (cap_of budget < inject_Z total)%Q ->
  0 <= Binary64.trunc (scaled_of budget total price) /\
  Binary64.trunc (scaled_of budget total price) * (10 * total)
  <= 9 * price * budget.
Proof.
  intros Hb Ht Hp Hlt.
  destruct (scaled_price_bound_Q (inject_Z budget) (inject_Z total)
              (inject_Z price)) as (HP0 & _ & _ & _ & _ & HP & _).
  - apply inject_Z_ge1; lia.
  - apply inject_Z_ge1; lia.
  - apply (inject_Z_le_const total 1095618300); lia.
  - apply inject_Z_ge1; lia.
  - apply (inject_Z_le_const price 600); lia.
  - exact Hlt.
  - cbv zeta in HP0, HP. fold (cap_of budget) in HP0, HP.
    fold (scale_of budget total) in HP0, HP.
    fold (scaled_of budget total price) in HP0, HP.
    destruct (trunc_floor _ HP0) as [Hz0 Hz1].
    set (z := Binary64.trunc (scaled_of budget total price)) in *.
    split; [exact Hz0 |].
    assert (HT0 : (0 <= 10 * inject_Z total)%Q).
    { assert (H1 : (1 <= inject_Z total)%Q) by (apply inject_Z_ge1; lia).
      lra. }
    assert (Hq : (inject_Z z * (10 * inject_Z total)
                  < 9 * inject_Z price * inject_Z budget + 1)%Q).
    { eapply Qle_lt_trans; [| exact HP].
      apply Qmult_le_compat_r; [exact Hz1 | exact HT0]. }
    assert (Hz : (inject_Z (z * (10 * total))
                  < inject_Z (9 * price * budget + 1))%Q).
    { rewrite !inject_Z_plus, !inject_Z_mult. exact Hq. }
    rewrite <- Zlt_Qlt in Hz. lia.
Qed.

(** A scaled price is not above the drawn one. *)
Lemma scaled_price_le budget total price :
  1 <= budget -> 1 <= total <= 1095618300 -> 1 <= price <= 600 ->
  (cap_of budget < inject_Z total)%Q ->
  Binary64.trunc (scaled_of budget total price) <= price.
Proof.
  intros Hb Ht Hp Hlt.
  destruct (scaled_price_bound_Q (inject_Z budget) (inject_Z total)
              (inject_Z price)) as (HP0 & _ & _ & _ & _ & _ & HP).
  - apply inject_Z_ge1; lia.
  - apply inject_Z_ge1; lia.
  - apply (inject_Z_le_const total 1095618300); lia.
  - apply inject_Z_ge1; lia.
  - apply (inject_Z_le_const price 600); lia.
  - exact Hlt.
  - cbv zeta in HP0, HP. fold (cap_of budget) in HP0, HP.
    fold (scale_of budget total) in HP0, HP.
    fold (scaled_of budget total price) in HP0, HP.
    destruct (trunc_floor _ HP0) as [_ Hz1].
    assert (Hz : (inject_Z (Binary64.trunc (scaled_of budget total price))
                  < inject_Z (price + 1))%Q).
    { rewrite inject_Z_plus. eapply Qle_lt_trans; [exact Hz1 | exact HP]. }
    rewrite <- Zlt_Qlt in Hz. lia.
Qed.

(** With a budget of 0 everything is scaled to 0. *)
Lemma scale_of_0 total : scale_of 0 total = 0%Q.
Proof.
  unfold scale_of. rewrite cap_of_0. apply round_zero.
  unfold Qdiv. apply Qmult_0_l.
Qed.

Lemma scaled_of_0 total price : scaled_of 0 total price = 0%Q.
Proof.
  unfold scaled_of. rewrite scale_of_0. apply round_zero. apply Qmult_0_r.
Qed.

(** Without scaling the drawn total is within 90% of the budget. *)
Lemma kept_total_bound budget total :
  1 <= budget -> 1 <= total <= 1095618300 ->
  (inject_Z total <= cap_of budget)%Q -> 10 * total <= 9 * budget.
Proof.
  intros Hb Ht Hle.
  destruct (Z_le_gt_dec (10 * total) (9 * budget)) as [H | H]; [exact H |].
  exfalso.
  assert (HbQ : (1 <= inject_Z budget)%Q) by (apply inject_Z_ge1; lia).
  destruct (cap_bounds_Q _ HbQ) as (_ & Hup & _). cbv zeta in Hup.
  fold (cap_of budget) in Hup.
  assert (H1 : (inject_Z (9 * budget + 1) <= inject_Z (10 * total))%Q)
    by (rewrite <- Zle_Qle; lia).
  assert (H2 : (inject_Z total <= inject_Z 1095618300)%Q)
    by (rewrite <- Zle_Qle; lia).
  rewrite inject_Z_plus, !inject_Z_mult in H1.
  change (inject_Z 9) with 9%Q in H1. change (inject_Z 10) with 10%Q in H1.
  change (inject_Z 1) with 1%Q in H1.
  change (inject_Z 1095618300) with 1095618300%Q in H2.
  set (bq := inject_Z budget) in *. set (tq := inject_Z total) in *.
  set (cap := cap_of budget) in *. clearbody bq tq cap.
  lra.
Qed.

(** [budget * 0.9] is not below an int that 90% of the budget covers. *)
Lemma cap_covers budget total :
  0 <= total <= 1095618300 -> 10 * total <= 9 * budget ->
  (inject_Z total <= cap_of budget)%Q.
Proof.
  intros Ht Hcover. unfold cap_of.
  assert (H53 : 2 ^ 53 = 9007199254740992) by reflexivity.
  apply round_ge_int; [lia |].
  set (b := Z.min budget (2 ^ 53)).
  assert (Hb : (inject_Z b <= Float64.round (inject_Z budget))%Q).
  { apply round_ge_int; [unfold b; lia |].
    rewrite <- Zle_Qle. unfold b. lia. }
  assert (Hbt : (inject_Z total <= inject_Z b * (9 # 10))%Q).
  { assert (H : (inject_Z (10 * total) <= inject_Z (9 * b))%Q)
      by (rewrite <- Zle_Qle; unfold b; lia).
    rewrite !inject_Z_mult in H.
    change (inject_Z 10) with 10%Q in H. change (inject_Z 9) with 9%Q in H.
    lra. }
  assert (Hb0 : (0 <= inject_Z b)%Q).
  { change 0%Q with (inject_Z 0). rewrite <- Zle_Qle. unfold b. lia. }
  destruct c09_bounds as [Hc _].
  set (rb := Float64.round (inject_Z budget)) in *.
  set (c := Float64.round (9 # 10)) in *.
  clearbody rb c b. nra.
Qed.

(** On the totals of trips inside the calendar, the float [budget * 0.9]
    decides as the exact 90% of the budget does. *)
Lemma cap_decides budget total :
  0 <= budget -> 1 <= total <= 1095618300 ->
  (inject_Z total <= cap_of budget)%Q
  <-> (inject_Z total <= inject_Z budget * (9 # 10))%Q.
Proof.
  intros Hb Ht.
  assert (Hexact : (inject_Z total <= inject_Z budget * (9 # 10))%Q
                   <-> 10 * total <= 9 * budget).
  { rewrite (Zle_Qle (10 * total)), !inject_Z_mult.
    change (inject_Z 10) with 10%Q. change (inject_Z 9) with 9%Q.
    split; intros H; lra. }
  rewrite Hexact. split.
  - intros Hle. destruct (Z.eq_dec budget 0) as [-> | Hne].
    + rewrite cap_of_0 in Hle. change 0%Q with (inject_Z 0) in Hle.
      rewrite <- Zle_Qle in Hle. lia.
    + apply kept_total_bound; [lia | exact Ht | exact Hle].
  - intros Hle. apply cap_covers; [lia | exact Hle].
Qed.

Lemma budget_fit64_bound budget num_days f h f' h' t :
  0 < budget -> 0 <= num_days <= MAXORDINAL ->
  200 <= f <= 600 -> 80 <= h <= 300 ->
  budget_fit64 budget num_days f h f' h' t ->
  0 <= f' /\ 0 <= h' /\ 0 <= t /\ 10 * t <= 9 * budget.
Proof.
  intros Hb Hd Hf Hh (Ht & Hcases). unfold MAXORDINAL in Hd.
  assert (HT : 1 <= f + h * num_days <= 1095618300) by nia.
  destruct Hcases as [(Hle & -> & ->) | (Hlt & -> & ->)].
  - pose proof (kept_total_bound budget _ ltac:(lia) HT Hle). subst t.
    repeat split; lia.
  - destruct (scaled_price_bound budget (f + h * num_days) f)
      as [Hf0 Hf1]; [lia | exact HT | lia | exact Hlt |].
    destruct (scaled_price_bound budget (f + h * num_days) h)
      as [Hh0 Hh1]; [lia | exact HT | lia | exact Hlt |].
    set (F := Binary64.trunc (scaled_of budget (f + h * num_days) f)) in *.
    set (H := Binary64.trunc (scaled_of budget (f + h * num_days) h)) in *.
    set (T := f + h * num_days) in *.
    assert (Hh2 : H * (10 * T) * num_days <= 9 * h * budget * num_days)
      by (apply Z.mul_le_mono_nonneg_r; lia).
    assert (Hsum : 10 * t * T <= 9 * budget * T).
    { subst t. unfold T at 2. nia. }
    split; [exact Hf0 |]. split; [exact Hh0 |]. split; [subst t; nia |].
    apply Z.mul_le_mono_pos_r with (p := T); lia.
Qed.

(** ** The budget fit on floats returns *)

Lemma float_of_int_ok n w :
  0 <= n < 2 ^ 1023 ->
  Binary64.float_of_int n w
  = (Ok (Float64.Finite (Float64.round (inject_Z n))), w).
Proof.
  intros Hn. unfold Binary64.float_of_int.
  rewrite of_Q_below; [reflexivity | apply round_int_nonneg; lia |].
  destruct (Z.eq_dec n 0) as [-> | Hne].
  - rewrite round_zero by reflexivity. reflexivity.
  - assert (H1 : (1 <= inject_Z n)%Q) by (apply inject_Z_ge1; lia).
    assert (Hs : (tiny <= inject_Z n)%Q) by lra.
    destruct (round_bounds _ Hs) as [_ Hup].
    eapply Qle_lt_trans; [exact Hup |].
    apply Qle_lt_trans with (2 ^ 1023 * (1 + u64))%Q; [| reflexivity].
    apply Qmult_le_compat_r; [| discriminate].
    rewrite <- (two_power_Z 1023) by lia. rewrite <- Zle_Qle. lia.
Qed.

Lemma of_Q_upto q c :
  (0 <= Float64.round q)%Q -> (Float64.round q <= inject_Z c)%Q ->
  c < 2 ^ 1023 ->
  Float64.of_Q q = Float64.Finite (Float64.round q).
Proof.
  intros H0 H1 Hc. apply of_Q_below; [exact H0 |].
  eapply Qle_lt_trans; [exact H1 |].
  apply Qlt_le_trans with (inject_Z (2 ^ 1023)).
  - rewrite <- Zlt_Qlt. exact Hc.
  - rewrite two_power_Z by lia. discriminate.
Qed.

Lemma bind_ret {A B} (a : A) (k : A -> M B) w : bind (ret a) k w = k a w.
Proof. reflexivity. Qed.

Lemma bind_Ok {A B} (m : M A) (k : A -> M B) w a w1 :
  m w = (Ok a, w1) -> bind m k w = k a w1.
Proof. intros E. unfold bind. rewrite E. reflexivity. Qed.

Lemma bind_Raise {A B} (m : M A) (k : A -> M B) w e w1 :
  m w = (Raise e, w1) -> bind m k w = (Raise e, w1).
Proof. intros E. unfold bind. rewrite E. reflexivity. Qed.

(** The floats of the scaled branch, for a budget that is not negative. *)
Lemma scaled_facts budget total p :
  0 <= budget -> 1 <= total <= 1095618300 -> 1 <= p <= 600 ->
  (cap_of budget < inject_Z total)%Q ->
  (0 < Float64.round (inject_Z total))%Q /\
  (0 <= scale_of budget total)%Q /\ (scale_of budget total <= 2)%Q /\
  (0 <= scaled_of budget total p)%Q /\ (scaled_of budget total p <= 2048)%Q.
Proof.
  intros Hb Ht Hp Hlt. destruct (Z.eq_dec budget 0) as [-> | Hne].
  - rewrite scale_of_0, scaled_of_0.
    assert (H1 : (1 <= inject_Z total)%Q) by (apply inject_Z_ge1; lia).
    assert (Hs : (tiny <= inject_Z total)%Q) by lra.
    destruct (round_bounds _ Hs) as [Hlo _].
    split; [lra |]. repeat split; discriminate.
  - destruct (scaled_price_bound_Q (inject_Z budget) (inject_Z total)
                (inject_Z p)) as (HP0 & HP1 & HT0 & Hs0 & Hs1 & _ & _).
    + apply inject_Z_ge1; lia.
    + apply inject_Z_ge1; lia.
    + apply (inject_Z_le_const _ 1095618300); lia.
    + apply inject_Z_ge1; lia.
    + apply (inject_Z_le_const p 600); lia.
    + exact Hlt.
    + cbv zeta in HP0, HP1, Hs0, Hs1.
      fold (cap_of budget) in HP0, HP1, Hs0, Hs1.
      fold (scale_of budget total) in HP0, HP1, Hs0, Hs1.
      fold (scaled_of budget total p) in HP0, HP1.
      repeat split; assumption.
Qed.

(** When the fit scales, the drawn total is positive, and below the limit
    of the calendar for a day count inside it. *)
Lemma scaled_total budget num_days f h :
  0 <= budget -> num_days <= MAXORDINAL ->
  200 <= f <= 600 -> 80 <= h <= 300 ->
  (cap_of budget < inject_Z (f + h * num_days))%Q ->
  1 <= f + h * num_days <= 1095618300.
Proof.
  intros Hb Hd Hf Hh Hlt. unfold MAXORDINAL in Hd.
  assert (H0 : (0 < inject_Z (f + h * num_days))%Q)
    by (eapply Qle_lt_trans; [apply cap_nonneg, Hb | exact Hlt]).
  change 0%Q with (inject_Z 0) in H0. rewrite <- Zlt_Qlt in H0. nia.
Qed.

(** The kept prices, for a budget that is not negative: between 0 and the
    drawn prices. *)
Lemma budget_fit64_range budget num_days f h f' h' t :
  0 <= budget -> num_days <= MAXORDINAL ->
  200 <= f <= 600 -> 80 <= h <= 300 ->
  budget_fit64 budget num_days f h f' h' t ->
  0 <= f' <= f /\ 0 <= h' <= h.
Proof.
  intros Hb Hd Hf Hh (Ht & [(Hle & -> & ->) | (Hlt & -> & ->)]); [lia |].
  pose proof (scaled_total budget num_days f h Hb Hd Hf Hh Hlt) as HT.
  destruct (Z.eq_dec budget 0) as [-> | Hne].
  - rewrite !scaled_of_0. change (Binary64.trunc 0) with 0. lia.
  - pose proof (scaled_price_bound budget _ f ltac:(lia) HT ltac:(lia) Hlt)
      as [Hf0 _].
    pose proof (scaled_price_bound budget _ h ltac:(lia) HT ltac:(lia) Hlt)
      as [Hh0 _].
    pose proof (scaled_price_le budget _ f ltac:(lia) HT ltac:(lia) Hlt).
    pose proof (scaled_price_le budget _ h ltac:(lia) HT ltac:(lia) Hlt).
    lia.
Qed.

(** The kept total, for a budget and a day count that are not negative:
    between 0 and 90% of the budget. *)
Lemma budget_fit64_total budget num_days f h f' h' t :
  0 <= budget -> 0 <= num_days <= MAXORDINAL ->
  200 <= f <= 600 -> 80 <= h <= 300 ->
  budget_fit64 budget num_days f h f' h' t ->
  0 <= t /\ 10 * t <= 9 * budget.
Proof.
  intros Hb Hd Hf Hh Hfit.
  destruct (Z.eq_dec budget 0) as [-> | Hne].
  - destruct Hfit as (Ht & [(Hle & -> & ->) | (Hlt & -> & ->)]).
    + exfalso. rewrite cap_of_0 in Hle. change 0%Q with (inject_Z 0) in Hle.
      rewrite <- Zle_Qle in Hle. nia.
    + rewrite !scaled_of_0 in Ht. change (Binary64.trunc 0) with 0 in Ht.
      lia.
  - destruct (budget_fit64_bound budget num_days f h f' h' t ltac:(lia) Hd
                Hf Hh Hfit) as (_ & _ & H0 & H1).
    split; assumption.
Qed.

(** ** The budget fit returns *)

Lemma fit_budget64_returns budget num_days f h w :
  0 <= budget < 2 ^ 1023 -> num_days <= MAXORDINAL ->
  200 <= f <= 600 -> 80 <= h <= 300 ->
  exists f' h' t,
    Binary64.fit_budget budget num_days f h w = (Ok (f', h', t), w).
Proof.
  intros Hb Hd Hf Hh.
  assert (Hbig : 1095618300 < 2 ^ 1023) by (vm_compute; reflexivity).
  assert (Hcap : forall w0,
             Binary64.int_mul_float budget (Binary64.float_lit (9 # 10)) w0
             = (Ok (Float64.Finite (cap_of budget)), w0)).
  { intros w0. unfold Binary64.int_mul_float.
    rewrite (bind_Ok _ _ _ _ _ (float_of_int_ok budget w0 ltac:(lia))).
    unfold ret. rewrite cap_finite; [reflexivity | lia |].
    pose proof (float_of_int_ok budget w0 ltac:(lia)) as E.
    unfold Binary64.float_of_int in E.
    destruct (Float64.of_Q (inject_Z budget)) as [q | s |] eqn:Eq;
      try discriminate E.
    inversion E. reflexivity. }
  unfold Binary64.fit_budget. rewrite (bind_Ok _ _ _ _ _ (Hcap w)).
  cbn [Binary64.int_gt_float].
  destruct (Qle_bool (inject_Z (f + h * num_days)) (cap_of budget)) eqn:Hle;
    cbn [negb].
  - eexists _, _, _. reflexivity.
  - assert (Hlt : (cap_of budget < inject_Z (f + h * num_days))%Q).
    { apply Qnot_le_lt. intros Hc. apply Qle_bool_iff in Hc. congruence. }
    pose proof (scaled_total budget num_days f h ltac:(lia) Hd Hf Hh Hlt)
      as HT.
    rewrite (bind_Ok _ _ _ _ _ (Hcap w)).
    assert (Hscaled : forall p, 1 <= p <= 600 ->
      (0 < Float64.round (inject_Z (f + h * num_days)))%Q /\
      Float64.of_Q (cap_of budget
                    / Float64.round (inject_Z (f + h * num_days)))
      = Float64.Finite (scale_of budget (f + h * num_days)) /\
      Float64.of_Q (Float64.round (inject_Z p)
                    * scale_of budget (f + h * num_days))
      = Float64.Finite (scaled_of budget (f + h * num_days) p)).
    { intros p Hp.
      destruct (scaled_facts budget (f + h * num_days) p ltac:(lia) HT Hp
                  Hlt) as (HT0 & Hs0 & Hs1 & HP0 & HP1).
      split; [exact HT0 |]. split.
      + apply (of_Q_upto _ 2); [exact Hs0 | exact Hs1 |].
        vm_compute; reflexivity.
      + apply (of_Q_upto _ 2048); [exact HP0 | exact HP1 |].
        vm_compute; reflexivity. }
    destruct (Hscaled f ltac:(lia)) as (HT0 & Hscale & HF).
    destruct (Hscaled h ltac:(lia)) as (_ & _ & HH).
    assert (Hdiv : Binary64.float_div_int (Float64.Finite (cap_of budget))
                     (f + h * num_days) w
                   = (Ok (Float64.Finite
                            (scale_of budget (f + h * num_days))), w)).
    { unfold Binary64.float_div_int.
      rewrite (bind_Ok _ _ _ _ _
                 (float_of_int_ok (f + h * num_days) w ltac:(lia))).
      destruct (Qeq_bool (Float64.round (inject_Z (f + h * num_days))) 0)
        eqn:Hz.
      - apply Qeq_bool_eq in Hz. rewrite Hz in HT0. discriminate HT0.
      - unfold ret. cbn [Float64.div]. rewrite Hscale. reflexivity. }
    rewrite (bind_Ok _ _ _ _ _ Hdiv).
    assert (Hmul : forall p, 1 <= p <= 600 ->
      Float64.of_Q (Float64.round (inject_Z p)
                    * scale_of budget (f + h * num_days))
      = Float64.Finite (scaled_of budget (f + h * num_days) p) ->
      Binary64.int_mul_float p
        (Float64.Finite (scale_of budget (f + h * num_days))) w
      = (Ok (Float64.Finite (scaled_of budget (f + h * num_days) p)), w)).
    { intros p Hp HP. unfold Binary64.int_mul_float.
      rewrite (bind_Ok _ _ _ _ _ (float_of_int_ok p w ltac:(lia))).
      unfold ret. cbn [Float64.mul]. rewrite HP. reflexivity. }
    rewrite (bind_Ok _ _ _ _ _ (Hmul f ltac:(lia) HF)).
    cbn [Binary64.py_int]. rewrite bind_ret.
    rewrite (bind_Ok _ _ _ _ _ (Hmul h ltac:(lia) HH)).
    cbn [Binary64.py_int]. rewrite bind_ret.
    eexists _, _, _. reflexivity.
Qed.

(** The fit reads no draw and keeps the world; its total is the one of the
    prices it keeps. *)
Lemma fit_budget_world budget num_days f h w w0 :
  snd (Binary64.fit_budget budget num_days f h w) = w /\
  fst (Binary64.fit_budget budget num_days f h w)
  = fst (Binary64.fit_budget budget num_days f h w0).
Proof.
  unfold Binary64.fit_budget, Binary64.int_mul_float, Binary64.float_div_int,
    Binary64.float_of_int, Binary64.py_int, bind, ret, raise.
  repeat match goal with
         | |- context [match ?x with _ => _ end] =>
             match x with
             | context [w] => fail 1
             | context [w0] => fail 1
             | _ => destruct x
             end
         end; split; reflexivity.
Qed.

Lemma fit_budget_total budget num_days f h w f' h' t w' :
  Binary64.fit_budget budget num_days f h w = (Ok (f', h', t), w') ->
  t = f' + h' * num_days /\ w' = w.
Proof.
  intros E.
  pose proof (proj1 (fit_budget_world budget num_days f h w w)) as Hw.
  rewrite E in Hw. cbn [snd] in Hw. split; [| exact Hw].
  unfold Binary64.fit_budget in E.
  apply bind_inv in E. destruct E as (cap & w1 & _ & E).
  destruct (Binary64.int_gt_float (f + h * num_days) cap).
  - do 6 (apply bind_inv in E; destruct E as (? & ? & _ & E)).
    apply ret_inv in E. destruct E as [E _]. inversion E. reflexivity.
  - apply ret_inv in E. destruct E as [E _]. inversion E. reflexivity.
Qed.

(** How the prices [f'], [h'] and the total [t] kept in an itinerary follow
    from the drawn prices [f] and [h]: as the budget fit computes them. *)
Definition budget_fit (budget num_days f h f' h' t : Z) : Prop :=
  exists w,
    Binary64.fit_budget budget num_days f h w = (Ok (f', h', t), w).

Lemma fit_budget_inv budget num_days f h w f' h' t w' :
  Binary64.fit_budget budget num_days f h w = (Ok (f', h', t), w') ->
  budget_fit budget num_days f h f' h' t.
Proof.
  intros E. destruct (fit_budget_total _ _ _ _ _ _ _ _ _ E) as [_ ->].
  exists w. exact E.
Qed.

Lemma budget_fit_total budget num_days f h f' h' t :
  budget_fit budget num_days f h f' h' t -> t = f' + h' * num_days.
Proof. intros (w & E). eapply fit_budget_total, E. Qed.

Lemma budget_fit_64 budget num_days f h f' h' t :
  0 <= budget -> budget_fit budget num_days f h f' h' t ->
  budget_fit64 budget num_days f h f' h' t.
Proof. intros Hb (w & E). eapply fit_budget64_inv; eassumption. Qed.

(** A forecast that was computed for one day or more lies in the calendar,
    and so does the day count. *)
Lemma forecast_within_calendar destination start_date num_days w fc w' :
  _get_weather_forecast destination start_date num_days w = (Ok fc, w') ->
  1 <= num_days ->
  0 <= start_date /\ start_date + num_days <= MAXORDINAL.
Proof.
  unfold _get_weather_forecast. intros E Hn. inv_bind E. inv_ret E.
  apply (foldM_inv forecast_day
           (fun pre acc =>
              snd acc = start_date + Z.of_nat (List.length pre) /\
              (pre <> [] -> 0 <= start_date /\ snd acc <= MAXORDINAL)))
    in E0.
  - destruct E0 as (Hcur & Hin). rewrite range_length in Hcur.
    destruct Hin as [H0 H1].
    + unfold range. replace (Z.to_nat (num_days - 0)) with (S (Z.to_nat (num_days - 1))) by lia.
      discriminate.
    + split; [exact H0 |]. rewrite Hcur in H1. lia.
  - intros pre x post [fc0 cur] w1 [fc1 cur1] w1' _ (Hcur & Hpre) Hrun.
    cbn [snd] in *. unfold forecast_day in Hrun.
    inv_bind Hrun. inv_bind Hrun. inv_bind Hrun. inv_bind Hrun.
    inv_bind Hrun.
    match goal with
    | H : add_days _ _ _ = _ |- _ =>
        apply add_days_inv in H; destruct H as [-> Hd]
    end.
    inv_ret Hrun. rewrite length_app. cbn [List.length snd].
    match goal with H : (fc1, cur1) = _ |- _ => inversion H; subst cur1 end.
    split; [lia |]. intros _.
    destruct pre as [| p pre]; [cbn [List.length] in Hcur; lia |].
    destruct Hpre as [Hs0 _]; [discriminate | lia].
  - cbn [snd List.length]. split; [lia | intros H; contradiction].
Qed.

(** ** The fallback synthesizer: one itinerary, the whole list *)

(** What holds of an itinerary built against the forecast and the alerts of
    its call. *)
Definition itinerary_ok (num_days budget : Z) (start_date : date)
    (weather_forecast : dict date day_forecast) (disaster_alerts : list string)
    (it : Itinerary.t) : Prop :=
  Itinerary.safety_recommendations it = join " " disaster_alerts /\
  (exists fl acc f h,
      Itinerary.flight_options it = [fl] /\
      Itinerary.accommodation_options it = [acc] /\
      200 <= f <= 600 /\ 80 <= h <= 300 /\
      budget_fit budget num_days f h (Flight.price fl)
        (Accommodation.price_per_night acc) (Itinerary.total_cost it) /\
      Accommodation.total_price acc
        = Accommodation.price_per_night acc * num_days) /\
  days_ok start_date weather_forecast (range 1 (num_days + 1))
    (Itinerary.daily_itinerary it).

Lemma fallback_itinerary_inv destination num_days preferences budget
      start_date fc alerts i w it w' :
  fallback_itinerary destination num_days preferences budget start_date fc
    alerts i w = (Ok it, w') ->
  itinerary_ok num_days budget start_date fc alerts it.
Proof.
  unfold fallback_itinerary. intros E.
  inv_bind E. inv_bind E. apply randint_inv in E1.
  inv_bind E. apply randint_inv in E2.
  inv_bind E. destruct v2 as [[f' h'] t]. apply fit_budget_inv in E3.
  do 6 inv_bind E. inv_bind E. inv_ret E.
  match type of E10 with
  | foldM _ _ (?it0, _) _ = _ =>
      apply (foldM_inv _ (day_loop_inv it0 start_date fc)) in E10
  end.
  - destruct E10 as (_ & Hit & Hdays). unfold itinerary_ok.
    rewrite Hit. cbn [Itinerary.set_daily_itinerary
      Itinerary.safety_recommendations Itinerary.flight_options
      Itinerary.accommodation_options Itinerary.total_cost
      Itinerary.daily_itinerary].
    split; [reflexivity |]. split; [| exact Hdays].
    eexists _, _, v0, v1. split; [reflexivity |]. split; [reflexivity |].
    split; [exact E1 |]. split; [exact E2 |].
    split; [exact E3 | reflexivity].
  - intros pre x post s wa s' wb Hsplit HI Hrun.
    eapply fallback_day_inv; eassumption.
  - unfold day_loop_inv. simpl. split; [lia |].
    split; [reflexivity | constructor].
Qed.

(** All itineraries of one call are built against the one forecast and the
    one alert list computed when the call starts. *)
Lemma fallback_inv destination num_days preferences budget num_itineraries
      start_date w l w' :
  _generate_fallback_itineraries destination num_days preferences budget
    num_itineraries start_date w = (Ok l, w') ->
  exists start fc w2 alerts w3,
    start = match start_date with Some d => d | None => today w end /\
    _get_weather_forecast destination start num_days w = (Ok fc, w2) /\
    _check_natural_disasters destination start w2 = (Ok alerts, w3) /\
    mapM (fallback_itinerary destination num_days preferences budget start
            fc alerts) (range 0 num_itineraries) w3 = (Ok l, w') /\
    List.length l = Z.to_nat num_itineraries /\
    Forall (itinerary_ok num_days budget start fc alerts) l.
Proof.
  unfold _generate_fallback_itineraries. intros E.
  inv_bind E. inv_bind E. inv_bind E.
  assert (Hstart : v = match start_date with Some d => d | None => today w end
                   /\ w0 = w).
  { destruct start_date as [d |].
    - inv_ret E0. split; reflexivity.
    - unfold now in E0. inversion E0. split; reflexivity. }
  destruct Hstart as [Hv Hw]. subst w0.
  exists v, v0, w1, v1, w2.
  split; [exact Hv |].
  split; [exact E1 |]. split; [exact E2 |]. split; [exact E |].
  apply mapM_inv in E. split.
  - apply Forall2_length in E. rewrite <- E, range_length. f_equal. lia.
  - clear - E. induction E as [| x it xs its (wa & wb & Hrun) _ IH];
      constructor; [| exact IH].
    eapply fallback_itinerary_inv, Hrun.
Qed.

(** ** A sample run, used to instantiate the theorems below *)

Definition sample_world : world :=
  {| mt_stream := fun n => N.of_nat (7 * n + 3);
     mt_pos := 0;
     urandom := fun n => (N.of_nat n * 1234567891234567 + 987654321987654321)%N;
     urandom_pos := 0;
     today := 739000 |}.

Definition sample_run : result (list Itinerary.t) * world :=
  _generate_fallback_itineraries "Paris" 3 "museums" 1500 3 (Some 739000)
    sample_world.

Definition sample_itineraries : list Itinerary.t :=
  match fst sample_run with Ok l => l | Raise _ => [] end.

Lemma sample_run_ok :
  _generate_fallback_itineraries "Paris" 3 "museums" 1500 3 (Some 739000)
    sample_world = (Ok sample_itineraries, snd sample_run).
Proof. vm_compute. reflexivity. Qed.

Lemma sample_itineraries_length : List.length sample_itineraries = 3%nat.
Proof. vm_compute. reflexivity. Qed.

(** ** Claims on the fallback synthesizer *)

(** C1.  Budget invariant.  For num_days >= 1 and budget > 0, every
    itinerary of the fallback synthesizer has total_cost <= 0.9 x budget.
    With f and h the drawn flight and nightly prices and
    total = f + h x num_days: the test [total_cost > budget * 0.9], on the
    float [budget * 0.9], decides as the exact 0.9 x budget does; when
    total <= 0.9 x budget the prices are kept and total_cost = total; when
    total > 0.9 x budget both prices are multiplied by the float
    [(budget * 0.9) / total], the products rounded and truncated, and
    total_cost is recomputed from the truncated prices. *)
Theorem fallback_total_cost_within_budget :
  forall destination num_days preferences budget num_itineraries start_date
         w l w',
    1 <= num_days -> 0 < budget ->
    _generate_fallback_itineraries destination num_days preferences budget
      num_itineraries start_date w = (Ok l, w') ->
    forall it, In it l ->
      (inject_Z (Itinerary.total_cost it) <= inject_Z budget * (9 # 10))%Q /\
      exists fl acc f h,
        Itinerary.flight_options it = [fl] /\
        Itinerary.accommodation_options it = [acc] /\
        200 <= f <= 600 /\ 80 <= h <= 300 /\
        let total := f + h * num_days in
        let cap := (inject_Z budget * (9 # 10))%Q in
        ((inject_Z total <= cap_of budget)%Q <-> (inject_Z total <= cap)%Q) /\
        ((inject_Z total <= cap)%Q ->
           Flight.price fl = f /\ Accommodation.price_per_night acc = h /\
           Itinerary.total_cost it = total) /\
        ((cap < inject_Z total)%Q ->
           Flight.price fl = Binary64.trunc (scaled_of budget total f) /\
           Accommodation.price_per_night acc
             = Binary64.trunc (scaled_of budget total h) /\
           Itinerary.total_cost it
             = Flight.price fl + Accommodation.price_per_night acc * num_days).
Proof.
  intros destination num_days preferences budget num_itineraries start_date
         w l w' Hdays Hbudget E it Hin.
  apply fallback_inv in E.
  destruct E as (start & fc & w2 & alerts & w3 & _ & Hfc & _ & _ & _ & Hall).
  destruct (forecast_within_calendar _ _ _ _ _ _ Hfc Hdays) as [Hs0 Hend].
  rewrite Forall_forall in Hall.
  destruct (Hall it Hin)
    as (_ & (fl & acc & f & h & Hfl & Hacc & Hf & Hh & Hfit & _) & _).
  apply budget_fit_64 in Hfit; [| lia].
  split.
  - destruct (budget_fit64_total budget num_days f h _ _ _ ltac:(lia)
                ltac:(lia) Hf Hh Hfit) as [_ Hle].
    assert (Hq : (inject_Z (10 * Itinerary.total_cost it)
                  <= inject_Z (9 * budget))%Q)
      by (rewrite <- Zle_Qle; exact Hle).
    rewrite !inject_Z_mult in Hq.
    change (inject_Z 10) with 10%Q in Hq. change (inject_Z 9) with 9%Q in Hq.
    lra.
  - exists fl, acc, f, h. repeat (split; [assumption |]).
    cbv zeta.
    assert (HT : 1 <= f + h * num_days <= 1095618300)
      by (unfold MAXORDINAL in Hend; nia).
    pose proof (cap_decides budget _ ltac:(lia) HT) as Hdec.
    split; [exact Hdec |].
    destruct Hfit as (Ht & [(Hle & Hf' & Hh') | (Hlt & Hf' & Hh')]).
    + split.
      * intros _. rewrite Ht, Hf', Hh'. auto.
      * intros Hlt. exfalso. apply (Qlt_not_le _ _ Hlt), Hdec, Hle.
    + split.
      * intros Hle. exfalso. apply (Qlt_not_le _ _ Hlt), Hdec, Hle.
      * intros _. auto.
Qed.

Lemma fallback_total_cost_within_budget_witness :
  1 <= 3 /\ 0 < 1500 /\
  _generate_fallback_itineraries "Paris" 3 "museums" 1500 3 (Some 739000)
    sample_world = (Ok sample_itineraries, snd sample_run) /\
  List.length sample_itineraries = 3%nat /\
  forall it, In it sample_itineraries ->
    (inject_Z (Itinerary.total_cost it) <= inject_Z 1500 * (9 # 10))%Q.
Proof.
  split; [lia |]. split; [lia |]. split; [exact sample_run_ok |].
  split; [exact sample_itineraries_length |].
  intros it Hin.
  apply (fallback_total_cost_within_budget "Paris" 3 "museums" 1500 3
           (Some 739000) sample_world sample_itineraries (snd sample_run)
           ltac:(lia) ltac:(lia) sample_run_ok it Hin).
Defined.

Lemma days_ok_In start_date fc days plan entry :
  days_ok start_date fc days plan -> In entry plan ->
  exists day,
    In day days /\ fst entry = day_label day /\
    day_ok (weather_condition fc (start_date + day - 1)) (snd entry).
Proof.
  unfold days_ok. induction 1 as [| d e ds es [Hk Hd] _ IH]; simpl.
  - contradiction.
  - intros [-> | Hin].
    + exists d. auto.
    + destruct (IH Hin) as (day & Hday & H'). exists day. auto.
Qed.

Lemma indoor_alternatives_nonempty name alt :
  dict_get name indoor_alternatives = Some alt -> alt <> EmptyString.
Proof.
  intros Hget. apply dict_get_Some_In in Hget. simpl in Hget.
  repeat (destruct Hget as [<- | Hget]; [discriminate |]). contradiction.
Qed.

Lemma in_rainy_stormy condition :
  in_list condition ["Rainy"; "Stormy"] = true <->
  condition = "Rainy" \/ condition = "Stormy".
Proof.
  unfold in_list. simpl. rewrite !orb_true_iff, !String.eqb_eq.
  intuition discriminate.
Qed.

(** C4.  Weather-alternative consistency.  In every itinerary of the
    fallback synthesizer, for the activities of "Day k": the day's date has
    an entry in the forecast of the call, and weather_alternative is
    non-empty exactly when the activity's name is a key of the
    indoor-alternatives mapping and that entry's condition is "Rainy" or
    "Stormy"; when non-empty it is the mapped alternative. *)
Theorem fallback_weather_alternative_iff :
  forall destination num_days preferences budget num_itineraries start_date
         w l w',
    _generate_fallback_itineraries destination num_days preferences budget
      num_itineraries start_date w = (Ok l, w') ->
    exists start fc w2,
      start = match start_date with Some d => d | None => today w end /\
      _get_weather_forecast destination start num_days w = (Ok fc, w2) /\
      forall it day acts a,
        In it l -> In (day_label day, acts) (Itinerary.daily_itinerary it) ->
        In a acts ->
        exists weather,
          dict_get (start + day - 1) fc = Some weather /\
          (Activity.weather_alternative a <> EmptyString <->
             dict_mem (Activity.name a) indoor_alternatives = true /\
             (condition weather = "Rainy" \/ condition weather = "Stormy")) /\
          (Activity.weather_alternative a <> EmptyString ->
             dict_get (Activity.name a) indoor_alternatives
             = Some (Activity.weather_alternative a)).
Proof.
  intros destination num_days preferences budget num_itineraries start_date
         w l w' E.
  apply fallback_inv in E.
  destruct E as (start & fc & w2 & alerts & w3 & Hstart & Hfc & _ & _ & _ & Hall).
  exists start, fc, w2. split; [exact Hstart |]. split; [exact Hfc |].
  intros it day acts a Hit Hentry Ha.
  rewrite Forall_forall in Hall. destruct (Hall it Hit) as (_ & _ & Hdays).
  destruct (days_ok_In _ _ _ _ _ Hdays Hentry) as (k & Hk & Hlabel & Hday).
  simpl in Hlabel, Hday. apply day_label_inj in Hlabel. subst k.
  apply range_In in Hk.
  destruct (forecast_lookup _ _ _ _ _ _ (start + day - 1) Hfc)
    as (weather & Hget & _); [lia |].
  exists weather. split; [exact Hget |].
  unfold weather_condition in Hday. rewrite Hget in Hday.
  assert (Hok : activity_ok (condition weather) 0 a
                \/ activity_ok (condition weather) 1 a).
  { destruct Hday as (a0 & a1 & -> & H0 & H1).
    destruct Ha as [<- | [<- | []]]; auto. }
  assert (Halt :
    if dict_mem (Activity.name a) indoor_alternatives
       && in_list (condition weather) ["Rainy"; "Stormy"]
    then dict_get (Activity.name a) indoor_alternatives
         = Some (Activity.weather_alternative a)
    else Activity.weather_alternative a = EmptyString).
  { destruct Hok as [H | H]; apply H. }
  clear Hok Hday.
  destruct (dict_mem (Activity.name a) indoor_alternatives
            && in_list (condition weather) ["Rainy"; "Stormy"]) eqn:Hcond.
  - apply andb_true_iff in Hcond. destruct Hcond as [Hmem Hrain].
    apply in_rainy_stormy in Hrain. split.
    + split; [auto |]. intros _.
      eapply indoor_alternatives_nonempty, Halt.
    + intros _. exact Halt.
  - split.
    + split; [intros Hne; contradiction |].
      intros [Hmem Hrain]. apply in_rainy_stormy in Hrain.
      rewrite Hmem, Hrain in Hcond. discriminate.
    + intros Hne. contradiction.
Qed.

Lemma fallback_weather_alternative_iff_witness :
  _generate_fallback_itineraries "Paris" 3 "museums" 1500 3 (Some 739000)
    sample_world = (Ok sample_itineraries, snd sample_run) /\
  List.length sample_itineraries = 3%nat /\
  exists start fc w2,
    start = 739000 /\
    _get_weather_forecast "Paris" start 3 sample_world = (Ok fc, w2) /\
    forall it day acts a,
      In it sample_itineraries ->
      In (day_label day, acts) (Itinerary.daily_itinerary it) ->
      In a acts ->
      exists weather,
        dict_get (start + day - 1) fc = Some weather /\
        (Activity.weather_alternative a <> EmptyString <->
           dict_mem (Activity.name a) indoor_alternatives = true /\
           (condition weather = "Rainy" \/ condition weather = "Stormy")) /\
        (Activity.weather_alternative a <> EmptyString ->
           dict_get (Activity.name a) indoor_alternatives
           = Some (Activity.weather_alternative a)).
Proof.
  split; [exact sample_run_ok |].
  split; [exact sample_itineraries_length |].
  exact (fallback_weather_alternative_iff "Paris" 3 "museums" 1500 3
           (Some 739000) sample_world sample_itineraries (snd sample_run)
           sample_run_ok).
Defined.

(** C5.  Day coverage.  For num_days >= 1, every itinerary of the fallback
    synthesizer has exactly num_days day entries, with the keys "Day 1" to
    "Day num_days" in that order, and each day's list holds exactly two
    activities. *)
Theorem fallback_day_coverage :
  forall destination num_days preferences budget num_itineraries start_date
         w l w',
    1 <= num_days ->
    _generate_fallback_itineraries destination num_days preferences budget
      num_itineraries start_date w = (Ok l, w') ->
    forall it, In it l ->
      dict_keys (Itinerary.daily_itinerary it)
        = map (fun day => ("Day " ++ str day)%string) (range 1 (num_days + 1)) /\
      Z.of_nat (List.length (Itinerary.daily_itinerary it)) = num_days /\
      NoDup (dict_keys (Itinerary.daily_itinerary it)) /\
      (forall i, 0 <= i < num_days ->
         nth_error (dict_keys (Itinerary.daily_itinerary it)) (Z.to_nat i)
         = Some ("Day " ++ str (i + 1))%string) /\
      Forall (fun entry => List.length (snd entry) = 2%nat)
        (Itinerary.daily_itinerary it).
Proof.
  intros destination num_days preferences budget num_itineraries start_date
         w l w' Hdays E it Hin.
  apply fallback_inv in E.
  destruct E as (start & fc & w2 & alerts & w3 & _ & _ & _ & _ & _ & Hall).
  rewrite Forall_forall in Hall. destruct (Hall it Hin) as (_ & _ & Hok).
  pose proof (days_ok_keys _ _ _ _ Hok) as Hkeys.
  fold day_label. split; [exact Hkeys |]. split; [| split; [| split]].
  - apply Forall2_length in Hok. rewrite <- Hok, range_length. lia.
  - rewrite Hkeys. apply Injective_map_NoDup.
    + intros a b. apply day_label_inj.
    + unfold range. apply Injective_map_NoDup.
      * intros a b Hab. lia.
      * apply seq_NoDup.
  - intros i Hi. rewrite Hkeys. unfold range.
    rewrite nth_error_map, nth_error_map, nth_error_seq.
    destruct (Nat.ltb_spec (Z.to_nat i) (Z.to_nat (num_days + 1 - 1))); [| lia].
    cbn [option_map]. replace (1 + Z.of_nat (0 + Z.to_nat i)) with (i + 1) by lia.
    reflexivity.
  - clear Hkeys. unfold days_ok in Hok.
    induction Hok as [| d e ds es [_ (a0 & a1 & Hacts & _)] _ IH];
      constructor; [| exact IH].
    rewrite Hacts. reflexivity.
Qed.

Lemma fallback_day_coverage_witness :
  1 <= 3 /\
  _generate_fallback_itineraries "Paris" 3 "museums" 1500 3 (Some 739000)
    sample_world = (Ok sample_itineraries, snd sample_run) /\
  List.length sample_itineraries = 3%nat /\
  forall it, In it sample_itineraries ->
    dict_keys (Itinerary.daily_itinerary it) = ["Day 1"; "Day 2"; "Day 3"] /\
    Forall (fun entry => List.length (snd entry) = 2%nat)
      (Itinerary.daily_itinerary it).
Proof.
  split; [lia |]. split; [exact sample_run_ok |].
  split; [exact sample_itineraries_length |]. intros it Hin.
  destruct (fallback_day_coverage "Paris" 3 "museums" 1500 3 (Some 739000)
              sample_world sample_itineraries (snd sample_run)
              ltac:(lia) sample_run_ok it Hin) as (Hkeys & _ & _ & _ & Hall).
  split; [exact Hkeys | exact Hall].
Defined.

(** The activity costs generated for an itinerary, summed over its days. *)
Definition activities_cost (it : Itinerary.t) : Z :=
  fold_right Z.add 0
    (map Activity.cost (List.concat (map snd (Itinerary.daily_itinerary it)))).

Lemma days_ok_cost start_date fc days plan :
  days_ok start_date fc days plan ->
  40 * Z.of_nat (List.length days)
  <= fold_right Z.add 0 (map Activity.cost (List.concat (map snd plan))).
Proof.
  unfold days_ok.
  induction 1 as [| d e ds es [_ (a0 & a1 & Hacts & H0 & H1)] _ IH].
  - simpl. lia.
  - cbn [map List.concat List.length]. rewrite Hacts.
    destruct H0 as (_ & _ & Hc0 & _). destruct H1 as (_ & _ & Hc1 & _).
    cbn [app map fold_right]. lia.
Qed.

(** C6.  Composition of the total.  Every itinerary of the fallback
    synthesizer has one flight option and one accommodation option;
    total_cost = flight price + price_per_night x num_days and the
    accommodation's total_price = price_per_night x num_days.  The costs of
    the day activities, at least 20 each, are no part of total_cost. *)
Theorem fallback_total_cost_composition :
  forall destination num_days preferences budget num_itineraries start_date
         w l w',
    _generate_fallback_itineraries destination num_days preferences budget
      num_itineraries start_date w = (Ok l, w') ->
    forall it, In it l ->
      exists fl acc,
        Itinerary.flight_options it = [fl] /\
        Itinerary.accommodation_options it = [acc] /\
        Itinerary.total_cost it
          = Flight.price fl + Accommodation.price_per_night acc * num_days /\
        Accommodation.total_price acc
          = Accommodation.price_per_night acc * num_days /\
        40 * Z.max 0 num_days <= activities_cost it.
Proof.
  intros destination num_days preferences budget num_itineraries start_date
         w l w' E it Hin.
  apply fallback_inv in E.
  destruct E as (start & fc & w2 & alerts & w3 & _ & _ & _ & _ & _ & Hall).
  rewrite Forall_forall in Hall.
  destruct (Hall it Hin)
    as (_ & (fl & acc & f & h & Hfl & Hacc & _ & _ & Hfit & Hprice) & Hdays).
  pose proof (budget_fit_total _ _ _ _ _ _ _ Hfit) as Ht.
  exists fl, acc. repeat (split; [assumption |]).
  apply days_ok_cost in Hdays. rewrite range_length in Hdays.
  unfold activities_cost. lia.
Qed.

Lemma fallback_total_cost_composition_witness :
  _generate_fallback_itineraries "Paris" 3 "museums" 1500 3 (Some 739000)
    sample_world = (Ok sample_itineraries, snd sample_run) /\
  List.length sample_itineraries = 3%nat /\
  forall it, In it sample_itineraries ->
    exists fl acc,
      Itinerary.flight_options it = [fl] /\
      Itinerary.accommodation_options it = [acc] /\
      Itinerary.total_cost it
        = Flight.price fl + Accommodation.price_per_night acc * 3 /\
      Accommodation.total_price acc = Accommodation.price_per_night acc * 3 /\
      40 * Z.max 0 3 <= activities_cost it.
Proof.
  split; [exact sample_run_ok |].
  split; [exact sample_itineraries_length |].
  exact (fallback_total_cost_composition "Paris" 3 "museums" 1500 3
           (Some 739000) sample_world sample_itineraries (snd sample_run)
           sample_run_ok).
Defined.

(** C8.  Slot times as the code renders them.  In every itinerary of the
    fallback synthesizer each day holds two activities whose
    (start_time, end_time) are ("9:00", "12:00") and ("13:00", "16:00"):
    the hours are 9+4j and 12+4j for slot j, printed without padding, so
    the first start_time is "9:00" and not the zero-padded "09:00". *)
Theorem fallback_slot_times :
  forall destination num_days preferences budget num_itineraries start_date
         w l w',
    _generate_fallback_itineraries destination num_days preferences budget
      num_itineraries start_date w = (Ok l, w') ->
    forall it entry,
      In it l -> In entry (Itinerary.daily_itinerary it) ->
      map (fun a => (Activity.start_time a, Activity.end_time a)) (snd entry)
        = [("9:00", "12:00"); ("13:00", "16:00")] /\
      (forall a, nth_error (snd entry) 0 = Some a ->
                 Activity.start_time a <> "09:00").
Proof.
  intros destination num_days preferences budget num_itineraries start_date
         w l w' E it entry Hit Hentry.
  apply fallback_inv in E.
  destruct E as (start & fc & w2 & alerts & w3 & _ & _ & _ & _ & _ & Hall).
  rewrite Forall_forall in Hall. destruct (Hall it Hit) as (_ & _ & Hdays).
  destruct (days_ok_In _ _ _ _ _ Hdays Hentry)
    as (k & _ & _ & (a0 & a1 & Hacts & H0 & H1)).
  destruct H0 as (Hs0 & He0 & _). destruct H1 as (Hs1 & He1 & _).
  rewrite Hacts. cbn [map]. rewrite Hs0, He0, Hs1, He1. split; [reflexivity |].
  intros a Ha. cbn in Ha. inversion Ha; subst a. rewrite Hs0. discriminate.
Qed.

Lemma fallback_slot_times_witness :
  _generate_fallback_itineraries "Paris" 3 "museums" 1500 3 (Some 739000)
    sample_world = (Ok sample_itineraries, snd sample_run) /\
  forall it entry,
    In it sample_itineraries -> In entry (Itinerary.daily_itinerary it) ->
    map (fun a => (Activity.start_time a, Activity.end_time a)) (snd entry)
      = [("9:00", "12:00"); ("13:00", "16:00")] /\
    (forall a, nth_error (snd entry) 0 = Some a ->
               Activity.start_time a <> "09:00").
Proof.
  split; [exact sample_run_ok |].
  exact (fallback_slot_times "Paris" 3 "museums" 1500 3 (Some 739000)
           sample_world sample_itineraries (snd sample_run) sample_run_ok).
Defined.

(** C9.  One forecast, one alert list per call.  A call of the fallback
    synthesizer computes the forecast and the alerts once, from the world it
    starts in, and runs the itinerary loop on them: every itinerary
    returned has the joined alerts as safety_recommendations (so any two
    agree), and the days of every itinerary are planned against that one
    forecast, day k against the date start + k - 1. *)
Theorem fallback_shares_forecast_and_alerts :
  forall destination num_days preferences budget num_itineraries start_date
         w l w',
    _generate_fallback_itineraries destination num_days preferences budget
      num_itineraries start_date w = (Ok l, w') ->
    exists start fc w2 alerts w3,
      start = match start_date with Some d => d | None => today w end /\
      _get_weather_forecast destination start num_days w = (Ok fc, w2) /\
      _check_natural_disasters destination start w2 = (Ok alerts, w3) /\
      mapM (fallback_itinerary destination num_days preferences budget start
              fc alerts) (range 0 num_itineraries) w3 = (Ok l, w') /\
      (forall it, In it l ->
         Itinerary.safety_recommendations it = join " " alerts /\
         days_ok start fc (range 1 (num_days + 1))
           (Itinerary.daily_itinerary it)) /\
      (forall it1 it2, In it1 l -> In it2 l ->
         Itinerary.safety_recommendations it1
         = Itinerary.safety_recommendations it2).
Proof.
  intros destination num_days preferences budget num_itineraries start_date
         w l w' E.
  apply fallback_inv in E.
  destruct E as (start & fc & w2 & alerts & w3 & Hstart & Hfc & Hal & Hloop & _ & Hall).
  rewrite Forall_forall in Hall.
  exists start, fc, w2, alerts, w3. repeat (split; [assumption |]). split.
  - intros it Hin. destruct (Hall it Hin) as (Hs & _ & Hd). auto.
  - intros it1 it2 H1 H2.
    destruct (Hall it1 H1) as (-> & _). destruct (Hall it2 H2) as (-> & _).
    reflexivity.
Qed.

Lemma fallback_shares_forecast_and_alerts_witness :
  _generate_fallback_itineraries "Paris" 3 "museums" 1500 3 (Some 739000)
    sample_world = (Ok sample_itineraries, snd sample_run) /\
  forall it1 it2, In it1 sample_itineraries -> In it2 sample_itineraries ->
    Itinerary.safety_recommendations it1 = Itinerary.safety_recommendations it2.
Proof.
  split; [exact sample_run_ok |].
  destruct (fallback_shares_forecast_and_alerts "Paris" 3 "museums" 1500 3
              (Some 739000) sample_world sample_itineraries (snd sample_run)
              sample_run_ok)
    as (start & fc & w2 & alerts & w3 & _ & _ & _ & _ & _ & Hsame).
  exact Hsame.
Defined.

(** ** Which exceptions the synthesizer can raise, and when it returns *)

(** [only_Exceptions m]: whatever [m] raises derives from [Exception]. *)
Definition only_Exceptions {A} (m : M A) : Prop :=
  forall w e w', m w = (Raise e, w') -> is_Exception e = true.

Lemma only_ret {A} (a : A) : only_Exceptions (ret a).
Proof. intros w e w' E. discriminate E. Qed.

Lemma only_raise {A} e : is_Exception e = true -> only_Exceptions (@raise A e).
Proof. intros He w e' w' E. inversion E. subst. exact He. Qed.

Lemma only_bind {A B} (m : M A) (k : A -> M B) :
  only_Exceptions m -> (forall a, only_Exceptions (k a)) ->
  only_Exceptions (bind m k).
Proof.
  intros Hm Hk w e w' E. unfold bind in E.
  destruct (m w) as [[a | e0] w1] eqn:Em.
  - eapply Hk, E.
  - inversion E. subst. eapply Hm, Em.
Qed.

Lemma only_foldM {A S} (f : S -> A -> M S) l :
  (forall s x, only_Exceptions (f s x)) ->
  forall s, only_Exceptions (foldM f l s).
Proof.
  intros Hf. induction l as [| x l IH]; simpl; intros s.
  - apply only_ret.
  - apply only_bind; [apply Hf | exact IH].
Qed.

Lemma only_mapM {A B} (f : A -> M B) l :
  (forall x, only_Exceptions (f x)) -> only_Exceptions (mapM f l).
Proof.
  intros Hf. induction l as [| x l IH]; simpl.
  - apply only_ret.
  - apply only_bind; [apply Hf |]. intros y.
    apply only_bind; [exact IH |]. intros ys. apply only_ret.
Qed.

Lemma only_next_random : only_Exceptions next_random.
Proof. intros w e w' E. discriminate E. Qed.

Lemma only_randint a b : only_Exceptions (randint a b).
Proof.
  unfold randint. destruct (b <? a).
  - apply only_raise. reflexivity.
  - apply only_bind; [apply only_next_random | intros; apply only_ret].
Qed.

Lemma only_choice {A} (l : list A) : only_Exceptions (choice l).
Proof.
  unfold choice. destruct l.
  - apply only_raise. reflexivity.
  - apply only_bind; [apply only_next_random | intros; apply only_ret].
Qed.

Lemma only_random : only_Exceptions random.
Proof.
  unfold random. apply only_bind; [apply only_next_random | intros; apply only_ret].
Qed.

Lemma only_getitem {K V} `{Key K} (d : dict K V) k : only_Exceptions (getitem d k).
Proof.
  unfold getitem. destruct (dict_get k d).
  - apply only_ret.
  - apply only_raise. reflexivity.
Qed.

Lemma only_add_days d n : only_Exceptions (add_days d n).
Proof.
  unfold add_days. destruct ((1 <=? d + n) && (d + n <=? MAXORDINAL)).
  - apply only_ret.
  - apply only_raise. reflexivity.
Qed.

Create HintDb py_exn.
#[local] Hint Resolve only_ret only_bind only_foldM only_mapM only_next_random
  only_randint only_choice only_random only_getitem only_add_days : py_exn.

Lemma only_forecast destination start_date num_days :
  only_Exceptions (_get_weather_forecast destination start_date num_days).
Proof.
  unfold _get_weather_forecast. apply only_bind; [| auto with py_exn].
  apply only_foldM. intros [fc cur] i. unfold forecast_day.
  repeat (apply only_bind; [auto with py_exn | intros]). apply only_ret.
Qed.

Lemma only_disasters destination start_date :
  only_Exceptions (_check_natural_disasters destination start_date).
Proof.
  unfold _check_natural_disasters. apply only_bind.
  - destruct (existsb _ _); auto with py_exn.
  - intros [|]; simpl; auto with py_exn.
Qed.

Lemma temperatures_total c :
  In c weather_conditions ->
  exists lo hi,
    dict_get c temperatures = Some (lo, hi) /\ lo <= hi /\ lo - 15 <= hi - 10.
Proof.
  simpl. intros H.
  repeat (destruct H as [<- | H];
          [eexists _, _; split; [reflexivity | lia] |]).
  contradiction.
Qed.

Lemma sure_getitem {K V} `{Key K} (d : dict K V) k v :
  dict_get k d = Some v -> sure (getitem d k) (fun x => x = v).
Proof.
  intros Hget w. unfold getitem. rewrite Hget.
  exists v, w. split; reflexivity.
Qed.

Lemma sure_next_random : sure next_random (fun _ => True).
Proof. intros w. eexists _, _. split; [reflexivity | exact I]. Qed.

Lemma sure_random : sure random (fun _ => True).
Proof. intros w. eexists _, _. split; [reflexivity | exact I]. Qed.

Lemma sure_forecast destination start_date num_days :
  1 <= start_date -> start_date + Z.max 0 num_days <= MAXORDINAL ->
  sure (_get_weather_forecast destination start_date num_days) (fun _ => True).
Proof.
  intros Hstart Hend. unfold _get_weather_forecast.
  eapply sure_bind; [| intros; apply sure_ret; exact I].
  apply (sure_foldM forecast_day
           (fun pre acc => snd acc = start_date + Z.of_nat (List.length pre))).
  - intros pre x post [fc cur] Hsplit Hcur. simpl in Hcur.
    apply range_split in Hsplit. destruct Hsplit as (Hx & _ & Hlt).
    unfold forecast_day.
    eapply sure_bind; [apply sure_choice; discriminate |]. intros c Hc.
    destruct (temperatures_total c Hc) as (lo & hi & Hget & H1 & H2).
    eapply sure_bind; [apply sure_getitem, Hget |]. intros tr ->. simpl.
    eapply sure_bind; [apply sure_randint, H1 |]. intros hi' _.
    eapply sure_bind; [apply sure_randint, H2 |]. intros lo' _.
    eapply sure_bind; [apply sure_add_days; lia |]. intros d' ->.
    apply sure_ret. simpl. rewrite length_app. simpl. lia.
  - simpl. lia.
Qed.

Lemma sure_disasters destination start_date :
  sure (_check_natural_disasters destination start_date) (fun _ => True).
Proof.
  unfold _check_natural_disasters.
  eapply sure_bind with (P := fun _ => True).
  - destruct (existsb _ _); [| apply sure_ret; exact I].
    eapply sure_bind; [apply sure_random |].
    intros. apply sure_ret. exact I.
  - intros [|] _; cbv beta iota.
    + eapply sure_bind; [apply sure_choice; discriminate |].
      intros. apply sure_ret. exact I.
    + unfold disasters. apply sure_ret. exact I.
Qed.

Lemma activities_pools_nonempty pool :
  In pool (map snd activities) -> pool <> [].
Proof.
  simpl. intros H.
  repeat (destruct H as [<- | H]; [discriminate |]). contradiction.
Qed.

Lemma sure_fallback_activity destination focus condition j :
  sure (fallback_activity destination focus condition j) (fun _ => True).
Proof.
  unfold fallback_activity.
  eapply sure_bind with
    (P := fun t => exists pool, dict_get t activities = Some pool /\ pool <> []).
  - unfold dict_mem. destruct (dict_get focus activities) as [pool |] eqn:Hget.
    + apply sure_ret. exists pool. split; [exact Hget |].
      eapply activities_pools_nonempty, dict_get_Some_In, Hget.
    + eapply sure_weaken; [apply sure_choice; discriminate |].
      intros t Ht. destruct (dict_get_In t activities Ht) as (pool & Hg & Hin).
      exists pool. split; [exact Hg |].
      apply activities_pools_nonempty, Hin.
  - intros t (pool & Hget & Hne).
    eapply sure_bind; [apply sure_getitem, Hget |]. intros p ->.
    eapply sure_bind; [apply sure_choice, Hne |]. intros name _.
    eapply sure_bind with (P := fun _ => True).
    + unfold dict_mem.
      destruct (dict_get name indoor_alternatives) as [alt |] eqn:Halt;
        cbn [andb].
      * destruct (in_list condition ["Rainy"; "Stormy"]).
        -- eapply sure_weaken; [apply sure_getitem, Halt | auto].
        -- apply sure_ret. exact I.
      * apply sure_ret. exact I.
    + intros alt _. eapply sure_bind; [apply sure_randint; lia |].
      intros. apply sure_ret. exact I.
Qed.

Lemma sure_fallback_day destination focus fc it cur day :
  1 <= cur + 1 <= MAXORDINAL ->
  sure (fallback_day destination focus fc (it, cur) day)
       (fun acc => snd acc = cur + 1).
Proof.
  intros Hcur. unfold fallback_day.
  eapply sure_bind;
    [apply sure_mapM; intros; apply sure_fallback_activity |].
  intros acts _.
  eapply sure_bind; [apply sure_add_days, Hcur |]. intros d' ->.
  apply sure_ret. reflexivity.
Qed.

Lemma sure_fit_budget budget num_days f h :
  0 <= budget < 2 ^ 1023 -> num_days <= MAXORDINAL ->
  200 <= f <= 600 -> 80 <= h <= 300 ->
  sure (Binary64.fit_budget budget num_days f h) (fun _ => True).
Proof.
  intros Hb Hd Hf Hh w.
  destruct (fit_budget64_returns budget num_days f h w Hb Hd Hf Hh)
    as (f' & h' & t & E).
  exists (f', h', t), w. split; [exact E | exact I].
Qed.

Lemma sure_uuid4_str : sure uuid4_str (fun _ => True).
Proof. intros w. eexists _, _. split; [reflexivity | exact I]. Qed.

Lemma sure_uniform a b : sure (uniform a b) (fun _ => True).
Proof. intros w. eexists _, _. split; [reflexivity | exact I]. Qed.

Lemma sure_fallback_itinerary destination num_days preferences budget
      start_date fc alerts i :
  0 <= budget < 2 ^ 1023 ->
  1 <= start_date -> start_date + Z.max 0 num_days <= MAXORDINAL ->
  sure (fallback_itinerary destination num_days preferences budget start_date
          fc alerts i) (fun _ => True).
Proof.
  intros Hsign Hstart Hend. unfold fallback_itinerary.
  eapply sure_bind; [apply sure_choice; discriminate |]. intros focus _.
  eapply sure_bind; [apply sure_randint; lia |]. intros f Hf.
  eapply sure_bind; [apply sure_randint; lia |]. intros h Hh.
  cbv beta in Hf, Hh.
  eapply sure_bind; [apply sure_fit_budget; [exact Hsign | lia | lia | lia] |].
  intros [[f' h'] t] _.
  eapply sure_bind; [apply sure_uuid4_str |]. intros id _.
  eapply sure_bind; [apply sure_choice; discriminate |]. intros airline _.
  eapply sure_bind; [apply sure_randint; lia |]. intros hours _.
  eapply sure_bind; [apply sure_randint; lia |]. intros minutes _.
  eapply sure_bind; [apply sure_choice; discriminate |]. intros hotel _.
  eapply sure_bind; [apply sure_uniform |]. intros rating _.
  eapply sure_bind; [| intros; apply sure_ret; exact I].
  apply (sure_foldM _
           (fun pre acc => snd acc = start_date + Z.of_nat (List.length pre))).
  - intros pre x post [it cur] Hsplit Hcur. simpl in Hcur.
    apply range_split in Hsplit. destruct Hsplit as (Hx & _ & Hlt).
    eapply sure_weaken; [apply sure_fallback_day; lia |].
    intros acc ->. rewrite length_app. simpl. lia.
  - simpl. lia.
Qed.

(** With dates inside the calendar and a budget from 0 up to 2^1023, the
    fallback synthesizer returns, and returns one itinerary per requested
    one. *)
Lemma sure_fallback destination num_days preferences budget num_itineraries
      start_date :
  0 <= budget < 2 ^ 1023 ->
  1 <= start_date -> start_date + Z.max 0 num_days <= MAXORDINAL ->
  sure (_generate_fallback_itineraries destination num_days preferences budget
          num_itineraries (Some start_date))
       (fun l => List.length l = Z.to_nat num_itineraries).
Proof.
  intros Hsign Hstart Hend. unfold _generate_fallback_itineraries.
  eapply sure_bind with (P := fun d => d = start_date);
    [apply sure_ret; reflexivity |]. intros start ->.
  eapply sure_bind; [apply sure_forecast; assumption |]. intros fc _.
  eapply sure_bind; [apply sure_disasters |]. intros alerts _.
  eapply sure_weaken.
  - apply sure_mapM with (P := fun _ => True). intros i _.
    apply sure_fallback_itinerary; assumption.
  - intros l [Hlen _]. rewrite Hlen, range_length. f_equal. lia.
Qed.

(** ** The entry point: which way a call can go *)

Lemma try_catch_Ok {A} catches (m h : M A) w a w1 :
  m w = (Ok a, w1) -> try_catch catches m h w = (Ok a, w1).
Proof. intros E. unfold try_catch. rewrite E. reflexivity. Qed.

Lemma try_catch_caught {A} catches (m h : M A) w e w1 :
  m w = (Raise e, w1) -> catches e = true -> try_catch catches m h w = h w1.
Proof. intros E C. unfold try_catch. rewrite E, C. reflexivity. Qed.

Lemma try_catch_uncaught {A} catches (m h : M A) w e w1 :
  m w = (Raise e, w1) -> catches e = false ->
  try_catch catches m h w = (Raise e, w1).
Proof. intros E C. unfold try_catch. rewrite E, C. reflexivity. Qed.

(** The outcome of the fallback synthesizer, seen as an outcome of the
    entry point. *)
Definition as_generated (r : result (list Itinerary.t) * world)
  : result generated * world :=
  (match fst r with Ok l => Ok (FromFallback l) | Raise e => Raise e end, snd r).

Lemma return_fallback_eq destination num_days preferences budget
      num_itineraries start_date w :
  return_fallback destination num_days preferences budget num_itineraries
    start_date w
  = as_generated
      (_generate_fallback_itineraries destination num_days preferences budget
         num_itineraries (Some start_date) w).
Proof.
  unfold return_fallback, as_generated, bind.
  destruct (_generate_fallback_itineraries _ _ _ _ _ _ w) as [[l | e] w1];
    reflexivity.
Qed.

(** The text handed to the decoder: the bracketed span when there is one,
    the whole answer otherwise. *)
Definition extract (content : string) : string :=
  match search_json_array content with
  | Some span => span
  | None => content
  end.

Section GeneratorFacts.

Variable json_loads : string -> result Json.value.
Variable mcp_connect : string -> result unit.
Variable agent_arun : string -> prompt -> result (option string).

(** The collaborators fail with exceptions deriving from [Exception]; an
    interrupt of the process is not a failure of theirs. *)
Hypothesis json_only :
  forall s e, json_loads s = Raise e -> is_Exception e = true.
Hypothesis mcp_only :
  forall k e, mcp_connect k = Raise e -> is_Exception e = true.
Hypothesis agent_only :
  forall k p e, agent_arun k p = Raise e -> is_Exception e = true.

Lemma connect_mcp_servers_eq google_maps_key w :
  connect_mcp_servers mcp_connect google_maps_key w
  = (Ok match mcp_connect google_maps_key with
        | Ok _ => true
        | Raise _ => false
        end, w).
Proof.
  unfold connect_mcp_servers, try_catch, bind, lift, ret.
  destruct (mcp_connect google_maps_key) as [u | e] eqn:E; [reflexivity |].
  rewrite (mcp_only _ _ E). reflexivity.
Qed.

Lemma parse_response_eq c w :
  parse_response json_loads (Some c) w
  = (match json_loads (extract c) with
     | Ok v => Ok (FromAgent v)
     | Raise e => Raise e
     end, w).
Proof.
  unfold parse_response, extract, bind, lift, ret.
  destruct (search_json_array c); destruct (json_loads _); reflexivity.
Qed.

Section OneCall.

Variables (destination : string) (num_days : Z) (preferences : string)
          (budget : Z) (gemini_key google_maps_key : string)
          (num_itineraries : Z) (start : Z).

Let fallback : M generated :=
  return_fallback destination num_days preferences budget num_itineraries
    start.

(** The block under the outer [try]. *)
Let body : M generated :=
  (weather_forecast <- _get_weather_forecast destination start num_days ;;
   disaster_alerts <- _check_natural_disasters destination start ;;
   connected <- connect_mcp_servers mcp_connect google_maps_key ;;
   if negb connected then fallback
   else
     response <-
       lift (agent_arun gemini_key
               {| prompt_num_itineraries := num_itineraries;
                  prompt_destination := destination;
                  prompt_num_days := num_days;
                  prompt_start_date := start;
                  prompt_budget := budget;
                  prompt_preferences := preferences;
                  prompt_weather_forecast := weather_forecast;
                  prompt_disaster_alerts := disaster_alerts |}) ;;
     try_catch is_JSONDecodeError (parse_response json_loads response) fallback).

(** The agent's answer was used: the oracle, the connection, the agent and
    the decoder all succeeded, and [v] is what the decoder gave. *)
Definition agent_path (w : world) (v : Json.value) (w2 : world) : Prop :=
  exists fc w1 alerts c,
    _get_weather_forecast destination start num_days w = (Ok fc, w1) /\
    _check_natural_disasters destination start w1 = (Ok alerts, w2) /\
    mcp_connect google_maps_key = Ok tt /\
    agent_arun gemini_key
      {| prompt_num_itineraries := num_itineraries;
         prompt_destination := destination;
         prompt_num_days := num_days;
         prompt_start_date := start;
         prompt_budget := budget;
         prompt_preferences := preferences;
         prompt_weather_forecast := fc;
         prompt_disaster_alerts := alerts |} = Ok (Some c) /\
    json_loads (extract c) = Ok v.

Lemma body_cases w :
  (exists w1, body w = fallback w1) \/
  (exists e w1, body w = (Raise e, w1) /\ is_Exception e = true) \/
  (exists v w2, agent_path w v w2 /\ body w = (Ok (FromAgent v), w2)).
Proof.
  unfold body.
  destruct (_get_weather_forecast destination start num_days w)
    as [[fc | e] w1] eqn:Hfc.
  2: { right. left. exists e, w1. split.
       - apply bind_Raise, Hfc.
       - eapply only_forecast, Hfc. }
  rewrite (bind_Ok _ _ _ _ _ Hfc).
  destruct (_check_natural_disasters destination start w1)
    as [[alerts | e] w2] eqn:Hal.
  2: { right. left. exists e, w2. split.
       - apply bind_Raise, Hal.
       - eapply only_disasters, Hal. }
  rewrite (bind_Ok _ _ _ _ _ Hal).
  rewrite (bind_Ok _ _ _ _ _ (connect_mcp_servers_eq google_maps_key w2)).
  destruct (mcp_connect google_maps_key) as [[] | e] eqn:Hc; cbn [negb].
  2: { left. exists w2. reflexivity. }
  match goal with
  | |- context [agent_arun gemini_key ?p] =>
      destruct (agent_arun gemini_key p) as [[c |] | e] eqn:Ha
  end.
  - rewrite (bind_Ok _ _ w2 (Some c) w2 eq_refl).
    unfold try_catch. rewrite parse_response_eq.
    destruct (json_loads (extract c)) as [v | e] eqn:Hj.
    + right. right. exists v, w2. split; [| reflexivity].
      exists fc, w1, alerts, c. auto.
    + destruct (is_JSONDecodeError e).
      * left. exists w2. reflexivity.
      * right. left. exists e, w2. split; [reflexivity |].
        eapply json_only, Hj.
  - right. left. exists TypeError, w2. split; reflexivity.
  - right. left. exists e, w2. split; [reflexivity |].
    eapply agent_only, Ha.
Qed.

Lemma agent_path_body w v w2 :
  agent_path w v w2 -> body w = (Ok (FromAgent v), w2).
Proof.
  intros (fc & w1 & alerts & c & Hfc & Hal & Hc & Ha & Hj). unfold body.
  rewrite (bind_Ok _ _ _ _ _ Hfc), (bind_Ok _ _ _ _ _ Hal).
  rewrite (bind_Ok _ _ _ _ _ (connect_mcp_servers_eq google_maps_key w2)).
  rewrite Hc. cbn [negb]. rewrite Ha.
  rewrite (bind_Ok _ _ w2 (Some c) w2 eq_refl).
  apply try_catch_Ok. rewrite parse_response_eq, Hj. reflexivity.
Qed.

End OneCall.

(** Every call ends in one of two ways: with the outcome of a run of the
    fallback synthesizer, or with the decoded answer of the agent. *)
Lemma generate_cases destination num_days preferences budget gemini_key
      google_maps_key num_itineraries start_date w :
  let start := match start_date with Some d => d | None => today w end in
  let run :=
    generate_itineraries json_loads mcp_connect agent_arun destination
      num_days preferences budget gemini_key google_maps_key num_itineraries
      start_date w in
  (exists w1,
      run = as_generated
              (_generate_fallback_itineraries destination num_days preferences
                 budget num_itineraries (Some start) w1)) \/
  (exists v w2,
      agent_path destination num_days preferences budget gemini_key
        google_maps_key num_itineraries start w v w2 /\
      run = (Ok (FromAgent v), w2)).
Proof.
  intros start run. subst run. unfold generate_itineraries.
  assert (Hs : (match start_date with Some d => ret d | None => now end) w
               = (Ok start, w)) by (destruct start_date; reflexivity).
  rewrite (bind_Ok _ _ _ _ _ Hs). cbv zeta.
  destruct (body_cases destination num_days preferences budget gemini_key
              google_maps_key num_itineraries start w)
    as [(w1 & Hb) | [(e & w1 & Hb & He) | (v & w2 & Hpath & Hb)]].
  - rewrite return_fallback_eq in Hb. unfold as_generated in Hb.
    destruct (_generate_fallback_itineraries destination num_days preferences
                budget num_itineraries (Some start) w1) as [[l | e] w2] eqn:Hf;
      cbn [fst snd] in Hb.
    + left. exists w1. rewrite (try_catch_Ok _ _ _ _ _ _ Hb), Hf. reflexivity.
    + destruct (is_Exception e) eqn:He.
      * left. exists w2. rewrite (try_catch_caught _ _ _ _ _ _ Hb He).
        apply return_fallback_eq.
      * left. exists w1. rewrite (try_catch_uncaught _ _ _ _ _ _ Hb He), Hf.
        reflexivity.
  - left. exists w1. rewrite (try_catch_caught _ _ _ _ _ _ Hb He).
    apply return_fallback_eq.
  - right. exists v, w2. split; [exact Hpath |].
    apply (try_catch_Ok _ _ _ _ _ _ Hb).
Qed.

(** On the agent path the decoded answer is handed back as it is. *)
Lemma agent_path_run destination num_days preferences budget gemini_key
      google_maps_key num_itineraries start_date w v w2 :
  agent_path destination num_days preferences budget gemini_key
    google_maps_key num_itineraries
    (match start_date with Some d => d | None => today w end) w v w2 ->
  generate_itineraries json_loads mcp_connect agent_arun destination num_days
    preferences budget gemini_key google_maps_key num_itineraries start_date w
  = (Ok (FromAgent v), w2).
Proof.
  intros Hpath. unfold generate_itineraries.
  assert (Hs : (match start_date with Some d => ret d | None => now end) w
               = (Ok (match start_date with Some d => d | None => today w end),
                  w)) by (destruct start_date; reflexivity).
  rewrite (bind_Ok _ _ _ _ _ Hs). cbv zeta.
  apply try_catch_Ok. apply agent_path_body, Hpath.
Qed.

End GeneratorFacts.

(** ** Claims on the entry point and on the planner page *)

(** Concrete collaborators, to run the entry point. *)
Definition mcp_up : string -> result unit := fun _ => Ok tt.

Definition mcp_down : string -> result unit :=
  fun _ => Raise (RuntimeError "connection refused").

Definition agent_says (answer : string)
  : string -> prompt -> result (option string) :=
  fun _ _ => Ok (Some answer).

(** The decoder of the sample runs: 900 levels are left to it. *)
Definition sample_loads : string -> result Json.value := Json.loads 900.

Lemma Json_loads_only depth s e :
  Json.loads depth s = Raise e -> is_Exception e = true.
Proof.
  unfold Json.loads.
  destruct (Json.scan_once _ _ _) as [v r | err];
    [destruct (Json.skip_ws r) | destruct err];
    intros E; inversion E; reflexivity.
Qed.

Lemma sample_loads_only s e :
  sample_loads s = Raise e -> is_Exception e = true.
Proof. apply Json_loads_only. Qed.

Lemma mcp_up_only k e : mcp_up k = Raise e -> is_Exception e = true.
Proof. discriminate. Qed.

Lemma mcp_down_only k e : mcp_down k = Raise e -> is_Exception e = true.
Proof. intros E. inversion E. reflexivity. Qed.

Lemma agent_says_only answer k p e :
  agent_says answer k p = Raise e -> is_Exception e = true.
Proof. discriminate. Qed.

(** The fallback synthesizer can itself raise: by a division by zero when a
    negative day count cancels the drawn prices under a negative budget, and
    by running past the last day of the calendar.  The entry point then
    raises too. *)
Example fallback_can_raise_ZeroDivisionError :
  fst (_generate_fallback_itineraries "Tokyo" (-3) "museums" (-1) 1
         (Some 739000) (world_of [0; 40; 0]%N 739000))
  = Raise ZeroDivisionError.
Proof. vm_compute. reflexivity. Qed.

Example generate_raises_what_fallback_raises :
  fst (generate_itineraries sample_loads mcp_down (agent_says "[]")
         "Paris" 1 "museums" 1500 "model-key" "maps-key" 3 (Some MAXORDINAL)
         sample_world)
  = Raise OverflowError.
Proof. vm_compute. reflexivity. Qed.

(** The value of a run that returned. *)
Definition value_of {A} (r : result A) : option A :=
  match r with Ok a => Some a | Raise _ => None end.

(** The decoder at work: an escape is one character of the decoded text;
    an integer of 4301 digits is refused by [int]; a document nested deeper
    than the levels left stops the decoder, and the entry point then falls
    back from its outer handler, as for any error that is no
    [JSONDecodeError]. *)
Definition quoted (s : string) : string :=
  String Json.quote (s ++ String Json.quote EmptyString).

Example loads_decodes_escapes :
  sample_loads (quoted "a\nb")
  = Ok (Json.Str (String "a" (String "010" (String "b" EmptyString)))) /\
  option_map (fun v => py_len (FromAgent v))
    (value_of (sample_loads (quoted "a\nb"))) = Some (Ok 3) /\
  option_map (fun v => py_len (FromAgent v))
    (value_of (sample_loads (quoted (Json.utf8 233 ++ Json.utf8 128512))))
  = Some (Ok 2) /\
  sample_loads (quoted "\ud83d\ude00") = Ok (Json.Str (Json.utf8 128512)).
Proof. vm_compute. repeat split; reflexivity. Qed.

Example loads_refuses_long_integers :
  sample_loads (string_of_list_ascii (repeat "7"%char 4300))
  = Ok (Json.Int ((10 ^ 4300 - 1) / 9 * 7)) /\
  sample_loads (string_of_list_ascii (repeat "7"%char 4301))
  = Raise ValueError.
Proof. vm_compute. split; reflexivity. Qed.

Example loads_stops_at_the_levels_left :
  Json.loads 3 "[[[1]]]"
  = Ok (Json.Array [Json.Array [Json.Array [Json.Int 1]]]) /\
  Json.loads 2 "[[[1]]]" = Raise RecursionError /\
  exists l,
    fst (generate_itineraries (Json.loads 2) mcp_up (agent_says "[[[1]]]")
           "Paris" 3 "museums" 1500 "model-key" "maps-key" 3 (Some 739000)
           sample_world) = Ok (FromFallback l) /\
    List.length l = 3%nat.
Proof.
  split; [vm_compute; reflexivity |]. split; [vm_compute; reflexivity |].
  eexists. split; vm_compute; reflexivity.
Qed.

(** C3.  The entry point degrades to the fallback synthesizer.  With
    collaborators that fail by raising exceptions (of class Exception),
    every call ends with the decoded agent answer or with the outcome of a
    run of the fallback synthesizer; a failure of the oracle, of the
    connection, of the agent or of the decoding gives the latter; an error
    reaches the caller only when the fallback synthesizer raised it; and
    for the agent answer "no json here" the call returns num_itineraries
    fallback itineraries, with a budget from 0 up to 2^1023 and dates
    inside the calendar, where the synthesizer does not raise. *)
Theorem generate_degrades_to_fallback :
  forall json_loads mcp_connect agent_arun,
    (forall s e, json_loads s = Raise e -> is_Exception e = true) ->
    (forall k e, mcp_connect k = Raise e -> is_Exception e = true) ->
    (forall k p e, agent_arun k p = Raise e -> is_Exception e = true) ->
    forall destination num_days preferences budget gemini_key google_maps_key
           num_itineraries start_date w,
      let start := match start_date with Some d => d | None => today w end in
      let fallback :=
        _generate_fallback_itineraries destination num_days preferences budget
          num_itineraries (Some start) in
      let run :=
        generate_itineraries json_loads mcp_connect agent_arun destination
          num_days preferences budget gemini_key google_maps_key
          num_itineraries start_date w in
      ((exists w1, run = as_generated (fallback w1)) \/
       (exists v w2,
           agent_path json_loads mcp_connect agent_arun destination num_days
             preferences budget gemini_key google_maps_key num_itineraries
             start w v w2 /\
           run = (Ok (FromAgent v), w2))) /\
      (((exists e w1,
            _get_weather_forecast destination start num_days w = (Raise e, w1)) \/
        (exists fc w1 e w2,
            _get_weather_forecast destination start num_days w = (Ok fc, w1) /\
            _check_natural_disasters destination start w1 = (Raise e, w2)) \/
        (exists e, mcp_connect google_maps_key = Raise e) \/
        (forall p, exists e, agent_arun gemini_key p = Raise e) \/
        (forall p, agent_arun gemini_key p = Ok None) \/
        (forall p, exists c e,
            agent_arun gemini_key p = Ok (Some c) /\
            json_loads (extract c) = Raise e)) ->
       exists w1, run = as_generated (fallback w1)) /\
      (forall e, fst run = Raise e -> exists w1, fst (fallback w1) = Raise e) /\
      (mcp_connect google_maps_key = Ok tt ->
       (forall p, agent_arun gemini_key p = Ok (Some "no json here")) ->
       json_loads "no json here" = Raise JSONDecodeError ->
       0 <= budget < 2 ^ 1023 ->
       1 <= start -> start + Z.max 0 num_days <= MAXORDINAL ->
       exists l,
         fst run = Ok (FromFallback l) /\
         List.length l = Z.to_nat num_itineraries).
Proof.
  intros json_loads mcp_connect agent_arun Hjson Hmcp Hagent destination
         num_days preferences budget gemini_key google_maps_key
         num_itineraries start_date w start fallback run.
  pose proof (generate_cases json_loads mcp_connect agent_arun Hjson Hmcp
                Hagent destination num_days preferences budget gemini_key
                google_maps_key num_itineraries start_date w) as Hcases.
  cbv zeta in Hcases. fold start in Hcases. fold run in Hcases.
  fold fallback in Hcases.
  assert (Hno : forall P : Prop,
             (forall v w2,
                 agent_path json_loads mcp_connect agent_arun destination
                   num_days preferences budget gemini_key google_maps_key
                   num_itineraries start w v w2 -> P) ->
             (exists w1, run = as_generated (fallback w1)) \/ P).
  { intros P HP. destruct Hcases as [H | (v & w2 & Hpath & _)].
    - left. exact H.
    - right. eapply HP, Hpath. }
  split; [exact Hcases |]. split; [| split].
  - intros Hfail.
    destruct (Hno False) as [H | []]; [| exact H].
    intros v w2 (fc & w1 & alerts & c & Hfc & Hal & Hc & Ha & Hj).
    destruct Hfail as [(e & w1' & H) | [(fc' & w1' & e & w2' & H1 & H2)
      | [(e & H) | [H | [H | H]]]]].
    + congruence.
    + rewrite Hfc in H1. inversion H1; subst. congruence.
    + congruence.
    + match type of Ha with agent_arun _ ?p = _ =>
        destruct (H p) as (e & He) end. congruence.
    + match type of Ha with agent_arun _ ?p = _ => specialize (H p) end.
      congruence.
    + match type of Ha with agent_arun _ ?p = _ =>
        destruct (H p) as (c' & e & Hc' & He) end.
      rewrite Ha in Hc'. inversion Hc'; subst. congruence.
  - intros e He. destruct Hcases as [(w1 & H) | (v & w2 & _ & H)].
    + exists w1. rewrite H in He. unfold as_generated in He. cbn [fst] in He.
      destruct (fst (fallback w1)); [discriminate |].
      inversion He. reflexivity.
    + rewrite H in He. discriminate.
  - intros Hc Ha Hj Hsign Hstart Hend.
    destruct (Hno False) as [(w1 & H) | []].
    + intros v w2 (fc & w1 & alerts & c & _ & _ & _ & Hac & Hjc).
      rewrite Ha in Hac. inversion Hac; subst c.
      change (extract "no json here") with "no json here" in Hjc. congruence.
    + destruct (sure_fallback destination num_days preferences budget
                  num_itineraries start Hsign Hstart Hend w1)
        as (l & w2 & Hrun & Hlen).
      exists l. split; [| exact Hlen].
      rewrite H. unfold as_generated, fallback. rewrite Hrun. reflexivity.
Qed.

Lemma generate_degrades_to_fallback_witness :
  (forall s e, sample_loads s = Raise e -> is_Exception e = true) /\
  mcp_up "maps-key" = Ok tt /\
  sample_loads "no json here" = Raise JSONDecodeError /\
  0 <= 1500 < 2 ^ 1023 /\
  1 <= 739000 /\ 739000 + Z.max 0 3 <= MAXORDINAL /\
  exists l,
    fst (generate_itineraries sample_loads mcp_up (agent_says "no json here")
           "Paris" 3 "museums" 1500 "model-key" "maps-key" 3 (Some 739000)
           sample_world) = Ok (FromFallback l) /\
    List.length l = Z.to_nat 3.
Proof.
  split; [exact sample_loads_only |]. split; [reflexivity |].
  split; [reflexivity |].
  assert (H0 : 0 <= 1500 < 2 ^ 1023) by (split; [lia | reflexivity]).
  assert (H1 : 1 <= 739000) by lia.
  assert (H2 : 739000 + Z.max 0 3 <= MAXORDINAL) by (unfold MAXORDINAL; lia).
  split; [exact H0 |]. split; [exact H1 |]. split; [exact H2 |].
  apply (generate_degrades_to_fallback sample_loads mcp_up
           (agent_says "no json here") sample_loads_only mcp_up_only
           (agent_says_only "no json here") "Paris" 3 "museums" 1500
           "model-key" "maps-key" 3 (Some 739000) sample_world).
  - reflexivity.
  - intros p. reflexivity.
  - reflexivity.
  - exact H0.
  - exact H1.
  - exact H2.
Defined.

(** C2, as the code falsifies it.  The agent answers with a text whose
    bracketed span decodes to a list of two numbers; the request was for
    three itineraries; the call returns that list as it is. *)
Lemma generate_agent_answer_unchecked_counterexample :
  fst (generate_itineraries sample_loads mcp_up
         (agent_says "I found these options: [1, 2]")
         "Paris" 3 "museums" 1500 "model-key" "maps-key" 3 (Some 739000)
         sample_world)
  = Ok (FromAgent (Json.Array [Json.Int 1; Json.Int 2])) /\
  py_len (FromAgent (Json.Array [Json.Int 1; Json.Int 2])) = Ok 2 /\
  2 <> 3.
Proof.
  split; [vm_compute; reflexivity |]. split; [reflexivity | lia].
Qed.

(** C2, amended.  A request for N >= 0 itineraries with num_days >= 0,
    0 < budget < 2^1023 and dates inside the calendar: on the agent path
    the call returns the decoded answer as it is, whatever its length and
    shape; otherwise it returns exactly N itineraries of the fallback
    synthesizer, each with the day entries "Day 1" to "Day num_days" in
    order, a non-negative total_cost, and every day planned (weather
    alternatives included) against the forecast of the synthesizer's
    run. *)
Theorem generate_count_on_each_path :
  forall json_loads mcp_connect agent_arun,
    (forall s e, json_loads s = Raise e -> is_Exception e = true) ->
    (forall k e, mcp_connect k = Raise e -> is_Exception e = true) ->
    (forall k p e, agent_arun k p = Raise e -> is_Exception e = true) ->
    forall destination num_days preferences budget gemini_key google_maps_key
           num_itineraries start_date w,
      let start := match start_date with Some d => d | None => today w end in
      let run :=
        generate_itineraries json_loads mcp_connect agent_arun destination
          num_days preferences budget gemini_key google_maps_key
          num_itineraries start_date w in
      0 <= num_itineraries -> 0 <= num_days -> 0 < budget < 2 ^ 1023 ->
      1 <= start -> start + num_days <= MAXORDINAL ->
      (forall v w2,
          agent_path json_loads mcp_connect agent_arun destination num_days
            preferences budget gemini_key google_maps_key num_itineraries
            start w v w2 ->
          run = (Ok (FromAgent v), w2)) /\
      ((exists v w2,
           agent_path json_loads mcp_connect agent_arun destination num_days
             preferences budget gemini_key google_maps_key num_itineraries
             start w v w2) \/
       (exists l w1 fc w2,
           fst run = Ok (FromFallback l) /\
           Z.of_nat (List.length l) = num_itineraries /\
           _get_weather_forecast destination start num_days w1 = (Ok fc, w2) /\
           forall it, In it l ->
             dict_keys (Itinerary.daily_itinerary it)
               = map day_label (range 1 (num_days + 1)) /\
             0 <= Itinerary.total_cost it /\
             days_ok start fc (range 1 (num_days + 1))
               (Itinerary.daily_itinerary it))).
Proof.
  intros json_loads mcp_connect agent_arun Hjson Hmcp Hagent destination
         num_days preferences budget gemini_key google_maps_key
         num_itineraries start_date w start run HN Hdays Hbudget Hstart Hend.
  split.
  - intros v w2 Hpath. apply agent_path_run; assumption.
  - destruct (generate_cases json_loads mcp_connect agent_arun Hjson Hmcp
                Hagent destination num_days preferences budget gemini_key
                google_maps_key num_itineraries start_date w)
      as [(w1 & H) | (v & w2 & Hpath & _)].
    2: { left. exists v, w2. exact Hpath. }
    right. fold start in H. fold run in H.
    destruct (sure_fallback destination num_days preferences budget
                num_itineraries start ltac:(lia)
                Hstart ltac:(lia) w1) as (l & w' & Hrun & Hlen).
    pose proof (fallback_inv _ _ _ _ _ _ _ _ _ Hrun) as Hinv.
    destruct Hinv as (start' & fc & w2 & alerts & w3 & Hs & Hfc & _ & _ & _ & Hall).
    cbn in Hs. subst start'.
    exists l, w1, fc, w2. split; [| split; [| split]].
    + rewrite H. unfold as_generated. rewrite Hrun. reflexivity.
    + rewrite Hlen. lia.
    + exact Hfc.
    + intros it Hin. rewrite Forall_forall in Hall.
      destruct (Hall it Hin) as (_ & (fl & acc & f & h & _ & _ & Hf & Hh & Hfit & _) & Hok).
      split; [eapply days_ok_keys, Hok |]. split; [| exact Hok].
      apply budget_fit_64 in Hfit; [| lia].
      eapply (budget_fit64_total budget num_days f h); [| | | | exact Hfit];
        lia.
Qed.

Lemma generate_count_on_each_path_witness :
  0 <= 3 /\ 0 <= 3 /\ 0 < 1500 < 2 ^ 1023 /\ 1 <= 739000 /\
  739000 + 3 <= MAXORDINAL /\
  exists l w1 fc w2,
    fst (generate_itineraries sample_loads mcp_down (agent_says "[]")
           "Paris" 3 "museums" 1500 "model-key" "maps-key" 3 (Some 739000)
           sample_world) = Ok (FromFallback l) /\
    Z.of_nat (List.length l) = 3 /\
    _get_weather_forecast "Paris" 739000 3 w1 = (Ok fc, w2) /\
    forall it, In it l ->
      dict_keys (Itinerary.daily_itinerary it)
        = map day_label (range 1 (3 + 1)) /\
      0 <= Itinerary.total_cost it /\
      days_ok 739000 fc (range 1 (3 + 1)) (Itinerary.daily_itinerary it).
Proof.
  assert (H2 : 739000 + 3 <= MAXORDINAL) by (unfold MAXORDINAL; lia).
  assert (Hb : 0 < 1500 < 2 ^ 1023) by (split; [lia | reflexivity]).
  do 5 (split; [first [exact H2 | exact Hb | lia] |]).
  destruct (generate_count_on_each_path sample_loads mcp_down (agent_says "[]")
              sample_loads_only mcp_down_only (agent_says_only "[]")
              "Paris" 3 "museums" 1500 "model-key" "maps-key" 3 (Some 739000)
              sample_world ltac:(lia) ltac:(lia) Hb ltac:(lia) H2)
    as (_ & [(v & w2 & (fc & w1 & alerts & c & _ & _ & Hc & _)) | H]).
  - discriminate Hc.
  - exact H.
Defined.

(** C7, as the code falsifies it.  A request for 0 days with budget 0 is
    not rejected: the page runs the generation and reports three options;
    and the entry point, called with an empty destination as well, returns
    three itineraries. *)
Lemma invalid_request_not_rejected_counterexample :
  option_map fst
    (value_of
       (fst (on_submit sample_loads mcp_down (agent_says "[]")
               "Paris" 739000 0 0 ["Cultural"] "" "model-key" "maps-key"
               sample_world)))
  = Some (st_success "Generated 3 itinerary options!") /\
  option_map py_len
    (value_of
       (fst (generate_itineraries sample_loads mcp_down (agent_says "[]")
               "" 0 "" 0 "model-key" "maps-key" 3 (Some 739000)
               sample_world)))
  = Some (Ok 3).
Proof. split; vm_compute; reflexivity. Qed.

(** C7, amended.  The planner page rejects an empty destination with the
    error "Please enter a destination" before any generation: nothing
    runs, the world is untouched.  The day count and the budget are not
    checked, by the page or by the entry point: for a destination that is
    not empty the generation runs on them whatever they are, the page
    stores what it returns, and shows the error when it raises.  With a
    start date of the calendar, a day count that keeps
    start_date + max(0, num_days) within date.max (zero and negative day
    counts included) and a budget from 0 up to 2^1023, the generation does
    return, with collaborators that fail by raising exceptions of class
    Exception. *)
Theorem only_empty_destination_is_rejected :
  forall json_loads mcp_connect agent_arun,
    (forall s e, json_loads s = Raise e -> is_Exception e = true) ->
    (forall k e, mcp_connect k = Raise e -> is_Exception e = true) ->
    (forall k p e, agent_arun k p = Raise e -> is_Exception e = true) ->
    forall destination start_date num_days budget travel_style preferences
           gemini_key google_maps_key w,
      let page :=
        on_submit json_loads mcp_connect agent_arun destination start_date
          num_days budget travel_style preferences gemini_key google_maps_key
          w in
      let run :=
        generate_itineraries json_loads mcp_connect agent_arun destination
          num_days (preferences ++ " " ++ join ", " travel_style)%string
          budget gemini_key google_maps_key 3 (Some start_date) w in
      (destination = EmptyString ->
       page = (Ok (st_error "Please enter a destination", None), w)) /\
      (destination <> EmptyString ->
       (forall g w', run = (Ok g, w') ->
                     exists shown, page = (Ok (shown, Some g), w')) /\
       (forall e w', run = (Raise e, w') -> is_Exception e = true ->
                     page = (Ok (st_error_generating e, None), w'))) /\
      (destination <> EmptyString ->
       0 <= budget < 2 ^ 1023 ->
       1 <= start_date -> start_date + Z.max 0 num_days <= MAXORDINAL ->
       exists g w',
         run = (Ok g, w') /\
         exists shown, page = (Ok (shown, Some g), w')).
Proof.
  intros json_loads mcp_connect agent_arun Hjson Hmcp Hagent destination
         start_date num_days budget travel_style preferences gemini_key
         google_maps_key w page run.
  assert (Hpage : destination <> EmptyString ->
    (forall g w', run = (Ok g, w') ->
                  exists shown, page = (Ok (shown, Some g), w')) /\
    (forall e w', run = (Raise e, w') -> is_Exception e = true ->
                  page = (Ok (st_error_generating e, None), w'))).
  { intros Hne. unfold page, on_submit.
    destruct (String.eqb_spec destination EmptyString) as [E | _];
      [contradiction |].
    fold run. split.
    - intros g w' Hrun. rewrite Hrun.
      destruct (py_len g); eexists; reflexivity.
    - intros e w' Hrun He. rewrite Hrun, He. reflexivity. }
  split; [| split].
  - intros ->. reflexivity.
  - exact Hpage.
  - intros Hne Hsign Hstart Hend.
    assert (Hrun : exists g w', run = (Ok g, w')).
    { destruct (generate_cases json_loads mcp_connect agent_arun Hjson Hmcp
                  Hagent destination num_days
                  (preferences ++ " " ++ join ", " travel_style)%string
                  budget gemini_key google_maps_key 3 (Some start_date) w)
        as [(w1 & H) | (v & w2 & _ & H)].
      - destruct (sure_fallback destination num_days
                    (preferences ++ " " ++ join ", " travel_style)%string
                    budget 3 start_date Hsign Hstart Hend w1)
          as (l & w' & Hfb & _).
        exists (FromFallback l), w'. unfold run. rewrite H.
        unfold as_generated. rewrite Hfb. reflexivity.
      - exists (FromAgent v), w2. exact H. }
    destruct Hrun as (g & w' & Hrun). exists g, w'. split; [exact Hrun |].
    apply (proj1 (Hpage Hne)), Hrun.
Qed.

Lemma only_empty_destination_is_rejected_witness :
  "Paris" <> EmptyString /\
  0 <= 0 < 2 ^ 1023 /\
  1 <= 739000 /\ 739000 + Z.max 0 0 <= MAXORDINAL /\
  exists g w',
    generate_itineraries sample_loads mcp_down (agent_says "[]") "Paris" 0
      ("" ++ " " ++ join ", " ["Cultural"])%string 0 "model-key" "maps-key" 3
      (Some 739000) sample_world = (Ok g, w') /\
    exists shown,
      on_submit sample_loads mcp_down (agent_says "[]") "Paris" 739000 0 0
        ["Cultural"] "" "model-key" "maps-key" sample_world
      = (Ok (shown, Some g), w').
Proof.
  assert (H0 : "Paris" <> EmptyString) by discriminate.
  assert (H1 : 0 <= 0 < 2 ^ 1023) by (split; [lia | reflexivity]).
  assert (H2 : 1 <= 739000) by lia.
  assert (H3 : 739000 + Z.max 0 0 <= MAXORDINAL) by (unfold MAXORDINAL; lia).
  split; [exact H0 |]. split; [exact H1 |]. split; [exact H2 |].
  split; [exact H3 |].
  exact (proj2 (proj2 (only_empty_destination_is_rejected sample_loads
                         mcp_down (agent_says "[]") sample_loads_only
                         mcp_down_only (agent_says_only "[]") "Paris" 739000
                         0 0 ["Cultural"] "" "model-key" "maps-key"
                         sample_world)) H0 H1 H2 H3).
Defined.

(* ================================================================= *)
(** * Further properties of the generator *)

(** ** Which exception a run raises *)

(** [raises_only P m]: whatever [m] raises satisfies [P]. *)
Definition raises_only {A} (P : exn -> Prop) (m : M A) : Prop :=
  forall w e w', m w = (Raise e, w') -> P e.

Lemma bind_cases {A B} (m : M A) (k : A -> M B) w e w' :
  bind m k w = (Raise e, w') ->
  m w = (Raise e, w') \/
  exists a w1, m w = (Ok a, w1) /\ k a w1 = (Raise e, w').
Proof.
  unfold bind. destruct (m w) as [[a | e0] w1]; intros E.
  - right. exists a, w1. split; [reflexivity | exact E].
  - left. inversion E. reflexivity.
Qed.

Lemma sure_not_Raise {A} (m : M A) (P : A -> Prop) w e w' :
  sure m P -> m w = (Raise e, w') -> False.
Proof.
  intros Hs E. destruct (Hs w) as (a & w1 & E1 & _). congruence.
Qed.

Lemma raises_ret {A} P (a : A) : raises_only P (ret a).
Proof. intros w e w' E. discriminate E. Qed.

Lemma raises_sure {A} P (m : M A) (Q : A -> Prop) : sure m Q -> raises_only P m.
Proof. intros Hs w e w' E. exfalso. eapply sure_not_Raise; eassumption. Qed.

Lemma raises_bind {A B} P (m : M A) (k : A -> M B) :
  raises_only P m ->
  (forall a w w1, m w = (Ok a, w1) -> raises_only P (k a)) ->
  raises_only P (bind m k).
Proof.
  intros Hm Hk w e w' E. apply bind_cases in E.
  destruct E as [E | (a & w1 & E1 & E2)].
  - eapply Hm, E.
  - eapply Hk; eassumption.
Qed.

Lemma raises_mapM {A B} P (f : A -> M B) l :
  (forall x, In x l -> raises_only P (f x)) -> raises_only P (mapM f l).
Proof.
  induction l as [| x l IH]; simpl; intros Hf.
  - apply raises_ret.
  - apply raises_bind; [apply Hf; left; reflexivity |]. intros y w w1 _.
    apply raises_bind; [apply IH; intros; apply Hf; right; assumption |].
    intros ys w2 w3 _. apply raises_ret.
Qed.

(** A loop with an accumulator: under an invariant kept by the rounds that
    return, a raise of the loop is a raise of a round run under it. *)
Lemma raises_foldM {A S} P (f : S -> A -> M S) (I : list A -> S -> Prop) l :
  (forall pre x post s w s' w',
      l = pre ++ x :: post -> I pre s -> f s x w = (Ok s', w') ->
      I (pre ++ [x]) s') ->
  (forall pre x post s,
      l = pre ++ x :: post -> I pre s -> raises_only P (f s x)) ->
  forall s0, I [] s0 -> raises_only P (foldM f l s0).
Proof.
  intros Hstep Hraise.
  enough (G : forall todo done s,
             l = done ++ todo -> I done s -> raises_only P (foldM f todo s)).
  { intros s0 H0. apply (G l []); auto. }
  induction todo as [| x todo IH]; simpl; intros done s El Hd.
  - apply raises_ret.
  - apply raises_bind; [eapply Hraise; eauto |].
    intros s1 w w1 E1. apply (IH (done ++ [x])).
    + rewrite El, <- app_assoc. reflexivity.
    + eapply Hstep; eauto.
Qed.

(** ** The weather oracle: coverage and the end of the calendar *)

Lemma forecast_entry_bounds df :
  forecast_entry_ok df ->
  55 <= high df <= 95 /\ 40 <= low df <= 85 /\ low df <= high df + 10 /\
  List.length (recommendations df) = 3%nat /\
  dict_get (condition df) weather_recommendations = Some (recommendations df).
Proof.
  intros (Hc & Hr & lo & hi & Hband & Hhigh & Hlow).
  rewrite Hr. unfold _get_weather_recommendations.
  simpl in Hc.
  repeat (destruct Hc as [Hc | Hc];
          [rewrite <- Hc in *; cbn in Hband; inversion Hband; subst lo hi;
           cbn; repeat split; lia |]).
  contradiction.
Qed.

(** X1.  Forecast coverage.  A forecast that is returned holds one entry
    per day of the trip, keyed by the consecutive dates from start_date on,
    in order (none for num_days <= 0).  The entry of each day has one of the
    five known conditions, a high in 55..95, a low in 40..85 that is at most
    10 above the high, and as recommendations the three lines of the table
    for its condition: the default advice is never used. *)
Theorem forecast_covers_every_day :
  forall destination start_date num_days w fc w',
    _get_weather_forecast destination start_date num_days w = (Ok fc, w') ->
    dict_keys fc = range start_date (start_date + Z.max 0 num_days) /\
    Z.of_nat (List.length fc) = Z.max 0 num_days /\
    forall d, start_date <= d < start_date + num_days ->
      exists df,
        dict_get d fc = Some df /\
        In (condition df) weather_conditions /\
        55 <= high df <= 95 /\ 40 <= low df <= 85 /\ low df <= high df + 10 /\
        List.length (recommendations df) = 3%nat /\
        dict_get (condition df) weather_recommendations
        = Some (recommendations df).
Proof.
  intros destination start_date num_days w fc w' E.
  pose proof (forecast_shape _ _ _ _ _ _ E) as [Hkeys Hok].
  split; [exact Hkeys |]. split.
  - apply (f_equal (@List.length _)) in Hkeys.
    unfold dict_keys in Hkeys. rewrite length_map, range_length in Hkeys. lia.
  - intros d Hd.
    destruct (forecast_lookup _ _ _ _ _ _ d E Hd) as (df & Hget & Hdf).
    exists df. split; [exact Hget |]. split; [apply Hdf |].
    apply forecast_entry_bounds, Hdf.
Qed.

(** One round of the oracle's loop draws the day's entry, then steps to the
    next date: past the last day of the calendar the step raises. *)
Lemma forecast_day_run fc cur i w :
  exists df w1,
    forecast_day (fc, cur) i w
    = if (1 <=? cur + 1) && (cur + 1 <=? MAXORDINAL)
      then (Ok (dict_set cur df fc, cur + 1), w1)
      else (Raise OverflowError, w1).
Proof.
  unfold forecast_day.
  destruct (sure_choice weather_conditions ltac:(discriminate) w)
    as (c & w1 & Hc & Hin).
  rewrite (bind_Ok _ _ _ _ _ Hc).
  destruct (temperatures_total c Hin) as (lo & hi & Hget & H1 & H2).
  destruct (sure_getitem _ _ _ Hget w1) as (tr & w2 & Hg & ->).
  rewrite (bind_Ok _ _ _ _ _ Hg). cbn [fst snd].
  destruct (sure_randint lo hi H1 w2) as (h & w3 & Hh & _).
  rewrite (bind_Ok _ _ _ _ _ Hh).
  destruct (sure_randint (lo - 15) (hi - 10) H2 w3) as (l & w4 & Hl & _).
  rewrite (bind_Ok _ _ _ _ _ Hl).
  eexists _, w4. unfold bind, add_days.
  destruct ((1 <=? cur + 1) && (cur + 1 <=? MAXORDINAL)); reflexivity.
Qed.

Lemma forecast_loop_overflow l : forall fc cur w,
  1 <= cur <= MAXORDINAL -> MAXORDINAL < cur + Z.of_nat (List.length l) ->
  exists w', foldM forecast_day l (fc, cur) w = (Raise OverflowError, w').
Proof.
  induction l as [| x l IH]; intros fc cur w Hcur Hlen.
  - simpl in Hlen. lia.
  - cbn [foldM]. destruct (forecast_day_run fc cur x w) as (df & w1 & Hrun).
    destruct (Z.leb_spec 1 (cur + 1)); [| lia].
    destruct (Z.leb_spec (cur + 1) MAXORDINAL); cbn [andb] in Hrun.
    + rewrite (bind_Ok _ _ _ _ _ Hrun). apply IH; [lia |].
      cbn [List.length] in Hlen. lia.
    + exists w1. apply bind_Raise, Hrun.
Qed.

(** X2.  The forecast and the end of the calendar.  For a start date of the
    calendar the oracle returns when start_date + num_days does not pass
    date.max, and raises OverflowError when it does: the loop steps to the
    next date after every day, the last one included, so a trip whose last
    day is date.max itself already raises. *)
Theorem forecast_stops_at_calendar_end :
  forall destination start_date num_days w,
    1 <= start_date <= MAXORDINAL ->
    (start_date + Z.max 0 num_days <= MAXORDINAL ->
     exists fc w',
       _get_weather_forecast destination start_date num_days w = (Ok fc, w')) /\
    (MAXORDINAL < start_date + Z.max 0 num_days ->
     exists w',
       _get_weather_forecast destination start_date num_days w
       = (Raise OverflowError, w')).
Proof.
  intros destination start_date num_days w Hstart. split.
  - intros Hend.
    destruct (sure_forecast destination start_date num_days
                (proj1 Hstart) Hend w) as (fc & w' & E & _).
    exists fc, w'. exact E.
  - intros Hend. unfold _get_weather_forecast.
    destruct (forecast_loop_overflow (range 0 num_days) [] start_date w Hstart)
      as (w' & E).
    + rewrite range_length. lia.
    + exists w'. apply bind_Raise, E.
Qed.

Lemma forecast_stops_at_calendar_end_witness :
  1 <= MAXORDINAL <= MAXORDINAL /\
  MAXORDINAL < MAXORDINAL + Z.max 0 1 /\
  exists w',
    _get_weather_forecast "Paris" MAXORDINAL 1 sample_world
    = (Raise OverflowError, w').
Proof.
  assert (H1 : 1 <= MAXORDINAL <= MAXORDINAL) by (unfold MAXORDINAL; lia).
  assert (H2 : MAXORDINAL < MAXORDINAL + Z.max 0 1) by lia.
  split; [exact H1 |]. split; [exact H2 |].
  exact (proj2 (forecast_stops_at_calendar_end "Paris" MAXORDINAL 1
                  sample_world H1) H2).
Defined.

(** ** The risk oracle *)

(** X3.  One alert.  The risk oracle always returns, with a list of exactly
    one message of its table.  For a destination that contains none of the
    five disaster-prone names the message is "No significant natural
    disasters reported" and no random number is drawn.  For a destination
    that contains one, a number is drawn: up to 0.7 the message is the same
    one, above 0.7 it is one of the four warnings. *)
Theorem disaster_alert_is_single :
  forall destination start_date w,
    let prone :=
      existsb (fun prone => contains prone destination) disaster_prone in
    exists a w',
      _check_natural_disasters destination start_date w = (Ok [a], w') /\
      In a disasters /\
      (prone = false ->
       a = "No significant natural disasters reported" /\ w' = w) /\
      (prone = true ->
       exists u w1,
         random w = (Ok u, w1) /\
         ((u <= 7 # 10)%Q ->
          a = "No significant natural disasters reported" /\ w' = w1) /\
         ((7 # 10 < u)%Q ->
          In a ["Minor earthquake activity reported in the region";
                "Tropical storm warning in effect";
                "Wildfire risk elevated due to dry conditions";
                "Flood watch in effect for low-lying areas"])).
Proof.
  intros destination start_date w prone. unfold _check_natural_disasters.
  fold prone. destruct prone.
  - destruct (sure_random w) as (u & w1 & Hu & _).
    rewrite (bind_Ok _ _ _ _ _
               (bind_Ok _ (fun u => ret (negb (Qle_bool u (7 # 10)))) _ _ _ Hu)).
    unfold ret at 1.
    destruct (Qle_bool u (7 # 10)) eqn:Hle; cbn [negb].
    + exists "No significant natural disasters reported", w1.
      split; [reflexivity |]. split; [left; reflexivity |].
      split; [discriminate |]. intros _. exists u, w1.
      split; [exact Hu |]. split; [auto |].
      intros Hlt. apply Qle_bool_iff in Hle.
      exfalso. apply (Qlt_not_le _ _ Hlt), Hle.
    + destruct (sure_choice (tl disasters) ltac:(discriminate) w1)
        as (a & w2 & Ha & Hin).
      rewrite (bind_Ok _ _ _ _ _ Ha). exists a, w2.
      split; [reflexivity |]. split; [right; exact Hin |].
      split; [discriminate |]. intros _. exists u, w1.
      split; [exact Hu |]. split.
      * intros Hle'. apply Qle_bool_iff in Hle'. congruence.
      * intros _. exact Hin.
  - exists "No significant natural disasters reported", w.
    split; [reflexivity |]. split; [left; reflexivity |].
    split; [auto | discriminate].
Qed.

Definition sample_forecast : dict Z day_forecast :=
  match fst (_get_weather_forecast "Paris" 739000 3 sample_world) with
  | Ok fc => fc
  | Raise _ => []
  end.

Lemma forecast_covers_every_day_witness :
  dict_keys sample_forecast = range 739000 (739000 + Z.max 0 3) /\
  Z.of_nat (List.length sample_forecast) = Z.max 0 3.
Proof.
  assert (E : _get_weather_forecast "Paris" 739000 3 sample_world
              = (Ok sample_forecast,
                 snd (_get_weather_forecast "Paris" 739000 3 sample_world)))
    by (vm_compute; reflexivity).
  destruct (forecast_covers_every_day "Paris" 739000 3 sample_world
              sample_forecast _ E) as (Hkeys & Hlen & _).
  split; [exact Hkeys | exact Hlen].
Defined.

(** ** The errors of the fallback synthesizer *)

(** A float computed from finite floats that is not a NaN. *)
Definition is_nan (x : Float64.t) : bool :=
  match x with Float64.NaN => true | _ => false end.

Lemma of_Q_not_nan q : is_nan (Float64.of_Q q) = false.
Proof.
  unfold Float64.of_Q.
  destruct (Qle_bool (2 ^ 1024) (Qabs (Float64.round q))); reflexivity.
Qed.

Lemma mul_not_nan a y :
  ~ (a == 0)%Q -> is_nan y = false ->
  is_nan (Float64.mul (Float64.Finite a) y) = false.
Proof.
  intros Ha Hy. destruct y as [b | s |]; cbn [Float64.mul].
  - apply of_Q_not_nan.
  - destruct (Qeq_bool a 0) eqn:E; [| reflexivity].
    apply Qeq_bool_eq in E. contradiction.
  - discriminate Hy.
Qed.

Lemma div_not_nan x b :
  is_nan x = false -> is_nan (Float64.div x (Float64.Finite b)) = false.
Proof.
  intros Hx. destruct x as [a | s |]; cbn [Float64.div];
    [apply of_Q_not_nan | reflexivity | discriminate Hx].
Qed.

Lemma float_of_int_raises n w e w' :
  Binary64.float_of_int n w = (Raise e, w') -> e = OverflowError.
Proof.
  unfold Binary64.float_of_int.
  destruct (Float64.of_Q (inject_Z n)); intros E; inversion E; reflexivity.
Qed.

Lemma int_mul_float_raises n x w e w' :
  Binary64.int_mul_float n x w = (Raise e, w') -> e = OverflowError.
Proof.
  unfold Binary64.int_mul_float. intros E. apply bind_cases in E.
  destruct E as [E | (a & w1 & _ & E)]; [| discriminate E].
  eapply float_of_int_raises, E.
Qed.

Lemma float_div_int_raises x n w e w' :
  Binary64.float_div_int x n w = (Raise e, w') ->
  e = OverflowError \/ (e = ZeroDivisionError /\ n = 0).
Proof.
  unfold Binary64.float_div_int. intros E. apply bind_cases in E.
  destruct E as [E | (a & w1 & Ha & E)].
  - left. eapply float_of_int_raises, E.
  - apply float_of_int_inv in Ha. destruct Ha as (-> & _ & ->).
    destruct (Qeq_bool (Float64.round (inject_Z n)) 0) eqn:Hz;
      [| discriminate E].
    inversion E. right. split; [reflexivity |].
    destruct (Z.eq_dec n 0) as [Hn | Hn]; [exact Hn |].
    exfalso. apply (round_int_nonzero n Hn), Qeq_bool_eq, Hz.
Qed.

Lemma py_int_raises x w e w' :
  is_nan x = false -> Binary64.py_int x w = (Raise e, w') ->
  e = OverflowError.
Proof.
  intros Hx. destruct x as [q | s |]; cbn [Binary64.py_int]; intros E;
    [discriminate E | inversion E; reflexivity | discriminate Hx].
Qed.

(** [0 > budget * 0.9] only for a negative budget. *)
Lemma cap_negative budget cap w w' :
  Binary64.int_mul_float budget (Binary64.float_lit (9 # 10)) w
  = (Ok cap, w') ->
  is_nan cap = false /\ (Binary64.int_gt_float 0 cap = true -> budget < 0).
Proof.
  intros E. apply int_mul_float_inv in E. destruct E as (-> & _ & _).
  rewrite float_lit_09. cbn [Float64.mul]. split; [apply of_Q_not_nan |].
  intros G. destruct (Z_lt_le_dec budget 0) as [Hb | Hb]; [exact Hb |].
  exfalso.
  assert (Hq : (0 <= Float64.round (inject_Z budget)
                     * Float64.round (9 # 10))%Q).
  { apply Qmult_le_0_compat; [apply round_int_nonneg, Hb |].
    destruct c09_bounds as [H _]. lra. }
  revert G. unfold Float64.of_Q.
  destruct (Qle_bool (2 ^ 1024) _); cbn [Binary64.int_gt_float].
  - unfold Float64.is_negative.
    apply Qle_bool_iff in Hq. rewrite Hq. discriminate.
  - apply round_nonneg in Hq. apply Qle_bool_iff in Hq.
    change (inject_Z 0) with 0%Q. rewrite Hq. discriminate.
Qed.

(** What the budget fit can raise. *)
Lemma raises_fit_budget budget num_days f h :
  200 <= f <= 600 -> 80 <= h <= 300 ->
  raises_only
    (fun e =>
       (e = OverflowError /\
        (budget < 0 \/ 2 ^ 1023 <= budget \/ MAXORDINAL < num_days)) \/
       (e = ZeroDivisionError /\ budget < 0 /\ f + h * num_days = 0))
    (Binary64.fit_budget budget num_days f h).
Proof.
  intros Hf Hh w e w' E.
  assert (Hcase : budget < 0 \/ 2 ^ 1023 <= budget \/ MAXORDINAL < num_days).
  { destruct (Z_lt_le_dec budget 0) as [H1 | H1]; [auto |].
    destruct (Z_lt_le_dec budget (2 ^ 1023)) as [H2 | H2]; [| auto].
    destruct (Z_lt_le_dec MAXORDINAL num_days) as [H3 | H3]; [auto |].
    exfalso.
    destruct (fit_budget64_returns budget num_days f h w ltac:(lia) H3 Hf Hh)
      as (f' & h' & t & E'). congruence. }
  assert (Hrf : ~ (Float64.round (inject_Z f) == 0)%Q)
    by (apply round_int_nonzero; lia).
  assert (Hrh : ~ (Float64.round (inject_Z h) == 0)%Q)
    by (apply round_int_nonzero; lia).
  unfold Binary64.fit_budget in E.
  apply bind_cases in E. destruct E as [E | (cap & w1 & Hcap & E)].
  { apply int_mul_float_raises in E. auto. }
  destruct (cap_negative _ _ _ _ Hcap) as [Hnan Hneg].
  destruct (Binary64.int_gt_float (f + h * num_days) cap) eqn:G;
    [| discriminate E].
  apply bind_cases in E. destruct E as [E | (cap2 & w2 & Hcap2 & E)].
  { apply int_mul_float_raises in E. auto. }
  destruct (cap_negative _ _ _ _ Hcap2) as [Hnan2 _].
  apply bind_cases in E. destruct E as [E | (scale & w3 & Hscale & E)].
  { apply float_div_int_raises in E. destruct E as [-> | [-> Hz]]; [auto |].
    right. split; [reflexivity |]. split; [| exact Hz].
    apply Hneg. rewrite Hz in G. exact G. }
  apply float_div_int_inv in Hscale. destruct Hscale as (-> & ->).
  pose proof (div_not_nan cap2 (Float64.round (inject_Z (f + h * num_days)))
                Hnan2) as Hs.
  apply bind_cases in E. destruct E as [E | (sf & w4 & Hsf & E)].
  { apply int_mul_float_raises in E. auto. }
  apply int_mul_float_inv in Hsf. destruct Hsf as (-> & _ & ->).
  apply bind_cases in E. destruct E as [E | (f1 & w5 & _ & E)].
  { apply py_int_raises in E; [auto | apply mul_not_nan; assumption]. }
  apply bind_cases in E. destruct E as [E | (sh & w6 & Hsh & E)].
  { apply int_mul_float_raises in E. auto. }
  apply int_mul_float_inv in Hsh. destruct Hsh as (-> & _ & ->).
  apply bind_cases in E. destruct E as [E | (h1 & w7 & _ & E)].
  { apply py_int_raises in E; [auto | apply mul_not_nan; assumption]. }
  discriminate E.
Qed.

Lemma raises_add_days d n :
  raises_only (fun e => e = OverflowError /\ ~ 1 <= d + n <= MAXORDINAL)
    (add_days d n).
Proof.
  unfold add_days.
  destruct (Z.leb_spec 1 (d + n)); destruct (Z.leb_spec (d + n) MAXORDINAL);
    cbn [andb]; try apply raises_ret;
    intros w e w' E; inversion E; split; try reflexivity; lia.
Qed.

Lemma raises_fallback_day destination focus fc it cur day :
  raises_only (fun e => e = OverflowError /\ ~ 1 <= cur + 1 <= MAXORDINAL)
    (fallback_day destination focus fc (it, cur) day).
Proof.
  unfold fallback_day. apply raises_bind.
  - eapply raises_sure. apply sure_mapM. intros. apply sure_fallback_activity.
  - intros acts w w1 _. apply raises_bind; [apply raises_add_days |].
    intros. apply raises_ret.
Qed.

Lemma fallback_day_next destination focus fc it cur day w acc w' :
  fallback_day destination focus fc (it, cur) day w = (Ok acc, w') ->
  snd acc = cur + 1.
Proof.
  unfold fallback_day. intros E. inv_bind E. inv_bind E.
  apply add_days_inv in E1. destruct E1 as [-> _]. inv_ret E. reflexivity.
Qed.

(** What the synthesizer can raise for a trip that starts on a day of the
    calendar. *)
Definition fallback_error (num_days budget num_itineraries start_date : Z)
    (e : exn) : Prop :=
  (e = OverflowError /\
   ((1 <= num_days /\ MAXORDINAL < start_date + num_days) \/
    (0 < num_itineraries /\ (budget < 0 \/ 2 ^ 1023 <= budget)))) \/
  (e = ZeroDivisionError /\ budget < 0 /\ num_days < 0 /\ 0 < num_itineraries).

Lemma raises_fallback_itinerary destination num_days preferences budget
      num_itineraries start_date fc alerts i :
  1 <= start_date <= MAXORDINAL -> 0 < num_itineraries ->
  raises_only (fallback_error num_days budget num_itineraries start_date)
    (fallback_itinerary destination num_days preferences budget start_date fc
       alerts i).
Proof.
  intros Hstart HN. unfold fallback_itinerary.
  apply raises_bind; [eapply raises_sure, sure_choice; discriminate |].
  intros focus w0 w0' _.
  apply raises_bind; [eapply raises_sure, sure_randint; lia |].
  intros f w1 w1' Hf. apply randint_inv in Hf.
  apply raises_bind; [eapply raises_sure, sure_randint; lia |].
  intros h w2 w2' Hh. apply randint_inv in Hh.
  apply raises_bind.
  { intros w e w' E.
    apply (raises_fit_budget budget num_days f h ltac:(lia) ltac:(lia)) in E.
    destruct E as [(-> & Hcase) | (-> & Hb & Ht)].
    - left. split; [reflexivity |].
      destruct Hcase as [Hb | [Hb | Hd]]; [right | right | left];
        unfold MAXORDINAL in *; lia.
    - right. repeat split; try assumption. nia. }
  intros [[f' h'] t] w3 w3' _.
  apply raises_bind; [eapply raises_sure, sure_uuid4_str |]. intros id w4 w4' _.
  apply raises_bind; [eapply raises_sure, sure_choice; discriminate |].
  intros airline w5 w5' _.
  apply raises_bind; [eapply raises_sure, sure_randint; lia |].
  intros hours w6 w6' _.
  apply raises_bind; [eapply raises_sure, sure_randint; lia |].
  intros minutes w7 w7' _.
  apply raises_bind; [eapply raises_sure, sure_choice; discriminate |].
  intros hotel w8 w8' _.
  apply raises_bind; [eapply raises_sure, sure_uniform |].
  intros rating w9 w9' _.
  apply raises_bind; [| intros; apply raises_ret].
  apply (raises_foldM _ _
           (fun pre acc => snd acc = start_date + Z.of_nat (List.length pre))).
  - intros pre x post [it cur] w s' w' _ Hcur E. simpl in Hcur.
    apply fallback_day_next in E. rewrite E, length_app. simpl. lia.
  - intros pre x post [it cur] Hsplit Hcur. simpl in Hcur.
    apply range_split in Hsplit. destruct Hsplit as (Hx & _ & Hlt).
    intros w e w' E. apply raises_fallback_day in E.
    destruct E as (-> & Hout). left. split; [reflexivity |]. left. lia.
  - simpl. lia.
Qed.

Lemma raises_fallback destination num_days preferences budget
      num_itineraries start_date :
  1 <= start_date <= MAXORDINAL ->
  raises_only (fallback_error num_days budget num_itineraries start_date)
    (_generate_fallback_itineraries destination num_days preferences budget
       num_itineraries (Some start_date)).
Proof.
  intros Hstart. unfold _generate_fallback_itineraries.
  apply raises_bind; [apply raises_ret |]. intros d w0 w1 Hd. inv_ret Hd.
  apply raises_bind.
  { intros w2 e2 w2' E.
    destruct (Z_le_gt_dec (start_date + Z.max 0 num_days) MAXORDINAL)
      as [Hin | Hout].
    - exfalso. eapply sure_not_Raise; [| exact E].
      apply sure_forecast; [lia | exact Hin].
    - destruct (forecast_loop_overflow (range 0 num_days) [] start_date w2
                  Hstart) as (w3 & E3); [rewrite range_length; lia |].
      unfold _get_weather_forecast in E.
      rewrite (bind_Raise _ _ _ _ _ E3) in E. inversion E.
      left. split; [reflexivity |]. left. lia. }
  intros fc w2 w3 _.
  apply raises_bind; [eapply raises_sure, sure_disasters |].
  intros alerts w4 w5 _.
  apply raises_mapM. intros i Hi. apply range_In in Hi.
  apply raises_fallback_itinerary; [exact Hstart | lia].
Qed.

Lemma fallback_overflow destination num_days preferences budget
      num_itineraries start_date w :
  1 <= start_date <= MAXORDINAL ->
  MAXORDINAL < start_date + Z.max 0 num_days ->
  exists w',
    _generate_fallback_itineraries destination num_days preferences budget
      num_itineraries (Some start_date) w = (Raise OverflowError, w').
Proof.
  intros Hstart Hend. unfold _generate_fallback_itineraries.
  rewrite (bind_Ok _ _ w start_date w eq_refl).
  destruct (forecast_loop_overflow (range 0 num_days) [] start_date w
              Hstart) as (w3 & E3); [rewrite range_length; lia |].
  exists w3. unfold _get_weather_forecast.
  rewrite (bind_Raise _ _ _ _ _ (bind_Raise _ _ _ _ _ E3)). reflexivity.
Qed.

(** An int of 2^1024 or more is too large for a float. *)
Lemma float_of_int_overflow n w :
  2 ^ 1024 <= n -> Binary64.float_of_int n w = (Raise OverflowError, w).
Proof.
  intros Hn. unfold Binary64.float_of_int, Float64.of_Q.
  assert (Hq : (2 ^ 1024 <= inject_Z n)%Q).
  { rewrite <- (two_power_Z 1024) by lia. rewrite <- Zle_Qle. exact Hn. }
  pose proof (round_ge_pow2 1024 _ ltac:(lia) Hq) as Hr.
  assert (H0 : (0 <= Float64.round (inject_Z n))%Q).
  { eapply Qle_trans; [| exact Hr]. apply Qlt_le_weak, two_power_pos. }
  assert (Hc : Qle_bool (2 ^ 1024) (Qabs (Float64.round (inject_Z n)))
               = true).
  { apply Qle_bool_iff. rewrite Qabs_pos by exact H0. exact Hr. }
  rewrite Hc. reflexivity.
Qed.

Lemma fit_budget_overflow budget num_days f h w :
  2 ^ 1024 <= budget ->
  Binary64.fit_budget budget num_days f h w = (Raise OverflowError, w).
Proof.
  intros Hb. unfold Binary64.fit_budget, Binary64.int_mul_float.
  apply bind_Raise, bind_Raise, float_of_int_overflow, Hb.
Qed.

Lemma range_cons a b : a < b -> range a b = a :: range (a + 1) b.
Proof.
  intros Hab. unfold range.
  replace (Z.to_nat (b - a)) with (S (Z.to_nat (b - (a + 1)))) by lia.
  cbn [seq map]. f_equal; [lia |].
  rewrite <- seq_shift, map_map. apply map_ext. intros i. lia.
Qed.

Lemma fallback_budget_overflow destination num_days preferences budget
      num_itineraries start_date w :
  1 <= start_date -> start_date + Z.max 0 num_days <= MAXORDINAL ->
  0 < num_itineraries -> 2 ^ 1024 <= budget ->
  exists w',
    _generate_fallback_itineraries destination num_days preferences budget
      num_itineraries (Some start_date) w = (Raise OverflowError, w').
Proof.
  intros Hstart Hend HN Hb. unfold _generate_fallback_itineraries.
  rewrite (bind_Ok _ _ w start_date w eq_refl).
  destruct (sure_forecast destination start_date num_days Hstart Hend w)
    as (fc & w1 & E1 & _).
  rewrite (bind_Ok _ _ _ _ _ E1).
  destruct (sure_disasters destination start_date w1) as (al & w2 & E2 & _).
  rewrite (bind_Ok _ _ _ _ _ E2).
  rewrite (range_cons 0 num_itineraries HN). cbn [mapM].
  unfold fallback_itinerary.
  destruct (sure_choice focuses ltac:(discriminate) w2) as (fo & w3 & E3 & _).
  destruct (sure_randint 200 600 ltac:(lia) w3) as (f & w4 & E4 & _).
  destruct (sure_randint 80 300 ltac:(lia) w4) as (h & w5 & E5 & _).
  exists w5. apply bind_Raise.
  rewrite (bind_Ok _ _ _ _ _ E3), (bind_Ok _ _ _ _ _ E4),
    (bind_Ok _ _ _ _ _ E5).
  apply bind_Raise, fit_budget_overflow, Hb.
Qed.

(** X4.  Errors of the fallback synthesizer.  Called with a start date of
    the calendar, the synthesizer raises nothing but OverflowError or
    ZeroDivisionError.  OverflowError is raised only when num_days >= 1 and
    start_date + num_days passes date.max, or when at least one itinerary is
    requested for a budget that is negative or at least 2^1023;
    ZeroDivisionError only when budget < 0, num_days < 0 and at least one
    itinerary is requested.  Conversely OverflowError is raised whenever
    num_days >= 1 and start_date + num_days passes date.max, and, for a trip
    inside the calendar, whenever at least one itinerary is requested for a
    budget of 2^1024 or more, which [budget * 0.9] cannot convert to a
    float. *)
Theorem fallback_raises_only :
  forall destination num_days preferences budget num_itineraries start_date w,
    1 <= start_date <= MAXORDINAL ->
    let run :=
      _generate_fallback_itineraries destination num_days preferences budget
        num_itineraries (Some start_date) w in
    (forall e, fst run = Raise e ->
       (e = OverflowError /\
        ((1 <= num_days /\ MAXORDINAL < start_date + num_days) \/
         (0 < num_itineraries /\ (budget < 0 \/ 2 ^ 1023 <= budget)))) \/
       (e = ZeroDivisionError /\ budget < 0 /\ num_days < 0 /\
        0 < num_itineraries)) /\
    (1 <= num_days -> MAXORDINAL < start_date + num_days ->
     fst run = Raise OverflowError) /\
    (start_date + Z.max 0 num_days <= MAXORDINAL -> 0 < num_itineraries ->
     2 ^ 1024 <= budget -> fst run = Raise OverflowError).
Proof.
  intros destination num_days preferences budget num_itineraries start_date w
         Hstart run.
  split; [| split].
  - intros e He.
    apply (raises_fallback destination num_days preferences budget
             num_itineraries start_date Hstart w e (snd run)).
    fold run. destruct run as [r w']. simpl in He. subst r. reflexivity.
  - intros Hd Hend.
    destruct (fallback_overflow destination num_days preferences budget
                num_itineraries start_date w Hstart ltac:(lia)) as (w' & E).
    subst run. rewrite E. reflexivity.
  - intros Hend HN Hb.
    destruct (fallback_budget_overflow destination num_days preferences
                budget num_itineraries start_date w ltac:(lia) Hend HN Hb)
      as (w' & E).
    subst run. rewrite E. reflexivity.
Qed.

Lemma fallback_raises_only_witness :
  1 <= MAXORDINAL <= MAXORDINAL /\
  fst (_generate_fallback_itineraries "Paris" 1 "museums" 1500 3
         (Some MAXORDINAL) sample_world) = Raise OverflowError /\
  fst (_generate_fallback_itineraries "Paris" 3 "museums" (2 ^ 1024) 3
         (Some 739000) sample_world) = Raise OverflowError.
Proof.
  assert (H1 : 1 <= MAXORDINAL <= MAXORDINAL) by (unfold MAXORDINAL; lia).
  split; [exact H1 |]. split.
  - apply (proj1 (proj2 (fallback_raises_only "Paris" 1 "museums" 1500 3
                           MAXORDINAL sample_world H1))); lia.
  - apply (proj2 (proj2 (fallback_raises_only "Paris" 3 "museums" (2 ^ 1024)
                           3 739000 sample_world
                           ltac:(unfold MAXORDINAL; lia))));
      [unfold MAXORDINAL; lia | lia | lia].
Defined.

(** ** The entry point and a trip that runs past the calendar *)

(** X5.  A trip that runs past the calendar, at the entry point.  For a
    start date of the calendar and start_date + num_days past date.max, the
    entry point raises OverflowError whatever the collaborators do: the
    oracle's error is caught by the handler, whose call of the fallback
    synthesizer raises it again.  The planner page, for a destination that
    is not empty, then shows the error and stores no itineraries. *)
Theorem generate_raises_past_calendar :
  forall json_loads mcp_connect agent_arun destination num_days preferences
         budget gemini_key google_maps_key num_itineraries start_date
         travel_style w,
    1 <= start_date <= MAXORDINAL ->
    MAXORDINAL < start_date + Z.max 0 num_days ->
    fst (generate_itineraries json_loads mcp_connect agent_arun destination
           num_days preferences budget gemini_key google_maps_key
           num_itineraries (Some start_date) w)
    = Raise OverflowError /\
    (destination <> EmptyString ->
     fst (on_submit json_loads mcp_connect agent_arun destination start_date
            num_days budget travel_style preferences gemini_key
            google_maps_key w)
     = Ok (st_error_generating OverflowError, None)).
Proof.
  intros json_loads mcp_connect agent_arun destination num_days preferences
         budget gemini_key google_maps_key num_itineraries start_date
         travel_style w Hstart Hend.
  assert (Hgen : forall prefs n w0,
    fst (generate_itineraries json_loads mcp_connect agent_arun destination
           num_days prefs budget gemini_key google_maps_key n
           (Some start_date) w0) = Raise OverflowError).
  { intros prefs n w0. unfold generate_itineraries.
    rewrite (bind_Ok _ _ w0 start_date w0 eq_refl). cbv zeta.
    destruct (forecast_loop_overflow (range 0 num_days) [] start_date w0
                Hstart) as (w1 & E1); [rewrite range_length; lia |].
    erewrite try_catch_caught;
      [| apply bind_Raise; unfold _get_weather_forecast;
         apply bind_Raise, E1 | reflexivity].
    rewrite return_fallback_eq.
    destruct (fallback_overflow destination num_days prefs budget n
                start_date w1 Hstart Hend) as (w2 & E2).
    rewrite E2. reflexivity. }
  split; [apply Hgen |].
  intros Hne. unfold on_submit.
  destruct (String.eqb_spec destination EmptyString) as [E | _];
    [contradiction |].
  specialize (Hgen (preferences ++ " " ++ join ", " travel_style)%string 3 w).
  destruct (generate_itineraries _ _ _ _ _ _ _ _ _ _ _ w) as [[g | e] w'];
    simpl in Hgen; [discriminate |].
  inversion Hgen. reflexivity.
Qed.

Lemma generate_raises_past_calendar_witness :
  1 <= MAXORDINAL <= MAXORDINAL /\
  MAXORDINAL < MAXORDINAL + Z.max 0 1 /\
  fst (generate_itineraries sample_loads mcp_up (agent_says "[]") "Paris" 1
         "museums" 1500 "model-key" "maps-key" 3 (Some MAXORDINAL)
         sample_world) = Raise OverflowError.
Proof.
  assert (H1 : 1 <= MAXORDINAL <= MAXORDINAL) by (unfold MAXORDINAL; lia).
  assert (H2 : MAXORDINAL < MAXORDINAL + Z.max 0 1) by lia.
  split; [exact H1 |]. split; [exact H2 |].
  exact (proj1 (generate_raises_past_calendar sample_loads mcp_up
                  (agent_says "[]") "Paris" 1 "museums" 1500 "model-key"
                  "maps-key" 3 MAXORDINAL [] sample_world H1 H2)).
Defined.

(** ** The fallback synthesizer: what an itinerary is made of *)

(** [a] was built by a run of the activity block for this destination and
    focus. *)
Definition built_activity (destination focus : string) (a : Activity.t)
  : Prop :=
  exists condition j w w',
    fallback_activity destination focus condition j w = (Ok a, w').

Lemma dict_set_Forall_snd {K V} `{Key K} (R : V -> Prop) k v (d : dict K V) :
  Forall (fun e => R (snd e)) d -> R v ->
  Forall (fun e => R (snd e)) (dict_set k v d).
Proof.
  intros Hd Hv. induction d as [| [k' v'] d IH]; simpl.
  - constructor; [exact Hv | constructor].
  - inversion Hd; subst. destruct (key_eqb k k').
    + constructor; [exact Hv | assumption].
    + constructor; [assumption | apply IH; assumption].
Qed.

Lemma mapM_built {A B} (f : A -> M B) l w ys w' :
  mapM f l w = (Ok ys, w') ->
  Forall (fun y => exists x w1 w2, In x l /\ f x w1 = (Ok y, w2)) ys.
Proof.
  intros E. apply mapM_inv in E.
  induction E as [| x y xs ys0 (w1 & w2 & Hrun) _ IH]; constructor.
  - exists x, w1, w2. split; [left; reflexivity | exact Hrun].
  - eapply Forall_impl; [| exact IH].
    intros y0 (x0 & wa & wb & Hin & Hr). exists x0, wa, wb.
    split; [right; exact Hin | exact Hr].
Qed.

Lemma random_inv w u w' : random w = (Ok u, w') -> (0 <= u)%Q /\ (u < 1)%Q.
Proof.
  unfold random. intros E. inv_bind E. inv_ret E.
  assert (Hm : (v mod 2 ^ 53 < 2 ^ 53)%N) by (apply N.mod_lt; discriminate).
  change (2 ^ 53)%positive with 9007199254740992%positive.
  revert Hm. generalize (v mod 2 ^ 53)%N. intros n Hn.
  change (2 ^ 53)%N with 9007199254740992%N in Hn.
  split.
  - unfold Qle. cbn [Qnum Qden]. lia.
  - unfold Qlt. cbn [Qnum Qden]. lia.
Qed.

Lemma random_grid w u w' :
  random w = (Ok u, w') -> (u == 0)%Q \/ (1 # 9007199254740992 <= u)%Q.
Proof.
  unfold random. intros E. inv_bind E. inv_ret E.
  change (2 ^ 53)%positive with 9007199254740992%positive.
  generalize (v mod 2 ^ 53)%N. intros n.
  destruct (N.eq_dec n 0) as [-> | Hn].
  - left. reflexivity.
  - right. unfold Qle. cbn [Qnum Qden]. lia.
Qed.

(** The float that [random.uniform(3.5, 5.0)] returns. *)
Lemma uniform_rating w v w' :
  uniform (7 # 2) 5 w = (Ok v, w') ->
  (349 # 100 <= v)%Q /\ (v <= 501 # 100)%Q.
Proof.
  unfold uniform. intros E. inv_bind E. inv_ret E.
  pose proof (random_inv _ _ _ E0) as [Hu0 Hu1].
  pose proof (random_grid _ _ _ E0) as Hgrid.
  set (c := Float64.round (5 - (7 # 2))).
  assert (Hc : (c == 3 # 2)%Q) by (vm_compute; reflexivity).
  clearbody c.
  assert (Hp : (0 <= Float64.round (c * v0))%Q
               /\ (Float64.round (c * v0) <= 1501 # 1000)%Q).
  { destruct Hgrid as [Hz | Hg].
    - rewrite round_zero by (rewrite Hz; ring).
      split; discriminate.
    - assert (Ht : (1 # 18446744073709551616 <= c * v0)%Q) by nra.
      destruct (round_bounds _ Ht) as [Hlo Hhi]. split; nra. }
  destruct Hp as [Hp0 Hp1].
  set (p := Float64.round (c * v0)) in *.
  assert (Ht : (1 # 18446744073709551616 <= (7 # 2) + p)%Q) by lra.
  destruct (round_bounds _ Ht) as [Hlo Hhi].
  set (r := Float64.round ((7 # 2) + p)) in *.
  clearbody r p. clear - Hp0 Hp1 Hlo Hhi. split; lra.
Qed.

(** The itinerary as first built, before the day loop fills its plan. *)
Definition itinerary_header (destination : string) (num_days : Z)
    (preferences : string) (alerts : list string) (focus : string)
    (flight_price hotel_price_per_night total_cost : Z) (id airline : string)
    (hours minutes : Z) (hotel : string) (rating : Q) : Itinerary.t :=
  {| Itinerary.id := id;
     Itinerary.title := (focus ++ " " ++ destination ++ " Experience")%string;
     Itinerary.focus := focus;
     Itinerary.description :=
       ("A " ++ str num_days ++ "-day " ++ lower focus ++ " trip to "
        ++ destination ++ " focusing on " ++ preferences)%string;
     Itinerary.total_cost := total_cost;
     Itinerary.weather_considerations :=
       "Check local weather forecast and plan accordingly. Have indoor alternatives ready.";
     Itinerary.safety_recommendations := join " " alerts;
     Itinerary.flight_options :=
       [ {| Flight.airline := airline;
            Flight.price := flight_price;
            Flight.duration :=
              (str hours ++ "h " ++ str minutes ++ "m")%string;
            Flight.dates := "Flexible dates";
            Flight.source := "Fallback data" |} ];
     Itinerary.accommodation_options :=
       [ {| Accommodation.name := (hotel ++ " " ++ destination)%string;
            Accommodation.type := "Hotel";
            Accommodation.price_per_night := hotel_price_per_night;
            Accommodation.total_price := hotel_price_per_night * num_days;
            Accommodation.rating := round1 rating;
            Accommodation.location := "City Center";
            Accommodation.source := "Fallback data" |} ];
     Itinerary.daily_itinerary := [];
     Itinerary.unique_selling_point :=
       ("Perfect for travelers seeking a " ++ lower focus
        ++ " experience")%string |}.

Lemma fallback_itinerary_fields destination num_days preferences budget
      start_date fc alerts i w it w' :
  fallback_itinerary destination num_days preferences budget start_date fc
    alerts i w = (Ok it, w') ->
  exists focus f h f' h' t id airline hours minutes hotel rating,
    In focus focuses /\ 200 <= f <= 600 /\ 80 <= h <= 300 /\
    budget_fit budget num_days f h f' h' t /\
    In airline airlines /\ 2 <= hours <= 8 /\ 0 <= minutes <= 59 /\
    In hotel hotels /\ (349 # 100 <= rating)%Q /\ (rating <= 501 # 100)%Q /\
    it = Itinerary.set_daily_itinerary (Itinerary.daily_itinerary it)
           (itinerary_header destination num_days preferences alerts focus
              f' h' t id airline hours minutes hotel rating) /\
    Forall (fun entry => Forall (built_activity destination focus) (snd entry))
      (Itinerary.daily_itinerary it).
Proof.
  unfold fallback_itinerary. intros E.
  inv_bind E. apply choice_inv in E0.
  inv_bind E. apply randint_inv in E1.
  inv_bind E. apply randint_inv in E2.
  inv_bind E. destruct v2 as [[f' h'] t]. apply fit_budget_inv in E3.
  inv_bind E. inv_bind E. apply choice_inv in E5.
  inv_bind E. apply randint_inv in E6.
  inv_bind E. apply randint_inv in E7.
  inv_bind E. apply choice_inv in E8.
  inv_bind E. apply uniform_rating in E9.
  inv_bind E. inv_ret E.
  exists v, v0, v1, f', h', t, v2, v3, v4, v5, v6, v7.
  do 8 (split; [assumption |]). split; [apply E9 |]. split; [apply E9 |].
  match goal with
  | H : foldM _ _ (?it0, _) _ = _ |- _ =>
      apply (foldM_inv _
               (fun (_ : list Z) (acc : Itinerary.t * Z) =>
                  fst acc = Itinerary.set_daily_itinerary
                              (Itinerary.daily_itinerary (fst acc)) it0 /\
                  Forall (fun entry =>
                            Forall (built_activity destination v) (snd entry))
                    (Itinerary.daily_itinerary (fst acc)))) in H;
      [exact H | |]
  end.
  - intros pre x post [it1 cur] wa [it2 cur2] wb _ [Hit Hall] Hrun.
    cbn [fst snd] in *. unfold fallback_day in Hrun.
    apply bind_inv in Hrun. destruct Hrun as (acts & wc & Hacts & Hrun).
    apply mapM_built in Hacts.
    apply bind_inv in Hrun. destruct Hrun as (d' & wd & _ & Hrun).
    apply ret_inv in Hrun. destruct Hrun as [Hpair _].
    inversion Hpair; subst it2 cur2.
    unfold Itinerary.set_day. split.
    + match type of Hit with
      | _ = Itinerary.set_daily_itinerary _ ?it0 =>
      match goal with
      | |- Itinerary.set_daily_itinerary ?D _ = _ =>
          transitivity
            (Itinerary.set_daily_itinerary D
               (Itinerary.set_daily_itinerary
                  (Itinerary.daily_itinerary it1) it0));
            [f_equal; exact Hit | reflexivity]
      end end.
    + cbn [Itinerary.daily_itinerary Itinerary.set_daily_itinerary].
      apply dict_set_Forall_snd; [exact Hall |].
      eapply Forall_impl; [| exact Hacts].
      intros a (j & w1' & w2' & _ & Hr).
      eexists _, j, w1', w2'. exact Hr.
  - cbn [fst Itinerary.daily_itinerary]. split; [reflexivity | constructor].
Qed.

(** Every itinerary of a call comes from a run of the loop body, on the
    start date of the call. *)
Lemma fallback_each destination num_days preferences budget num_itineraries
      start_date w l w' it :
  _generate_fallback_itineraries destination num_days preferences budget
    num_itineraries start_date w = (Ok l, w') ->
  In it l ->
  exists start fc alerts i w1 w2,
    fallback_itinerary destination num_days preferences budget start fc alerts
      i w1 = (Ok it, w2).
Proof.
  intros E Hin. apply fallback_inv in E.
  destruct E as (start & fc & w2 & alerts & w3 & _ & _ & _ & Hloop & _).
  apply mapM_built in Hloop. rewrite Forall_forall in Hloop.
  destruct (Hloop it Hin) as (i & wa & wb & _ & Hrun).
  exists start, fc, alerts, i, wa, wb. exact Hrun.
Qed.

Lemma built_activity_inv destination focus a :
  built_activity destination focus a ->
  (forall pool,
      dict_get focus activities = Some pool -> In (Activity.name a) pool) /\
  (exists activity_type pool,
      dict_get activity_type activities = Some pool /\
      In (Activity.name a) pool) /\
  Activity.description a
  = ("Enjoy a " ++ lower (Activity.name a) ++ " experience in "
     ++ destination)%string /\
  Activity.location a = (destination ++ " City Center")%string /\
  Activity.source a = "Fallback data" /\
  20 <= Activity.cost a <= 100.
Proof.
  intros (condition & j & w & w' & E). unfold fallback_activity in E.
  apply bind_inv in E. destruct E as (ty & w1 & Hty & E).
  apply bind_inv in E. destruct E as (pool & w2 & Hpool & E).
  apply getitem_inv in Hpool. destruct Hpool as [Hpool ->].
  apply bind_inv in E. destruct E as (name & w3 & Hname & E).
  apply choice_inv in Hname.
  apply bind_inv in E. destruct E as (alt & w4 & _ & E).
  apply bind_inv in E. destruct E as (cost & w5 & Hcost & E).
  apply randint_inv in Hcost. apply ret_inv in E. destruct E as [-> _].
  cbn [Activity.name Activity.description Activity.location Activity.source
       Activity.cost].
  split; [| split; [| repeat split; lia]].
  - intros pool0 Hfocus. unfold dict_mem in Hty. rewrite Hfocus in Hty.
    apply ret_inv in Hty. destruct Hty as [-> _].
    rewrite Hfocus in Hpool. inversion Hpool; subst. exact Hname.
  - exists ty, pool. split; assumption.
Qed.

(** X6.  Activities follow the focus.  Every itinerary of the fallback
    synthesizer has one of the six focuses, and the title
    "<focus> <destination> Experience".  Each of its activities is named
    after an entry of the activity table: of the focus's own list when the
    focus has one (Adventure, Cultural, Relaxation, Food), of some list
    otherwise (Luxury, Budget).  Its description is
    "Enjoy a <name in lower case> experience in <destination>", its location
    "<destination> City Center", its source "Fallback data", and its cost
    lies in 20..100. *)
Theorem fallback_activities_follow_focus :
  forall destination num_days preferences budget num_itineraries start_date
         w l w',
    _generate_fallback_itineraries destination num_days preferences budget
      num_itineraries start_date w = (Ok l, w') ->
    forall it, In it l ->
      In (Itinerary.focus it) focuses /\
      Itinerary.title it
      = (Itinerary.focus it ++ " " ++ destination ++ " Experience")%string /\
      forall entry a,
        In entry (Itinerary.daily_itinerary it) -> In a (snd entry) ->
        (forall pool,
            dict_get (Itinerary.focus it) activities = Some pool ->
            In (Activity.name a) pool) /\
        (exists activity_type pool,
            dict_get activity_type activities = Some pool /\
            In (Activity.name a) pool) /\
        Activity.description a
        = ("Enjoy a " ++ lower (Activity.name a) ++ " experience in "
           ++ destination)%string /\
        Activity.location a = (destination ++ " City Center")%string /\
        Activity.source a = "Fallback data" /\
        20 <= Activity.cost a <= 100.
Proof.
  intros destination num_days preferences budget num_itineraries start_date
         w l w' E it Hin.
  destruct (fallback_each _ _ _ _ _ _ _ _ _ _ E Hin)
    as (start & fc & alerts & i & w1 & w2 & Hrun).
  apply fallback_itinerary_fields in Hrun.
  destruct Hrun as (focus & f & h & f' & h' & t & id & airline & hours
                    & minutes & hotel & u & Hfocus & _ & _ & _ & _ & _ & _ & _
                    & _ & _ & Hit & Hall).
  rewrite Hit. cbn [Itinerary.focus Itinerary.title Itinerary.daily_itinerary
    Itinerary.set_daily_itinerary itinerary_header].
  split; [exact Hfocus |]. split; [reflexivity |].
  intros entry a Hentry Ha. apply built_activity_inv.
  rewrite Forall_forall in Hall. specialize (Hall entry Hentry).
  rewrite Forall_forall in Hall. apply Hall, Ha.
Qed.

Lemma fallback_activities_follow_focus_witness :
  _generate_fallback_itineraries "Paris" 3 "museums" 1500 3 (Some 739000)
    sample_world = (Ok sample_itineraries, snd sample_run) /\
  forall it, In it sample_itineraries ->
    In (Itinerary.focus it) focuses /\
    forall entry a,
      In entry (Itinerary.daily_itinerary it) -> In a (snd entry) ->
      forall pool,
        dict_get (Itinerary.focus it) activities = Some pool ->
        In (Activity.name a) pool.
Proof.
  split; [exact sample_run_ok |].
  intros it Hin.
  destruct (fallback_activities_follow_focus "Paris" 3 "museums" 1500 3
              (Some 739000) sample_world sample_itineraries (snd sample_run)
              sample_run_ok it Hin) as (Hfocus & _ & Hall).
  split; [exact Hfocus |]. intros entry a Hentry Ha.
  apply (Hall entry a Hentry Ha).
Defined.

(** ** Prices *)

(** The prices kept by the budget fit, for a budget that is not negative:
    never above the drawn ones, the drawn ones exactly when 90% of the
    budget covers the drawn total, and zero for a zero budget. *)
Lemma budget_fit_prices budget num_days f h f' h' t :
  0 <= budget -> num_days <= MAXORDINAL ->
  200 <= f <= 600 -> 80 <= h <= 300 ->
  budget_fit budget num_days f h f' h' t ->
  0 <= f' <= f /\ 0 <= h' <= h /\
  (10 * (f + h * num_days) <= 9 * budget -> f' = f /\ h' = h) /\
  (budget = 0 -> 0 < f + h * num_days -> f' = 0 /\ h' = 0 /\ t = 0).
Proof.
  intros Hb Hd Hf Hh Hfit. apply budget_fit_64 in Hfit; [| exact Hb].
  destruct (budget_fit64_range _ _ _ _ _ _ _ Hb Hd Hf Hh Hfit) as [Hf' Hh'].
  split; [exact Hf' |]. split; [exact Hh' |].
  destruct Hfit as (Ht & [(Hle & Ef & Eh) | (Hlt & Ef & Eh)]).
  - split; [auto |]. intros -> Hpos. exfalso.
    rewrite cap_of_0 in Hle. change 0%Q with (inject_Z 0) in Hle.
    rewrite <- Zle_Qle in Hle. lia.
  - pose proof (scaled_total _ _ _ _ Hb Hd Hf Hh Hlt) as HT. split.
    + intros Hcover. exfalso. apply (Qlt_not_le _ _ Hlt).
      apply cap_covers; [lia | exact Hcover].
    + intros -> _. rewrite !scaled_of_0 in Ef, Eh.
      change (Binary64.trunc 0) with 0 in Ef, Eh. subst. lia.
Qed.

Lemma round1_tenths q :
  (349 # 100 <= q)%Q -> (q <= 501 # 100)%Q ->
  exists n, 35 <= n <= 50 /\ round1 q = (inject_Z n / 10)%Q.
Proof.
  intros Hlo Hhi. unfold round1.
  set (t := (q * 10)%Q). set (f := Qfloor t).
  assert (Ht1 : (349 # 10 <= t)%Q) by (unfold t; lra).
  assert (Ht2 : (t <= 501 # 10)%Q) by (unfold t; lra).
  pose proof (Qfloor_le t) as Hf1. pose proof (Qlt_floor t) as Hf2.
  fold f in Hf1, Hf2. rewrite inject_Z_plus in Hf2.
  change (inject_Z 1) with 1%Q in Hf2.
  assert (Hlow : f <= 34 -> (inject_Z f <= 34)%Q).
  { intros H. change 34%Q with (inject_Z 34). rewrite <- Zle_Qle. exact H. }
  assert (Hhigh : 50 <= f -> (50 <= inject_Z f)%Q).
  { intros H. change 50%Q with (inject_Z 50). rewrite <- Zle_Qle. exact H. }
  assert (Hkeep : (t - inject_Z f <= 1 # 2)%Q -> 35 <= f).
  { intros H. destruct (Z_le_gt_dec f 34) as [Hc | Hc]; [| lia].
    specialize (Hlow Hc). lra. }
  assert (Hup : (1 # 2 <= t - inject_Z f)%Q -> f + 1 <= 50).
  { intros H. destruct (Z_le_gt_dec 50 f) as [Hc | Hc]; [| lia].
    specialize (Hhigh Hc). lra. }
  assert (Hf34 : 34 <= f).
  { destruct (Z_le_gt_dec 34 f) as [Hc | Hc]; [exact Hc |].
    assert (H : (inject_Z f + 1 <= 34)%Q).
    { change 1%Q with (inject_Z 1). rewrite <- inject_Z_plus.
      change 34%Q with (inject_Z 34). rewrite <- Zle_Qle. lia. }
    lra. }
  assert (Hf50 : f <= 50).
  { destruct (Z_le_gt_dec f 50) as [Hc | Hc]; [exact Hc |].
    assert (H : (51 <= inject_Z f)%Q).
    { change 51%Q with (inject_Z 51). rewrite <- Zle_Qle. lia. }
    lra. }
  destruct (t - inject_Z f ?= 1 # 2)%Q eqn:C.
  - apply Qeq_alt in C.
    assert (H1 : 35 <= f) by (apply Hkeep; lra).
    assert (H2 : f + 1 <= 50) by (apply Hup; lra).
    destruct (Z.even f); eexists; (split; [| reflexivity]); lia.
  - apply Qlt_alt in C.
    assert (H1 : 35 <= f) by (apply Hkeep; lra).
    eexists. split; [| reflexivity]. lia.
  - apply Qgt_alt in C.
    assert (H2 : f + 1 <= 50) by (apply Hup; lra).
    eexists. split; [| reflexivity]. lia.
Qed.

(** X7.  Price ranges.  For a budget and a day count that are not negative,
    every itinerary of the fallback synthesizer has a flight price in
    0..600, a nightly price in 0..300 and a total_cost in
    0..600 + 300 x num_days.  When 90% of the budget covers the dearest
    draw (600 + 300 x num_days) the prices are never scaled: flight >= 200,
    nightly >= 80.  With a budget of 0 every price is scaled to 0: flight,
    nightly, accommodation total and total_cost are all 0. *)
Theorem fallback_prices_in_range :
  forall destination num_days preferences budget num_itineraries start_date
         w l w',
    0 <= budget -> 0 <= num_days ->
    _generate_fallback_itineraries destination num_days preferences budget
      num_itineraries start_date w = (Ok l, w') ->
    forall it, In it l ->
      exists fl acc,
        Itinerary.flight_options it = [fl] /\
        Itinerary.accommodation_options it = [acc] /\
        0 <= Flight.price fl <= 600 /\
        0 <= Accommodation.price_per_night acc <= 300 /\
        0 <= Itinerary.total_cost it <= 600 + 300 * num_days /\
        (10 * (600 + 300 * num_days) <= 9 * budget ->
         200 <= Flight.price fl /\ 80 <= Accommodation.price_per_night acc /\
         200 + 80 * num_days <= Itinerary.total_cost it) /\
        (budget = 0 ->
         Flight.price fl = 0 /\ Accommodation.price_per_night acc = 0 /\
         Accommodation.total_price acc = 0 /\ Itinerary.total_cost it = 0).
Proof.
  intros destination num_days preferences budget num_itineraries start_date
         w l w' Hb Hd E it Hin.
  apply fallback_inv in E.
  destruct E as (start & fc & w2 & alerts & w3 & _ & Hfc & _ & _ & _ & Hall).
  assert (Hcal : num_days <= MAXORDINAL).
  { destruct (Z.eq_dec num_days 0) as [-> | Hne]; [unfold MAXORDINAL; lia |].
    destruct (forecast_within_calendar _ _ _ _ _ _ Hfc ltac:(lia)). lia. }
  rewrite Forall_forall in Hall.
  destruct (Hall it Hin)
    as (_ & (fl & acc & f & h & Hfl & Hacc & Hf & Hh & Hfit & Hprice) & _).
  exists fl, acc. split; [exact Hfl |]. split; [exact Hacc |].
  pose proof (budget_fit_prices _ _ _ _ _ _ _ Hb Hcal Hf Hh Hfit)
    as (Hf' & Hh' & Hkeep & Hzero).
  pose proof (budget_fit_total _ _ _ _ _ _ _ Hfit) as Ht.
  assert (Hn : 0 <= Accommodation.price_per_night acc * num_days
               <= 300 * num_days).
  { split; [apply Z.mul_nonneg_nonneg; lia |].
    apply Z.mul_le_mono_nonneg_r; lia. }
  assert (Hhd : 80 * num_days <= h * num_days <= 300 * num_days).
  { split; apply Z.mul_le_mono_nonneg_r; lia. }
  split; [lia |]. split; [lia |]. split; [lia |]. split.
  - intros Hlarge. destruct Hkeep as [Ef Eh]; [lia |].
    rewrite Ef, Eh in *. lia.
  - intros Hb0. destruct (Hzero Hb0) as (Ef & Eh & Et); [lia |].
    rewrite Hprice, Ef, Eh, Et. lia.
Qed.

Lemma fallback_prices_in_range_witness :
  0 <= 1500 /\ 0 <= 3 /\
  forall it, In it sample_itineraries ->
    exists fl acc,
      Itinerary.flight_options it = [fl] /\
      Itinerary.accommodation_options it = [acc] /\
      0 <= Flight.price fl <= 600 /\
      0 <= Accommodation.price_per_night acc <= 300 /\
      0 <= Itinerary.total_cost it <= 600 + 300 * 3.
Proof.
  split; [lia |]. split; [lia |]. intros it Hin.
  destruct (fallback_prices_in_range "Paris" 3 "museums" 1500 3 (Some 739000)
              sample_world sample_itineraries (snd sample_run)
              ltac:(lia) ltac:(lia) sample_run_ok it Hin)
    as (fl & acc & H1 & H2 & H3 & H4 & H5 & _).
  exists fl, acc. exact (conj H1 (conj H2 (conj H3 (conj H4 H5)))).
Defined.

(** X8.  The flight and the accommodation.  Every itinerary of the fallback
    synthesizer has one flight, of one of the five airlines, with a
    duration "<h>h <m>m" for 2 <= h <= 8 and 0 <= m <= 59, the dates
    "Flexible dates" and the source "Fallback data"; and one accommodation,
    named "<hotel> <destination>" for one of the five hotels, of type
    "Hotel", located "City Center", whose rating is a number of tenths
    between 3.5 and 5.0. *)
Theorem fallback_flight_and_hotel :
  forall destination num_days preferences budget num_itineraries start_date
         w l w',
    _generate_fallback_itineraries destination num_days preferences budget
      num_itineraries start_date w = (Ok l, w') ->
    forall it, In it l ->
      exists fl acc airline hours minutes hotel n,
        Itinerary.flight_options it = [fl] /\
        Itinerary.accommodation_options it = [acc] /\
        In airline airlines /\ Flight.airline fl = airline /\
        2 <= hours <= 8 /\ 0 <= minutes <= 59 /\
        Flight.duration fl = (str hours ++ "h " ++ str minutes ++ "m")%string /\
        Flight.dates fl = "Flexible dates" /\
        Flight.source fl = "Fallback data" /\
        In hotel hotels /\
        Accommodation.name acc = (hotel ++ " " ++ destination)%string /\
        Accommodation.type acc = "Hotel" /\
        Accommodation.location acc = "City Center" /\
        Accommodation.source acc = "Fallback data" /\
        35 <= n <= 50 /\ Accommodation.rating acc = (inject_Z n / 10)%Q.
Proof.
  intros destination num_days preferences budget num_itineraries start_date
         w l w' E it Hin.
  destruct (fallback_each _ _ _ _ _ _ _ _ _ _ E Hin)
    as (start & fc & alerts & i & w1 & w2 & Hrun).
  apply fallback_itinerary_fields in Hrun.
  destruct Hrun as (focus & f & h & f' & h' & t & id & airline & hours
                    & minutes & hotel & rating & _ & _ & _ & _ & Hair
                    & Hhours & Hmin & Hhotel & Hr0 & Hr1 & Hit & _).
  destruct (round1_tenths rating Hr0 Hr1) as (n & Hn & Hr).
  rewrite Hit. cbn [Itinerary.flight_options Itinerary.accommodation_options
    Itinerary.set_daily_itinerary itinerary_header].
  eexists _, _, airline, hours, minutes, hotel, n.
  split; [reflexivity |]. split; [reflexivity |].
  cbn [Flight.airline Flight.duration Flight.dates Flight.source
       Accommodation.name Accommodation.type Accommodation.location
       Accommodation.source Accommodation.rating].
  repeat split; try assumption; try lia.
Qed.

Lemma fallback_flight_and_hotel_witness :
  _generate_fallback_itineraries "Paris" 3 "museums" 1500 3 (Some 739000)
    sample_world = (Ok sample_itineraries, snd sample_run) /\
  forall it, In it sample_itineraries ->
    exists fl acc n,
      Itinerary.flight_options it = [fl] /\
      Itinerary.accommodation_options it = [acc] /\
      In (Flight.airline fl) airlines /\
      35 <= n <= 50 /\ Accommodation.rating acc = (inject_Z n / 10)%Q.
Proof.
  split; [exact sample_run_ok |].
  intros it Hin.
  destruct (fallback_flight_and_hotel "Paris" 3 "museums" 1500 3 (Some 739000)
              sample_world sample_itineraries (snd sample_run)
              sample_run_ok it Hin)
    as (fl & acc & airline & hours & minutes & hotel & n & H1 & H2 & H3 & H4
        & _ & _ & _ & _ & _ & _ & _ & _ & _ & _ & Hn & Hr).
  exists fl, acc, n. rewrite H4.
  exact (conj H1 (conj H2 (conj H3 (conj Hn Hr)))).
Defined.

(** The rating is computed on floats: for the draw 1501199875790164 / 2^53
    the sum 3.5 + 1.5 x draw, a little under 3.75 as a real number, rounds
    to the float 3.75, and [round(3.75, 1)] is the tie that goes to the
    even tenth, 3.8. *)
Example rating_rounds_on_floats :
  option_map round1
    (value_of (fst (uniform (7 # 2) 5 (world_of [1501199875790164%N] 739000))))
  = Some (inject_Z 38 / 10)%Q /\
  ((7 # 2) + (3 # 2) * (1501199875790164 # 9007199254740992) < 15 # 4)%Q.
Proof. split; vm_compute; reflexivity. Qed.

(** X10.  No days.  For num_days <= 0 the fallback synthesizer still
    returns its itineraries, each with an empty daily_itinerary; the
    accommodation's total_price (nightly price x num_days) is then at most
    0 for a budget that is not negative. *)
Theorem fallback_without_days :
  forall destination num_days preferences budget num_itineraries start_date
         w l w',
    num_days <= 0 ->
    _generate_fallback_itineraries destination num_days preferences budget
      num_itineraries start_date w = (Ok l, w') ->
    forall it, In it l ->
      Itinerary.daily_itinerary it = [] /\
      exists acc,
        Itinerary.accommodation_options it = [acc] /\
        (0 <= budget -> Accommodation.total_price acc <= 0).
Proof.
  intros destination num_days preferences budget num_itineraries start_date
         w l w' Hd E it Hin.
  apply fallback_inv in E.
  destruct E as (start & fc & w2 & alerts & w3 & _ & _ & _ & _ & _ & Hall).
  rewrite Forall_forall in Hall.
  destruct (Hall it Hin)
    as (_ & (fl & acc & f & h & Hfl & Hacc & Hf & Hh & Hfit & Hprice) & Hdays).
  split.
  - unfold days_ok in Hdays.
    assert (Hr : range 1 (num_days + 1) = []).
    { unfold range. replace (Z.to_nat (num_days + 1 - 1)) with 0%nat by lia.
      reflexivity. }
    rewrite Hr in Hdays. inversion Hdays. reflexivity.
  - exists acc. split; [exact Hacc |]. intros Hb. rewrite Hprice.
    assert (Hcal : num_days <= MAXORDINAL) by (unfold MAXORDINAL; lia).
    pose proof (budget_fit_prices _ _ _ _ _ _ _ Hb Hcal Hf Hh Hfit)
      as (_ & Hh' & _).
    apply Z.mul_nonneg_nonpos; lia.
Qed.

Definition sample_run_0 : result (list Itinerary.t) * world :=
  _generate_fallback_itineraries "Paris" 0 "museums" 1500 3 (Some 739000)
    sample_world.

Definition sample_itineraries_0 : list Itinerary.t :=
  match fst sample_run_0 with Ok l => l | Raise _ => [] end.

Lemma sample_run_0_ok :
  _generate_fallback_itineraries "Paris" 0 "museums" 1500 3 (Some 739000)
    sample_world = (Ok sample_itineraries_0, snd sample_run_0).
Proof. vm_compute. reflexivity. Qed.

Lemma fallback_without_days_witness :
  0 <= 0 /\
  List.length sample_itineraries_0 = 3%nat /\
  forall it, In it sample_itineraries_0 -> Itinerary.daily_itinerary it = [].
Proof.
  split; [lia |]. split; [vm_compute; reflexivity |]. intros it Hin.
  exact (proj1 (fallback_without_days "Paris" 0 "museums" 1500 3 (Some 739000)
                  sample_world sample_itineraries_0 (snd sample_run_0)
                  (Z.le_refl 0) sample_run_0_ok it Hin)).
Defined.

(** ** The bracketed span of an answer *)

Lemma from_first_spec c s r :
  from_first c s = Some r <->
  exists pre r',
    r = String c r' /\ s = (pre ++ r)%string /\
    ~ In c (list_ascii_of_string pre).
Proof.
  revert r. induction s as [| x s IH]; intros r; simpl.
  - split; [discriminate |]. intros (pre & r' & -> & E & _).
    destruct pre; discriminate E.
  - destruct (Ascii.eqb_spec x c) as [-> | Hne].
    + split.
      * intros E. inversion E. exists EmptyString, s.
        split; [reflexivity |]. split; [reflexivity |]. simpl. tauto.
      * intros (pre & r' & -> & E & Hpre). destruct pre as [| y pre].
        -- simpl in E. rewrite E. reflexivity.
        -- simpl in E, Hpre. inversion E. subst y. tauto.
    + rewrite IH. split.
      * intros (pre & r' & -> & -> & Hpre). exists (String x pre), r'.
        split; [reflexivity |]. split; [reflexivity |].
        simpl. intros [H | H]; [congruence | tauto].
      * intros (pre & r' & -> & E & Hpre). destruct pre as [| y pre].
        -- simpl in E. inversion E. congruence.
        -- simpl in E, Hpre. inversion E. subst y.
           exists pre, r'. split; [reflexivity |]. split; [reflexivity |].
           tauto.
Qed.

Lemma upto_last_None c s :
  upto_last c s = None <-> ~ In c (list_ascii_of_string s).
Proof.
  induction s as [| x s IH]; simpl.
  - tauto.
  - destruct (upto_last c s) as [p |].
    + split; [discriminate |]. intros H. exfalso.
      assert (Hs : ~ In c (list_ascii_of_string s)) by tauto.
      apply IH in Hs. discriminate Hs.
    + destruct (Ascii.eqb_spec x c) as [-> | Hne].
      * split; [discriminate | tauto].
      * split; [| reflexivity]. intros _ [H | H]; [congruence |].
        apply (proj1 IH eq_refl), H.
Qed.

Lemma upto_last_spec c s p :
  upto_last c s = Some p <->
  exists mid post,
    p = (mid ++ String c EmptyString)%string /\ s = (p ++ post)%string /\
    ~ In c (list_ascii_of_string post).
Proof.
  revert p. induction s as [| x s IH]; intros p.
  - simpl. split; [discriminate |]. intros (mid & post & -> & E & _).
    destruct mid; discriminate E.
  - cbn [upto_last]. split.
    + destruct (upto_last c s) as [p' |] eqn:Hs.
      * intros E. inversion E. subst p.
        destruct (proj1 (IH p') eq_refl) as (mid & post & -> & -> & Hpost).
        exists (String x mid), post. repeat split; assumption.
      * destruct (Ascii.eqb_spec x c) as [-> | Hne]; [| discriminate].
        intros E. inversion E. exists EmptyString, s.
        split; [reflexivity |]. split; [reflexivity |].
        apply upto_last_None, Hs.
    + intros (mid & post & -> & E & Hpost). destruct mid as [| y mid].
      * simpl in E. inversion E. subst x s.
        rewrite (proj2 (upto_last_None c post) Hpost).
        rewrite Ascii.eqb_refl. reflexivity.
      * simpl in E. inversion E. subst y s.
        rewrite (proj2 (IH (mid ++ String c EmptyString)%string)).
        -- reflexivity.
        -- exists mid, post. repeat split; assumption.
Qed.

Lemma string_app_assoc (a b c : string) :
  ((a ++ b) ++ c = a ++ (b ++ c))%string.
Proof. induction a as [| x a IH]; simpl; [reflexivity | rewrite IH; reflexivity]. Qed.

(** X9.  The bracketed span.  The search for an array in the agent's answer
    succeeds exactly when the answer holds an opening bracket with a closing
    bracket somewhere after it, and its match is the text from the first
    opening bracket of the answer to the last closing bracket after it:
    nothing before the match holds an opening bracket, nothing after it a
    closing one. *)
Theorem search_json_array_first_to_last :
  forall content span,
    search_json_array content = Some span <->
    exists pre mid post,
      content = (pre ++ span ++ post)%string /\
      span = ("[" ++ mid ++ "]")%string /\
      ~ In "["%char (list_ascii_of_string pre) /\
      ~ In "]"%char (list_ascii_of_string post).
Proof.
  intros content span. unfold search_json_array. split.
  - destruct (from_first "[" content) as [[| x rest] |] eqn:Hf;
      try discriminate.
    destruct (upto_last "]" rest) as [p |] eqn:Hu; [| discriminate].
    intros E. inversion E. subst span.
    apply from_first_spec in Hf.
    destruct Hf as (pre & r' & Hr & Hc & Hpre). inversion Hr. subst x r'.
    apply upto_last_spec in Hu. destruct Hu as (mid & post & -> & Hrest & Hpost).
    exists pre, mid, post. split; [| split; [reflexivity | split; assumption]].
    rewrite Hc, Hrest. reflexivity.
  - intros (pre & mid & post & -> & -> & Hpre & Hpost).
    assert (Hf : from_first "[" (pre ++ ("[" ++ mid ++ "]") ++ post)%string
                 = Some (String "[" ((mid ++ "]") ++ post))%string).
    { apply from_first_spec. exists pre, ((mid ++ "]") ++ post)%string.
      split; [reflexivity |]. split; [reflexivity | exact Hpre]. }
    rewrite Hf.
    assert (Hu : upto_last "]" ((mid ++ "]") ++ post)%string
                 = Some (mid ++ "]")%string).
    { apply upto_last_spec. exists mid, post.
      split; [reflexivity |]. split; [reflexivity | exact Hpost]. }
    rewrite Hu. reflexivity.
Qed.

(* ================================================================= *)
(** ** The budget fit, on its own *)

(** X11.  The budget fit on binary64 floats.  With budget * 0.9, the scale
    and the scaled prices computed as Python computes them (int operands
    converted to the nearest float, every product and quotient rounded to
    nearest, int() truncating), for a positive budget, 0 <= num_days <=
    3652059 (no trip inside the calendar is longer) and drawn prices
    200..600 and 80..300: whenever the block returns, the kept prices are
    not negative and the recomputed total_cost satisfies
    0 <= total_cost and 10 x total_cost <= 9 x budget; and for a budget
    below 2^1023 the block does return. *)
Theorem fit_budget_binary64_within_budget :
  forall budget num_days f h,
    0 < budget -> 0 <= num_days <= MAXORDINAL ->
    200 <= f <= 600 -> 80 <= h <= 300 ->
    (forall w f' h' t w',
        Binary64.fit_budget budget num_days f h w = (Ok (f', h', t), w') ->
        t = f' + h' * num_days /\
        0 <= f' /\ 0 <= h' /\ 0 <= t /\ 10 * t <= 9 * budget) /\
    (budget < 2 ^ 1023 ->
     forall w, exists f' h' t,
       Binary64.fit_budget budget num_days f h w = (Ok (f', h', t), w)).
Proof.
  intros budget num_days f h Hb Hd Hf Hh. split.
  - intros w f' h' t w' E.
    apply fit_budget64_inv in E; [| lia].
    split; [apply E |].
    eapply budget_fit64_bound; eassumption.
  - intros Hbig w. apply fit_budget64_returns; try assumption; lia.
Qed.

Lemma fit_budget_binary64_within_budget_witness :
  0 < 1500 /\ 0 <= 30 <= MAXORDINAL /\ 200 <= 600 <= 600 /\
  80 <= 300 <= 300 /\
  exists f' h' t,
    Binary64.fit_budget 1500 30 600 300 sample_world
    = (Ok (f', h', t), sample_world) /\
    10 * t <= 9 * 1500.
Proof.
  assert (H1 : 0 < 1500) by lia.
  assert (H2 : 0 <= 30 <= MAXORDINAL) by (unfold MAXORDINAL; lia).
  assert (H3 : 200 <= 600 <= 600) by lia.
  assert (H4 : 80 <= 300 <= 300) by lia.
  split; [exact H1 |]. split; [exact H2 |]. split; [exact H3 |].
  split; [exact H4 |].
  destruct (fit_budget_binary64_within_budget 1500 30 600 300 H1 H2 H3 H4)
    as [Hbound Hret].
  destruct (Hret ltac:(vm_compute; reflexivity) sample_world)
    as (f' & h' & t & E).
  exists f', h', t. split; [exact E |].
  apply (Hbound _ _ _ _ _ E).
Defined.

(** The limit on the day count matters: on floats, a trip of about 2e12
    days keeps a total above 90% of the budget. *)
Example fit_budget_binary64_long_trip :
  exists f' h' t w',
    Binary64.fit_budget 566444374635551 2216521465964 342 285 sample_world
    = (Ok (f', h', t), w') /\
    9 * 566444374635551 < 10 * t.
Proof.
  eexists _, _, _, _. split; [vm_compute; reflexivity |].
  vm_compute. reflexivity.
Qed.

(** Two runs of the fit: a total of 522 against a budget of 500 is scaled
    with the rounded quotient, and the nightly price 290 becomes 249; a
    budget of 2^1024 cannot be converted to a float. *)
Example fit_budget_binary64_scaled :
  fst (Binary64.fit_budget 500 1 232 290 sample_world) = Ok (200, 249, 449).
Proof. vm_compute. reflexivity. Qed.

Example fit_budget_binary64_overflow :
  fst (Binary64.fit_budget (2 ^ 1024) 3 400 150 sample_world)
  = Raise OverflowError.
Proof. vm_compute. reflexivity. Qed.

(* ================================================================= *)
(** * The model's answer and the calendar export

    [GeminiChat.arun] and [generate_ical] work on decoded JSON and on the
    itinerary dictionaries themselves, whatever their shape: this part
    embeds them on Python values of JSON shape. *)

Module Value.

(** A Python value of JSON shape; a [dict] keeps its insertion order. *)
#[warnings="-register-all"]
Inductive t : Type :=
| None_
| Bool (b : bool)
| Int (z : Z)
| Float (q : Q)
| Str (s : string)
| List (l : list t)
| Dict (d : dict string t).

(** The exceptions of attribute access, indexing, iteration and parsing. *)
Inductive error : Type :=
| AttributeError
| IndexError
| KeyError
| TypeError
| ValueError
| OverflowError.

(** A computation that returns or raises. *)
Definition R (A : Type) : Type := error + A.

Definition and_then {A B} (r : R A) (k : A -> R B) : R B :=
  match r with
  | inl e => inl e
  | inr a => k a
  end.

(** [v.get(k, default)]: only a dict has the method. *)
Definition get (v : t) (k : string) (default : t) : R t :=
  match v with
  | Dict d =>
      inr match dict_get k d with
          | Some x => x
          | None => default
          end
  | _ => inl AttributeError
  end.

(** The first character of a string in UTF-8: its first byte and the
    continuation bytes that follow it. *)
Definition is_continuation (c : ascii) : bool :=
  let n := nat_of_ascii c in (128 <=? n)%nat && (n <? 192)%nat.

Fixpoint continuation (s : string) : string :=
  match s with
  | String c s' =>
      if is_continuation c then String c (continuation s') else EmptyString
  | EmptyString => EmptyString
  end.

(** [v[0]]: the first element of a list, the first character of a string;
    a dict of JSON shape has only string keys, so the key 0 is missing. *)
Definition first (v : t) : R t :=
  match v with
  | List (x :: _) => inr x
  | List [] => inl IndexError
  | Str (String c s) => inr (Str (String c (continuation s)))
  | Str EmptyString => inl IndexError
  | Dict _ => inl KeyError
  | _ => inl TypeError
  end.

(** [v.items()] *)
Definition items (v : t) : R (list (string * t)) :=
  match v with
  | Dict d => inr d
  | _ => inl AttributeError
  end.

(** The characters of a string. *)
Fixpoint chars (fuel : nat) (s : string) : list string :=
  match fuel, s with
  | S fuel, String c s' =>
      let k := continuation s' in
      String c k
      :: chars fuel (substring (String.length k)
                       (String.length s' - String.length k) s')
  | _, _ => []
  end.

(** [for x in v]: the elements of a list, the keys of a dict, the
    characters of a string. *)
Definition iter (v : t) : R (list t) :=
  match v with
  | List l => inr l
  | Dict d => inr (map (fun kv => Str (fst kv)) d)
  | Str s => inr (map Str (chars (String.length s) s))
  | _ => inl TypeError
  end.

(** [for x in l: ...] with a body that may raise. *)
Fixpoint for_each {A S} (f : S -> A -> R S) (l : list A) (s : S) : R S :=
  match l with
  | [] => inr s
  | x :: l' => and_then (f s x) (for_each f l')
  end.

End Value.

(** ** [GeminiChat.arun]: the text of the answer *)

(** [result.get("candidates", [{}])[0].get("content", {})
       .get("parts", [{}])[0].get("text", "")] *)
Definition arun_content (result : Value.t) : Value.R Value.t :=
  Value.and_then
    (Value.get result "candidates" (Value.List [Value.Dict []]))
    (fun candidates =>
  Value.and_then (Value.first candidates) (fun candidate =>
  Value.and_then (Value.get candidate "content" (Value.Dict []))
    (fun content =>
  Value.and_then (Value.get content "parts" (Value.List [Value.Dict []]))
    (fun parts =>
  Value.and_then (Value.first parts) (fun part =>
  Value.get part "text" (Value.Str EmptyString)))))).

(** ** [generate_ical]: the calendar of an itinerary *)

Module Ical.

Record time : Type := {
  hour : Z;
  minute : Z
}.

(** What [generate_ical] adds to an event; a [datetime] is a date and a
    time of day. *)
Record event : Type := {
  summary : Value.t;
  description : Value.t;
  dtstart : Z * time;
  dtend : Z * time;
  location : Value.t
}.

(** What [generate_ical] adds to the calendar, in order. *)
Record calendar : Type := {
  prodid : string;
  version : string;
  events : list event
}.

End Ical.

(** Strings hold text in UTF-8, and the pattern of [%H:%M] reads code
    points: [\d] matches every decimal digit of the Unicode database of the
    interpreter, the classes [[0-3]], [[0-1]] and [[0-5]] only ASCII
    digits. *)

Definition byte (c : ascii) : Z := Z.of_nat (nat_of_ascii c).

Definition continuation_byte (s : string) : option (Z * string) :=
  match s with
  | String c r =>
      if Value.is_continuation c then Some (byte c - 128, r) else None
  | EmptyString => None
  end.

(** The first code point of a string, and the text after it. *)
Definition code_point (s : string) : option (Z * string) :=
  match s with
  | EmptyString => None
  | String c r =>
      let b := byte c in
      if b <? 128 then Some (b, r)
      else if b <? 194 then None
      else if b <? 224 then
        match continuation_byte r with
        | Some (x1, r1) => Some ((b - 192) * 64 + x1, r1)
        | None => None
        end
      else if b <? 240 then
        match continuation_byte r with
        | Some (x1, r1) =>
            match continuation_byte r1 with
            | Some (x2, r2) => Some ((b - 224) * 4096 + x1 * 64 + x2, r2)
            | None => None
            end
        | None => None
        end
      else if b <? 245 then
        match continuation_byte r with
        | Some (x1, r1) =>
            match continuation_byte r1 with
            | Some (x2, r2) =>
                match continuation_byte r2 with
                | Some (x3, r3) =>
                    Some ((b - 240) * 262144 + x1 * 4096 + x2 * 64 + x3, r3)
                | None => None
                end
            | None => None
            end
        | None => None
        end
      else None
  end.

Section Calendar.

(** The decimal digits beyond ASCII depend on the version of the Unicode
    database: [decimal_zeros] holds the code point of the digit zero of each
    of their scripts, which the digits one to nine follow. *)
Variable decimal_zeros : list Z.

(** [\d] at the head of a string: the value of the digit, as [int] reads
    it, and the text left. *)
Definition digit (s : string) : option (Z * string) :=
  match code_point s with
  | Some (cp, r) =>
      if (48 <=? cp) && (cp <=? 57) then Some (cp - 48, r)
      else if cp <? 128 then None
      else
        match find (fun z => (z <=? cp) && (cp <=? z + 9)) decimal_zeros with
        | Some z => Some (cp - z, r)
        | None => None
        end
  | None => None
  end.

(** The class [[0-k]] at the head of a string. *)
Definition digit_upto (k : Z) (s : string) : option (Z * string) :=
  match s with
  | String c r =>
      let d := byte c - 48 in
      if (0 <=? d) && (d <=? k) then Some (d, r) else None
  | EmptyString => None
  end.

(** The ways [%H] can match at the head of a string, in the order the
    pattern [2[0-3]|[0-1]\d|\d] tries them, each with the text left. *)
Definition hour_matches (s : string) : list (Z * string) :=
  (match s with
   | String "2" r =>
       match digit_upto 3 r with
       | Some (d, r') => [(20 + d, r')]
       | None => []
       end
   | _ => []
   end)
  ++ (match digit_upto 1 s with
      | Some (d1, r) =>
          match digit r with
          | Some (d2, r') => [(10 * d1 + d2, r')]
          | None => []
          end
      | None => []
      end)
  ++ (match digit s with
      | Some (d, r) => [(d, r)]
      | None => []
      end).

(** The same for [%M], pattern [[0-5]\d|\d]. *)
Definition minute_matches (s : string) : list (Z * string) :=
  (match digit_upto 5 s with
   | Some (d1, r) =>
       match digit r with
       | Some (d2, r') => [(10 * d1 + d2, r')]
       | None => []
       end
   | None => []
   end)
  ++ (match digit s with
      | Some (d, r) => [(d, r)]
      | None => []
      end).

(** The matches of the whole pattern [%H:%M] at the head of a string, in
    the order of the search. *)
Definition hour_minute_matches (s : string) : list (Z * Z * string) :=
  flat_map
    (fun hr =>
       match snd hr with
       | String ":" r =>
           map (fun mr => (fst hr, fst mr, snd mr)) (minute_matches r)
       | _ => []
       end)
    (hour_matches s).

(** [datetime.strptime(v, '%H:%M').time()]: the first match of the pattern
    is taken, and must use up the string. *)
Definition strptime_HM (v : Value.t) : Value.R Ical.time :=
  match v with
  | Value.Str s =>
      match hour_minute_matches s with
      | (h, m, EmptyString) :: _ => inr {| Ical.hour := h; Ical.minute := m |}
      | _ => inl Value.ValueError
      end
  | _ => inl Value.TypeError
  end.

(** The body of [for activity in activities]: the event of an activity. *)
Definition ical_event (destination : string) (current_date : Z)
    (activity : Value.t) : Value.R Ical.event :=
  Value.and_then (Value.get activity "name" (Value.Str "Activity"))
    (fun summary =>
  Value.and_then (Value.get activity "description" (Value.Str EmptyString))
    (fun description =>
  Value.and_then (Value.get activity "start_time" (Value.Str "09:00"))
    (fun start_time_str =>
  Value.and_then (Value.get activity "end_time" (Value.Str "12:00"))
    (fun end_time_str =>
  Value.and_then (strptime_HM start_time_str) (fun start_time =>
  Value.and_then (strptime_HM end_time_str) (fun end_time =>
  Value.and_then (Value.get activity "location" (Value.Str destination))
    (fun location =>
  inr {| Ical.summary := summary;
         Ical.description := description;
         Ical.dtstart := (current_date, start_time);
         Ical.dtend := (current_date, end_time);
         Ical.location := location |}))))))).

(** The body of [for day, activities in ... .items()]; the loop state is
    the events added so far and [current_date]. *)
Definition ical_day (destination : string) (acc : list Ical.event * Z)
    (entry : string * Value.t) : Value.R (list Ical.event * Z) :=
  let '(events, current_date) := acc in
  Value.and_then (Value.iter (snd entry)) (fun activities =>
  Value.and_then
    (Value.for_each
       (fun events activity =>
          Value.and_then (ical_event destination current_date activity)
            (fun event => inr (events ++ [event])))
       activities events)
    (fun events =>
  if (1 <=? current_date + 1) && (current_date + 1 <=? MAXORDINAL)
  then inr (events, current_date + 1)
  else inl Value.OverflowError)).

(** The calendar that [generate_ical] hands to [to_ical()]. *)
Definition generate_ical (itinerary : Value.t) (destination : string)
    (start_date : Z) : Value.R Ical.calendar :=
  Value.and_then (Value.get itinerary "daily_itinerary" (Value.Dict []))
    (fun daily_itinerary =>
  Value.and_then (Value.items daily_itinerary) (fun entries =>
  Value.and_then
    (Value.for_each (ical_day destination) entries ([], start_date))
    (fun acc =>
  inr {| Ical.prodid := ("-//Travel Planner//" ++ destination ++ "//EN")%string;
         Ical.version := "2.0";
         Ical.events := fst acc |}))).

(** ** The dictionaries of the fallback synthesizer, as values *)

Definition activity_value (a : Activity.t) : Value.t :=
  Value.Dict
    [("name", Value.Str (Activity.name a));
     ("description", Value.Str (Activity.description a));
     ("start_time", Value.Str (Activity.start_time a));
     ("end_time", Value.Str (Activity.end_time a));
     ("location", Value.Str (Activity.location a));
     ("cost", Value.Int (Activity.cost a));
     ("source", Value.Str (Activity.source a));
     ("weather_alternative", Value.Str (Activity.weather_alternative a))].

Definition flight_value (f : Flight.t) : Value.t :=
  Value.Dict
    [("airline", Value.Str (Flight.airline f));
     ("price", Value.Int (Flight.price f));
     ("duration", Value.Str (Flight.duration f));
     ("dates", Value.Str (Flight.dates f));
     ("source", Value.Str (Flight.source f))].

Definition accommodation_value (a : Accommodation.t) : Value.t :=
  Value.Dict
    [("name", Value.Str (Accommodation.name a));
     ("type", Value.Str (Accommodation.type a));
     ("price_per_night", Value.Int (Accommodation.price_per_night a));
     ("total_price", Value.Int (Accommodation.total_price a));
     ("rating", Value.Float (Accommodation.rating a));
     ("location", Value.Str (Accommodation.location a));
     ("source", Value.Str (Accommodation.source a))].

Definition itinerary_value (it : Itinerary.t) : Value.t :=
  Value.Dict
    [("id", Value.Str (Itinerary.id it));
     ("title", Value.Str (Itinerary.title it));
     ("focus", Value.Str (Itinerary.focus it));
     ("description", Value.Str (Itinerary.description it));
     ("total_cost", Value.Int (Itinerary.total_cost it));
     ("weather_considerations",
      Value.Str (Itinerary.weather_considerations it));
     ("safety_recommendations",
      Value.Str (Itinerary.safety_recommendations it));
     ("flight_options",
      Value.List (map flight_value (Itinerary.flight_options it)));
     ("accommodation_options",
      Value.List (map accommodation_value
                    (Itinerary.accommodation_options it)));
     ("daily_itinerary",
      Value.Dict
        (map (fun entry =>
                (fst entry, Value.List (map activity_value (snd entry))))
           (Itinerary.daily_itinerary it)));
     ("unique_selling_point",
      Value.Str (Itinerary.unique_selling_point it))].

(** * Properties of the answer text and of the calendar *)

(** X12.  Missing keys in the model's answer.  For an answer that is a JSON
    object: without "candidates" the text is the empty string; with an
    empty "candidates" list the extraction raises IndexError; along the
    path candidates[0].content.parts[0] a missing "content", "parts" or
    "text" gives the empty string and an empty "parts" list raises
    IndexError; otherwise the text is the "text" of the first part of the
    first candidate. *)
Theorem arun_content_missing_keys :
  forall d,
    (dict_get "candidates" d = None ->
     arun_content (Value.Dict d) = inr (Value.Str EmptyString)) /\
    (dict_get "candidates" d = Some (Value.List []) ->
     arun_content (Value.Dict d) = inl Value.IndexError) /\
    (forall c rest,
        dict_get "candidates" d = Some (Value.List (Value.Dict c :: rest)) ->
        (dict_get "content" c = None ->
         arun_content (Value.Dict d) = inr (Value.Str EmptyString)) /\
        (forall ct,
            dict_get "content" c = Some (Value.Dict ct) ->
            (dict_get "parts" ct = None ->
             arun_content (Value.Dict d) = inr (Value.Str EmptyString)) /\
            (dict_get "parts" ct = Some (Value.List []) ->
             arun_content (Value.Dict d) = inl Value.IndexError) /\
            (forall p ps,
                dict_get "parts" ct = Some (Value.List (Value.Dict p :: ps)) ->
                arun_content (Value.Dict d)
                = inr match dict_get "text" p with
                      | Some text => text
                      | None => Value.Str EmptyString
                      end))).
Proof.
  intros d. unfold arun_content. cbn [Value.get Value.and_then].
  split; [intros ->; reflexivity |]. split; [intros ->; reflexivity |].
  intros c rest ->. cbn [Value.first Value.get Value.and_then].
  split; [intros ->; reflexivity |].
  intros ct ->. cbn [Value.first Value.get Value.and_then].
  split; [intros ->; reflexivity |]. split; [intros ->; reflexivity |].
  intros p ps ->. reflexivity.
Qed.

(** The event of a fallback activity on a date, from hour [h1] to [h2]. *)
Definition event_at (date h1 h2 : Z) (a : Activity.t) : Ical.event :=
  {| Ical.summary := Value.Str (Activity.name a);
     Ical.description := Value.Str (Activity.description a);
     Ical.dtstart := (date, {| Ical.hour := h1; Ical.minute := 0 |});
     Ical.dtend := (date, {| Ical.hour := h2; Ical.minute := 0 |});
     Ical.location := Value.Str (Activity.location a) |}.

(** The events of a plan of two-activity days, the first day on [date]. *)
Fixpoint planned_events (date : Z) (plan : dict string (list Activity.t))
  : list Ical.event :=
  match plan with
  | [] => []
  | (_, acts) :: rest =>
      match acts with
      | [a0; a1] => [event_at date 9 12 a0; event_at date 13 16 a1]
      | _ => []
      end ++ planned_events (date + 1) rest
  end.

(** A day of the fallback synthesizer: two activities in its two slots. *)
Definition two_slots (entry : string * list Activity.t) : Prop :=
  exists a0 a1,
    snd entry = [a0; a1] /\
    Activity.start_time a0 = "9:00" /\ Activity.end_time a0 = "12:00" /\
    Activity.start_time a1 = "13:00" /\ Activity.end_time a1 = "16:00".

Definition entry_value (entry : string * list Activity.t)
  : string * Value.t :=
  (fst entry, Value.List (map activity_value (snd entry))).

Lemma ical_event_fallback destination date a h1 h2 :
  strptime_HM (Value.Str (Activity.start_time a))
  = inr {| Ical.hour := h1; Ical.minute := 0 |} ->
  strptime_HM (Value.Str (Activity.end_time a))
  = inr {| Ical.hour := h2; Ical.minute := 0 |} ->
  ical_event destination date (activity_value a)
  = inr (event_at date h1 h2 a).
Proof.
  intros Hs He. unfold ical_event, activity_value.
  cbn [Value.get Value.and_then dict_get key_eqb string_Key String.eqb
       Ascii.eqb Bool.eqb].
  rewrite Hs, He. reflexivity.
Qed.

Lemma ical_day_fallback destination events date entry :
  two_slots entry ->
  ical_day destination (events, date) (entry_value entry)
  = if (1 <=? date + 1) && (date + 1 <=? MAXORDINAL)
    then inr (events ++ planned_events date [entry], date + 1)
    else inl Value.OverflowError.
Proof.
  intros (a0 & a1 & Hacts & Hs0 & He0 & Hs1 & He1).
  destruct entry as [label acts]. cbn [snd] in Hacts. subst acts.
  unfold ical_day, entry_value.
  cbn [snd fst Value.iter Value.and_then map Value.for_each].
  rewrite (ical_event_fallback destination date a0 9 12)
    by (rewrite ?Hs0, ?He0; reflexivity).
  cbn [Value.and_then].
  rewrite (ical_event_fallback destination date a1 13 16)
    by (rewrite ?Hs1, ?He1; reflexivity).
  cbn [Value.and_then planned_events]. rewrite app_nil_r, <- app_assoc.
  reflexivity.
Qed.

Lemma planned_events_cons date entry rest :
  planned_events date (entry :: rest)
  = planned_events date [entry] ++ planned_events (date + 1) rest.
Proof.
  destruct entry as [label acts]. cbn [planned_events].
  rewrite app_nil_r. reflexivity.
Qed.

(** The day loop on a plan of two-activity days: it returns when the step
    after the last day stays inside the calendar. *)
Lemma ical_days_fallback destination plan : forall events date,
  Forall two_slots plan -> 1 <= date <= MAXORDINAL ->
  Value.for_each (ical_day destination) (map entry_value plan) (events, date)
  = if date + Z.of_nat (List.length plan) <=? MAXORDINAL
    then inr (events ++ planned_events date plan,
              date + Z.of_nat (List.length plan))
    else inl Value.OverflowError.
Proof.
  induction plan as [| entry plan IH]; intros events date Hall Hdate.
  - cbn [map Value.for_each List.length planned_events].
    rewrite Z.add_0_r, app_nil_r.
    destruct (Z.leb_spec date MAXORDINAL); [reflexivity | lia].
  - inversion Hall as [| e p Hentry Hrest]; subst.
    cbn [map Value.for_each]. rewrite (ical_day_fallback _ _ _ _ Hentry).
    destruct (Z.leb_spec 1 (date + 1)); [| lia].
    destruct (Z.leb_spec (date + 1) MAXORDINAL); cbn [andb Value.and_then].
    + rewrite IH by (try assumption; lia).
      rewrite (planned_events_cons date entry plan).
      replace (date + Z.of_nat (List.length (entry :: plan)))
        with (date + 1 + Z.of_nat (List.length plan))
        by (cbn [List.length]; lia).
      rewrite <- app_assoc. reflexivity.
    + destruct (Z.leb_spec (date + Z.of_nat (List.length (entry :: plan)))
                  MAXORDINAL); [cbn [List.length] in *; lia | reflexivity].
Qed.

Lemma planned_events_length date plan :
  Forall two_slots plan ->
  List.length (planned_events date plan) = (2 * List.length plan)%nat.
Proof.
  revert date. induction plan as [| entry plan IH]; intros date Hall.
  - reflexivity.
  - inversion Hall as [| e p (a0 & a1 & Hacts & _) Hrest]; subst.
    destruct entry as [label acts]. cbn [snd] in Hacts. subst acts.
    cbn [planned_events List.length app]. rewrite IH by assumption. lia.
Qed.

Lemma days_ok_two_slots start_date fc days plan :
  days_ok start_date fc days plan -> Forall two_slots plan.
Proof.
  unfold days_ok. induction 1 as [| d e ds es [_ Hday] _ IH]; constructor.
  - destruct Hday as (a0 & a1 & Hacts & H0 & H1).
    destruct H0 as (Hs0 & He0 & _). destruct H1 as (Hs1 & He1 & _).
    exists a0, a1. repeat split; assumption.
  - exact IH.
Qed.

(** X13.  The calendar of a fallback itinerary.  For an itinerary of the
    fallback synthesizer (num_days days) and an export start date of the
    calendar: when start + num_days does not pass date.max, generate_ical
    builds the calendar "-//Travel Planner//<destination>//EN", version
    "2.0", with two events per day, in order.  The events of the k-th day
    entry are dated start + k - 1 whatever the key of the entry, run from
    9:00 to 12:00 and from 13:00 to 16:00 (the unpadded "9:00" of the
    synthesizer parses), and carry the activity's name, description and
    location.  When start + num_days passes date.max it raises
    OverflowError, as the loop steps to the next date after every day. *)
Theorem ical_of_fallback_itinerary :
  forall destination num_days preferences budget num_itineraries start_date
         w l w',
    _generate_fallback_itineraries destination num_days preferences budget
      num_itineraries start_date w = (Ok l, w') ->
    forall it export_destination export_start,
      In it l -> 1 <= export_start <= MAXORDINAL ->
      (export_start + Z.max 0 num_days <= MAXORDINAL ->
       generate_ical (itinerary_value it) export_destination export_start
       = inr {| Ical.prodid :=
                  ("-//Travel Planner//" ++ export_destination ++ "//EN")%string;
                Ical.version := "2.0";
                Ical.events :=
                  planned_events export_start (Itinerary.daily_itinerary it) |}
       /\ Z.of_nat (List.length
                      (planned_events export_start
                         (Itinerary.daily_itinerary it)))
          = 2 * Z.max 0 num_days) /\
      (MAXORDINAL < export_start + Z.max 0 num_days ->
       generate_ical (itinerary_value it) export_destination export_start
       = inl Value.OverflowError).
Proof.
  intros destination num_days preferences budget num_itineraries start_date
         w l w' E it export_destination export_start Hin Hstart.
  apply fallback_inv in E.
  destruct E as (start & fc & w2 & alerts & w3 & _ & _ & _ & _ & _ & Hall).
  rewrite Forall_forall in Hall. destruct (Hall it Hin) as (_ & _ & Hdays).
  pose proof (days_ok_two_slots _ _ _ _ Hdays) as Hslots.
  assert (Hlen : Z.of_nat (List.length (Itinerary.daily_itinerary it))
                 = Z.max 0 num_days).
  { apply Forall2_length in Hdays. rewrite <- Hdays, range_length. lia. }
  assert (Hrun :
    generate_ical (itinerary_value it) export_destination export_start
    = Value.and_then
        (Value.for_each (ical_day export_destination)
           (map entry_value (Itinerary.daily_itinerary it))
           ([], export_start))
        (fun acc =>
           inr {| Ical.prodid :=
                    ("-//Travel Planner//" ++ export_destination
                     ++ "//EN")%string;
                  Ical.version := "2.0";
                  Ical.events := fst acc |})) by reflexivity.
  rewrite Hrun, (ical_days_fallback _ _ _ _ Hslots Hstart), Hlen.
  split.
  - intros Hend.
    destruct (Z.leb_spec (export_start + Z.max 0 num_days) MAXORDINAL);
      [| lia].
    split; [reflexivity |].
    rewrite (planned_events_length _ _ Hslots). lia.
  - intros Hend.
    destruct (Z.leb_spec (export_start + Z.max 0 num_days) MAXORDINAL);
      [lia | reflexivity].
Qed.

(** ** The calendar of any itinerary *)

Lemma and_then_inr {A B} (r : Value.R A) (k : A -> Value.R B) b :
  Value.and_then r k = inr b -> exists a, r = inr a /\ k a = inr b.
Proof.
  destruct r as [e | a]; cbn [Value.and_then]; intros E; [discriminate |].
  exists a. split; [reflexivity | exact E].
Qed.

(** A loop with an accumulator, under an invariant indexed by the rounds
    already done. *)
Lemma for_each_inv {A S} (f : S -> A -> Value.R S) (I : list A -> S -> Prop)
      l :
  (forall pre x post s s',
      l = pre ++ x :: post -> I pre s -> f s x = inr s' -> I (pre ++ [x]) s') ->
  forall s0 s', I [] s0 -> Value.for_each f l s0 = inr s' -> I l s'.
Proof.
  intros Hstep.
  enough (G : forall todo done s s',
             l = done ++ todo -> I done s ->
             Value.for_each f todo s = inr s' -> I l s').
  { intros s0 s' H0 E. eapply (G l []); eauto. }
  induction todo as [| x todo IH]; cbn [Value.for_each];
    intros done s s' El Hd E.
  - inversion E as [Es]. rewrite <- Es, El, app_nil_r. exact Hd.
  - apply and_then_inr in E. destruct E as (s1 & E1 & E).
    apply (IH (done ++ [x]) s1 s').
    + rewrite El, <- app_assoc. reflexivity.
    + eapply Hstep; eauto.
    + exact E.
Qed.

Lemma digit_range s d r : digit s = Some (d, r) -> 0 <= d <= 9.
Proof.
  unfold digit. destruct (code_point s) as [[cp r0] |]; [| discriminate].
  destruct (Z.leb_spec 48 cp); destruct (Z.leb_spec cp 57); cbn [andb];
    try (intros E; inversion E; lia);
    (destruct (cp <? 128); [discriminate |]);
    (destruct (find _ decimal_zeros) as [z |] eqn:Hz; [| discriminate]);
    apply find_some in Hz; destruct Hz as [_ Hz];
    apply andb_prop in Hz; destruct Hz as [H1 H2];
    apply Z.leb_le in H1; apply Z.leb_le in H2;
    intros E; inversion E; lia.
Qed.

Lemma digit_upto_range k s d r : digit_upto k s = Some (d, r) -> 0 <= d <= k.
Proof.
  unfold digit_upto. destruct s as [| c r0]; [discriminate |].
  destruct (Z.leb_spec 0 (byte c - 48));
    destruct (Z.leb_spec (byte c - 48) k); cbn [andb];
    intros E; inversion E. subst. lia.
Qed.

Lemma hour_matches_range s h r : In (h, r) (hour_matches s) -> 0 <= h <= 23.
Proof.
  unfold hour_matches. rewrite !in_app_iff. intros [H | [H | H]].
  - destruct s as [| c0 r0]; [contradiction |].
    destruct c0 as [[] [] [] [] [] [] [] []]; cbv beta iota in H;
      try contradiction.
    destruct (digit_upto 3 r0) as [[d r1] |] eqn:Hd; [| contradiction].
    apply digit_upto_range in Hd.
    destruct H as [H | []]. apply (f_equal fst) in H. cbn [fst] in H. lia.
  - destruct (digit_upto 1 s) as [[d1 r1] |] eqn:H1; [| contradiction].
    destruct (digit r1) as [[d2 r2] |] eqn:H2; [| contradiction].
    apply digit_upto_range in H1. apply digit_range in H2.
    destruct H as [H | []]. apply (f_equal fst) in H. cbn [fst] in H. lia.
  - destruct (digit s) as [[d r1] |] eqn:Hd; [| contradiction].
    apply digit_range in Hd. destruct H as [H | []]. apply (f_equal fst) in H. cbn [fst] in H. lia.
Qed.

Lemma minute_matches_range s m r :
  In (m, r) (minute_matches s) -> 0 <= m <= 59.
Proof.
  unfold minute_matches. rewrite in_app_iff. intros [H | H].
  - destruct (digit_upto 5 s) as [[d1 r1] |] eqn:H1; [| contradiction].
    destruct (digit r1) as [[d2 r2] |] eqn:H2; [| contradiction].
    apply digit_upto_range in H1. apply digit_range in H2.
    destruct H as [H | []]. apply (f_equal fst) in H. cbn [fst] in H. lia.
  - destruct (digit s) as [[d r1] |] eqn:Hd; [| contradiction].
    apply digit_range in Hd. destruct H as [H | []]. apply (f_equal fst) in H. cbn [fst] in H. lia.
Qed.

(** A time of day. *)
Definition valid_time (t : Ical.time) : Prop :=
  0 <= Ical.hour t <= 23 /\ 0 <= Ical.minute t <= 59.

Lemma strptime_HM_range v t : strptime_HM v = inr t -> valid_time t.
Proof.
  unfold strptime_HM. destruct v; try discriminate.
  destruct (hour_minute_matches s) as [| [[h m] r] rest] eqn:Hm;
    [discriminate |].
  destruct r; [| discriminate]. intros E. inversion E. subst t.
  assert (Hin : In (h, m, EmptyString) (hour_minute_matches s))
    by (rewrite Hm; left; reflexivity).
  unfold hour_minute_matches in Hin. apply in_flat_map in Hin.
  destruct Hin as ([h0 r0] & Hh & Hin). cbn [fst snd] in Hin.
  destruct r0 as [| c r1]; [contradiction |].
  destruct c as [[] [] [] [] [] [] [] []]; cbn iota in Hin;
    try contradiction.
  apply in_map_iff in Hin. destruct Hin as ([m0 r2] & Heq & Hmin).
  inversion Heq. subst. cbn [fst snd] in *.
  apply hour_matches_range in Hh. apply minute_matches_range in Hmin.
  split; assumption.
Qed.

(** An event of the day [date], with times of day. *)
Definition event_on (date : Z) (e : Ical.event) : Prop :=
  fst (Ical.dtstart e) = date /\ fst (Ical.dtend e) = date /\
  valid_time (snd (Ical.dtstart e)) /\ valid_time (snd (Ical.dtend e)).

Lemma ical_event_on destination date activity e :
  ical_event destination date activity = inr e -> event_on date e.
Proof.
  unfold ical_event. intros E.
  apply and_then_inr in E. destruct E as (summary & _ & E).
  apply and_then_inr in E. destruct E as (description & _ & E).
  apply and_then_inr in E. destruct E as (start_time_str & _ & E).
  apply and_then_inr in E. destruct E as (end_time_str & _ & E).
  apply and_then_inr in E. destruct E as (start_time & Hs & E).
  apply and_then_inr in E. destruct E as (end_time & He & E).
  apply and_then_inr in E. destruct E as (location & _ & E).
  inversion E. subst e. unfold event_on. cbn [Ical.dtstart Ical.dtend fst snd].
  split; [reflexivity |]. split; [reflexivity |].
  split; eapply strptime_HM_range; eassumption.
Qed.

(** X14.  The calendar of any itinerary.  Whatever the shape of the
    itinerary: when generate_ical returns, each of its events starts and
    ends on one and the same day, a day from start_date on and before
    start_date + the number of day entries, at times of day (hour 0..23,
    minute 0..59); nothing orders the end after the start.  An itinerary
    that is no dict raises AttributeError; a dict without
    "daily_itinerary" gives a calendar without events; and an activity dict
    without "name", "description", "start_time", "end_time" and "location"
    gives the event "Activity", from 09:00 to 12:00, at the destination. *)
Theorem ical_events_are_dated :
  forall itinerary destination start_date,
    (forall cal,
        generate_ical itinerary destination start_date = inr cal ->
        exists entries,
          itinerary = Value.Dict entries /\
          Ical.prodid cal
          = ("-//Travel Planner//" ++ destination ++ "//EN")%string /\
          Ical.version cal = "2.0" /\
          let days :=
            match dict_get "daily_itinerary" entries with
            | Some (Value.Dict plan) => Z.of_nat (List.length plan)
            | _ => 0
            end in
          Forall (fun e =>
                    exists date,
                      start_date <= date < start_date + days /\
                      event_on date e)
            (Ical.events cal)) /\
    ((forall entries, itinerary <> Value.Dict entries) ->
     generate_ical itinerary destination start_date
     = inl Value.AttributeError) /\
    (forall entries,
        itinerary = Value.Dict entries ->
        dict_get "daily_itinerary" entries = None ->
        generate_ical itinerary destination start_date
        = inr {| Ical.prodid :=
                   ("-//Travel Planner//" ++ destination ++ "//EN")%string;
                 Ical.version := "2.0";
                 Ical.events := [] |}) /\
    (forall activity,
        dict_get "name" activity = None ->
        dict_get "description" activity = None ->
        dict_get "start_time" activity = None ->
        dict_get "end_time" activity = None ->
        dict_get "location" activity = None ->
        ical_event destination start_date (Value.Dict activity)
        = inr {| Ical.summary := Value.Str "Activity";
                 Ical.description := Value.Str EmptyString;
                 Ical.dtstart :=
                   (start_date, {| Ical.hour := 9; Ical.minute := 0 |});
                 Ical.dtend :=
                   (start_date, {| Ical.hour := 12; Ical.minute := 0 |});
                 Ical.location := Value.Str destination |}).
Proof.
  intros itinerary destination start_date. split; [| split; [| split]].
  - intros cal E. unfold generate_ical in E.
    apply and_then_inr in E. destruct E as (daily & Hdaily & E).
    apply and_then_inr in E. destruct E as (plan & Hplan & E).
    apply and_then_inr in E. destruct E as ([events date] & Hloop & E).
    inversion E. subst cal. clear E.
    destruct itinerary as [| | | | | | entries]; try discriminate Hdaily.
    exists entries. split; [reflexivity |].
    split; [reflexivity |]. split; [reflexivity |].
    cbn [Value.get] in Hdaily. inversion Hdaily as [Hd]. clear Hdaily.
    destruct daily as [| | | | | | plan0]; try discriminate Hplan.
    cbn [Value.items] in Hplan. inversion Hplan. subst plan0. clear Hplan.
    cbn [Ical.events fst].
    assert (Hdays : match dict_get "daily_itinerary" entries with
                    | Some (Value.Dict plan1) => Z.of_nat (List.length plan1)
                    | _ => 0
                    end
                    = match dict_get "daily_itinerary" entries with
                      | Some _ => Z.of_nat (List.length plan)
                      | None => 0
                      end).
    { destruct (dict_get "daily_itinerary" entries); [| reflexivity].
      subst t. reflexivity. }
    cbv zeta. rewrite Hdays. clear Hdays.
    assert (Hplan0 : dict_get "daily_itinerary" entries = None -> plan = []).
    { intros Hn. rewrite Hn in Hd. inversion Hd. reflexivity. }
    assert (Hinv :
      date = start_date + Z.of_nat (List.length plan) /\
      Forall (fun e => exists d,
                start_date <= d < start_date + Z.of_nat (List.length plan) /\
                event_on d e) events).
    { apply (for_each_inv (ical_day destination)
               (fun pre (acc : list Ical.event * Z) =>
                  snd acc = start_date + Z.of_nat (List.length pre) /\
                  Forall (fun e => exists d,
                            start_date <= d
                            < start_date + Z.of_nat (List.length pre) /\
                            event_on d e) (fst acc))
               plan) in Hloop.
      - exact Hloop.
      - intros pre x post [evs cur] [evs' cur'] _ [Hcur Hevs] Hrun.
        cbn [fst snd] in *. unfold ical_day in Hrun.
        apply and_then_inr in Hrun. destruct Hrun as (acts & _ & Hrun).
        apply and_then_inr in Hrun. destruct Hrun as (evs1 & Hacts & Hrun).
        destruct ((1 <=? cur + 1) && (cur + 1 <=? MAXORDINAL));
          [| discriminate Hrun].
        inversion Hrun. subst evs' cur'. clear Hrun.
        rewrite length_app. cbn [List.length]. split; [lia |].
        apply (for_each_inv _
                 (fun (_ : list Value.t) (es : list Ical.event) =>
                    Forall (fun e => exists d,
                              start_date <= d
                              < start_date
                                + Z.of_nat (List.length pre + 1) /\
                              event_on d e) es) acts) in Hacts.
        + exact Hacts.
        + intros _ a _ es es' _ Hes Hone.
          apply and_then_inr in Hone. destruct Hone as (e & He & Hone).
          inversion Hone. subst es'. apply Forall_app. split; [exact Hes |].
          constructor; [| constructor]. exists cur.
          split; [lia |]. eapply ical_event_on, He.
        + eapply Forall_impl; [| exact Hevs].
          intros e (d & Hd' & He). exists d. split; [lia | exact He].
      - cbn [fst snd List.length]. split; [lia | constructor]. }
    destruct Hinv as [_ Hevs].
    destruct (dict_get "daily_itinerary" entries) as [v |] eqn:Hget.
    + exact Hevs.
    + rewrite (Hplan0 eq_refl) in Hevs. exact Hevs.
  - intros Hno. destruct itinerary; try reflexivity.
    exfalso. eapply Hno. reflexivity.
  - intros entries -> Hnone. unfold generate_ical.
    cbn [Value.get Value.and_then]. rewrite Hnone. reflexivity.
  - intros activity Hn Hd Hs He Hl. unfold ical_event.
    cbn [Value.get Value.and_then]. rewrite Hn, Hd, Hs, He, Hl. reflexivity.
Qed.

End Calendar.

(** The digits zero beyond ASCII of Unicode 14.0, the database of
    Python 3.11. *)
Definition unicode_14_zeros : list Z :=
  [1632; 1776; 1984; 2406; 2534; 2662; 2790; 2918; 3046; 3174; 3302; 3430;
   3558; 3664; 3792; 3872; 4160; 4240; 6112; 6160; 6470; 6608; 6784; 6800;
   6992; 7088; 7232; 7248; 42528; 43216; 43264; 43472; 43504; 43600; 44016;
   65296; 66720; 68912; 69734; 69872; 69942; 70096; 70384; 70736; 70864;
   71248; 71360; 71472; 71904; 72016; 72784; 73040; 73120; 92768; 92864;
   93008; 120782; 120792; 120802; 120812; 120822; 123200; 123632; 125264;
   130032].

Lemma ical_of_fallback_itinerary_witness :
  _generate_fallback_itineraries "Paris" 3 "museums" 1500 3 (Some 739000)
    sample_world = (Ok sample_itineraries, snd sample_run) /\
  1 <= 739000 <= MAXORDINAL /\ 739000 + Z.max 0 3 <= MAXORDINAL /\
  forall it, In it sample_itineraries ->
    Z.of_nat (List.length
                (planned_events 739000 (Itinerary.daily_itinerary it)))
    = 2 * Z.max 0 3.
Proof.
  assert (H1 : 1 <= 739000 <= MAXORDINAL) by (unfold MAXORDINAL; lia).
  assert (H2 : 739000 + Z.max 0 3 <= MAXORDINAL) by (unfold MAXORDINAL; lia).
  split; [exact sample_run_ok |]. split; [exact H1 |]. split; [exact H2 |].
  intros it Hin.
  exact (proj2 (proj1 (ical_of_fallback_itinerary unicode_14_zeros "Paris" 3
                         "museums" 1500 3
                         (Some 739000) sample_world sample_itineraries
                         (snd sample_run) sample_run_ok it "Paris" 739000
                         Hin H1) H2)).
Defined.


(** An Arabic-Indic digit, U+0660 to U+0669, in UTF-8. *)
Definition arabic_indic (d : nat) : string :=
  String (ascii_of_nat 217) (String (ascii_of_nat (160 + d)) EmptyString).

(** Times that [%H:%M] reads: digits of another script count, in any
    position that [\d] matches; a second digit after 2 must be an ASCII
    one, so that the hour is the 2 alone and the rest does not match. *)
Example strptime_HM_unicode_digits :
  strptime_HM unicode_14_zeros
    (Value.Str (arabic_indic 0 ++ arabic_indic 9 ++ ":" ++ arabic_indic 3
                ++ arabic_indic 0))
  = inl Value.ValueError /\
  strptime_HM unicode_14_zeros
    (Value.Str (arabic_indic 9 ++ ":" ++ arabic_indic 3 ++ arabic_indic 0))
  = inl Value.ValueError /\
  strptime_HM unicode_14_zeros
    (Value.Str (arabic_indic 9 ++ ":" ++ "3" ++ arabic_indic 0))
  = inr {| Ical.hour := 9; Ical.minute := 30 |} /\
  strptime_HM unicode_14_zeros
    (Value.Str ("1" ++ arabic_indic 9 ++ ":" ++ arabic_indic 5))
  = inr {| Ical.hour := 19; Ical.minute := 5 |} /\
  strptime_HM unicode_14_zeros (Value.Str ("2" ++ arabic_indic 1 ++ ":00"))
  = inl Value.ValueError /\
  strptime_HM unicode_14_zeros (Value.Str "9:00")
  = inr {| Ical.hour := 9; Ical.minute := 0 |} /\
  strptime_HM unicode_14_zeros (Value.Str "24:00") = inl Value.ValueError.
Proof. vm_compute. repeat split; reflexivity. Qed.
